(** * The Vast.ai MCP server: remote process lifecycle and readiness poller

    A shallow embedding of [server.py].  Each Python function becomes a
    computation in a small state-and-exception monad: the state holds the
    two module globals ([_vast_client], [mcp_rules]), a clock, the state
    of the remote hosts and the chronological list of effects performed
    so far; everything the program cannot decide by itself (the local
    file system, paramiko's key parsers, the network, [uuid4]) is read
    from a [World].

    Conventions.
    - Python [str] values are [string]s holding UTF-8 bytes.
    - Exceptions are the instances of Python's [Exception]; the class
      hierarchy that the handlers of the source distinguish is kept.
    - A tool that builds its answer piece by piece first computes a reply
      (one constructor for each [return] of the source) and then lays it
      out as the text of the source.
    - The command of a caller is a line of text whose effect is left to
      the remote host; the snippets of the monitor and of the terminator
      are kept as syntax trees and run on an abstract operating system.
    - The [while] loop of the readiness poller takes fuel; with the
      clock of the model, which never runs backwards and advances by
      five seconds at every sleep of the loop, [timeout / 5 + 1] turns
      are enough.
    - Calls to [logger] have no influence on any result and are left
      out; [SSHClient()], [load_system_host_keys] and [close] do not
      raise.
    - Tool calls run one after the other. *)

From Stdlib Require Import String Ascii List ZArith Lia Bool DecimalString.
Import ListNotations.
Local Open Scope Z_scope.
Local Open Scope list_scope.
Local Open Scope string_scope.

Set Implicit Arguments.
Set Warnings "-register-all".

(* ================================================================== *)
(** * Python values used by the server *)
(* ================================================================== *)

Module Py.

(** ** Exception classes *)

Inductive exn_class :=
| Exception
| OSError
| FileNotFoundError
| ValueError
| UnicodeDecodeError
| JSONDecodeError            (* json.JSONDecodeError *)
| AttributeError
| TypeError
| SSHException               (* paramiko.SSHException *)
| AuthenticationException    (* paramiko.AuthenticationException *)
| PasswordRequiredException  (* paramiko.ssh_exception.PasswordRequiredException *)
| RequestException           (* requests.exceptions.RequestException *)
| RequestsJSONDecodeError.   (* requests.exceptions.JSONDecodeError *)

Definition exn_class_eqb (a b : exn_class) : bool :=
  match a, b with
  | Exception, Exception | OSError, OSError
  | FileNotFoundError, FileNotFoundError | ValueError, ValueError
  | UnicodeDecodeError, UnicodeDecodeError
  | JSONDecodeError, JSONDecodeError | AttributeError, AttributeError
  | TypeError, TypeError | SSHException, SSHException
  | AuthenticationException, AuthenticationException
  | PasswordRequiredException, PasswordRequiredException
  | RequestException, RequestException
  | RequestsJSONDecodeError, RequestsJSONDecodeError => true
  | _, _ => false
  end.

(** Direct base classes. *)
Definition bases (c : exn_class) : list exn_class :=
  match c with
  | Exception => []
  | OSError | ValueError | AttributeError | TypeError | SSHException =>
      [Exception]
  | FileNotFoundError | RequestException => [OSError]
  | UnicodeDecodeError | JSONDecodeError => [ValueError]
  | AuthenticationException => [SSHException]
  | PasswordRequiredException => [AuthenticationException]
  | RequestsJSONDecodeError => [RequestException; JSONDecodeError]
  end.

Fixpoint issubclass_upto (depth : nat) (c target : exn_class) : bool :=
  exn_class_eqb c target ||
  match depth with
  | O => false
  | S d => existsb (fun b => issubclass_upto d b target) (bases c)
  end.

(** The hierarchy above has height four. *)
Definition issubclass : exn_class -> exn_class -> bool := issubclass_upto 4.

Record exn := mk_exn { exn_cls : exn_class; exn_msg : string }.

(** [isinstance(e, cls)], the test an [except cls:] clause performs. *)
Definition isinstance (e : exn) (c : exn_class) : bool :=
  issubclass (exn_cls e) c.

(** [str(e)] *)
Definition str_exn (e : exn) : string := exn_msg e.

(** ** Strings *)

(** [str(n)] for an [int]. *)
Definition str_int (n : Z) : string := NilZero.string_of_int (Z.to_int n).

(** [str(b)] for a [bool]. *)
Definition str_bool (b : bool) : string := if b then "True" else "False".

(** Truth value of a [str]. *)
Definition nonempty (s : string) : bool :=
  match s with EmptyString => false | String _ _ => true end.

Definition byte (a : ascii) : N := N_of_ascii a.

Definition between (lo hi n : N) : bool := ((lo <=? n) && (n <=? hi))%N.

(** The code points for which [str.isspace] holds, by the length of
    their UTF-8 encoding. *)
Definition is_space1 (a : ascii) : bool :=
  between 9 13 (byte a) || between 28 32 (byte a).

Definition is_space2 (a b : ascii) : bool :=
  (byte a =? 194)%N && ((byte b =? 133) || (byte b =? 160))%N.

Definition is_space3 (a b c : ascii) : bool :=
  let '(x, y, z) := (byte a, byte b, byte c) in
  ((x =? 225) && (y =? 154) && (z =? 128))%N          (* U+1680 *)
  || ((x =? 226) && (y =? 128)                          (* U+2000..200A, *)
      && (between 128 138 z || (z =? 168) || (z =? 169) (* 2028, 2029,  *)
          || (z =? 175)))%N                             (* 202F         *)
  || ((x =? 226) && (y =? 129) && (z =? 159))%N         (* U+205F *)
  || ((x =? 227) && (y =? 128) && (z =? 128))%N.        (* U+3000 *)

(** Drops leading white space; with [flip] the string is read backwards
    (the bytes of an encoded code point come in reverse order). *)
Fixpoint drop_space (flip : bool) (s : string) {struct s} : string :=
  match s with
  | EmptyString => EmptyString
  | String a r =>
      if is_space1 a then drop_space flip r else
      match r with
      | String b r2 =>
          if (if flip then is_space2 b a else is_space2 a b)
          then drop_space flip r2 else
          match r2 with
          | String c r3 =>
              if (if flip then is_space3 c b a else is_space3 a b c)
              then drop_space flip r3 else s
          | EmptyString => s
          end
      | EmptyString => s
      end
  end.

Definition reverse (s : string) : string :=
  string_of_list_ascii (rev (list_ascii_of_string s)).

(** [s.strip()] *)
Definition strip (s : string) : string :=
  reverse (drop_space true (reverse (drop_space false s))).

Definition digit_val (a : ascii) : option Z :=
  if between 48 57 (byte a) then Some (Z.of_N (byte a - 48)) else None.

(** Decimal digits, single underscores allowed between two digits. *)
Fixpoint digits (acc : Z) (after_digit : bool) (s : string) : option Z :=
  match s with
  | EmptyString => if after_digit then Some acc else None
  | String a r =>
      match digit_val a with
      | Some d => digits (10 * acc + d) true r
      | None =>
          if ((byte a =? 95)%N && after_digit)%bool
          then digits acc false r else None
      end
  end.

(** [int(s)] for a [str] in base ten; [None] stands for [ValueError].
    Digits are the ASCII ones. *)
Definition int (s : string) : option Z :=
  match strip s with
  | String a r =>
      if (byte a =? 43)%N then digits 0 false r
      else if (byte a =? 45)%N then option_map Z.opp (digits 0 false r)
      else digits 0 false (String a r)
  | EmptyString => None
  end.

(** [s[:n]] *)
Definition take (n : nat) (s : string) : string := substring 0 n s.

(** [pat in s] *)
Definition contains (pat s : string) : bool :=
  match index 0 pat s with Some _ => true | None => false end.

(** [s.lower()] on the ASCII letters. *)
Definition lower_char (a : ascii) : ascii :=
  if between 65 90 (byte a) then ascii_of_N (byte a + 32) else a.

Fixpoint lower (s : string) : string :=
  match s with
  | EmptyString => EmptyString
  | String a r => String (lower_char a) (lower r)
  end.

(** [s.replace(pat, "")] for a non-empty [pat]; [skip] bytes of a match
    are still to be dropped. *)
Fixpoint remove_all (pat : string) (skip : nat) (s : string) : string :=
  match s with
  | EmptyString => EmptyString
  | String a r =>
      match skip with
      | S k => remove_all pat k r
      | O =>
          if prefix pat s then remove_all pat (String.length pat - 1) r
          else String a (remove_all pat 0 r)
      end
  end.

(** A line feed, and the double quote. *)
Definition nl : string := String (ascii_of_nat 10) EmptyString.
Definition dq : string := String (ascii_of_nat 34) EmptyString.

(** ** Results of operations that may raise *)

Definition result (A : Type) : Type := (exn + A)%type.

(** Well-formed UTF-8: [need] lists the ranges of the continuation bytes
    still expected for the current code point. *)
Fixpoint utf8_ok (need : list (N * N)) (s : string) : bool :=
  match s with
  | EmptyString => match need with [] => true | _ :: _ => false end
  | String a r =>
      let n := byte a in
      let cont := (128, 191)%N in
      match need with
      | (lo, hi) :: rest => between lo hi n && utf8_ok rest r
      | [] =>
          if (n <? 128)%N then utf8_ok [] r
          else if between 194 223 n then utf8_ok [cont] r
          else if (n =? 224)%N then utf8_ok [(160, 191)%N; cont] r
          else if between 225 236 n || between 238 239 n
               then utf8_ok [cont; cont] r
          else if (n =? 237)%N then utf8_ok [(128, 159)%N; cont] r
          else if (n =? 240)%N then utf8_ok [(144, 191)%N; cont; cont] r
          else if between 241 243 n then utf8_ok [cont; cont; cont] r
          else if (n =? 244)%N then utf8_ok [(128, 143)%N; cont; cont] r
          else false
      end
  end.

(** [b.decode('utf-8')] *)
Definition decode (b : string) : result string :=
  if utf8_ok [] b then inr b
  else inl (mk_exn UnicodeDecodeError
              "'utf-8' codec can't decode bytes: invalid data").

(** ** Decoded JSON documents *)

(** A [float] is kept as its [repr]. *)
Inductive json :=
| JNone
| JBool (b : bool)
| JInt (n : Z)
| JFloat (repr : string)
| JStr (s : string)
| JList (items : list json)
| JDict (items : list (string * json)).

Fixpoint assoc (k : string) (kv : list (string * json)) : option json :=
  match kv with
  | [] => None
  | (k', v) :: rest => if String.eqb k k' then Some v else assoc k rest
  end.

(** [d.get(k, default)]; anything but a [dict] has no [get]. *)
Definition get (d : json) (k : string) (default : json) : result json :=
  match d with
  | JDict kv =>
      inr (match assoc k kv with Some v => v | None => default end)
  | _ => inl (mk_exn AttributeError "object has no attribute 'get'")
  end.

(** Truth value, as tested by [if v:] and [not v]. *)
Definition truthy (v : json) : bool :=
  match v with
  | JNone => false
  | JBool b => b
  | JInt n => negb (n =? 0)%Z
  | JFloat r => negb (String.eqb r "0.0" || String.eqb r "-0.0")
  | JStr s => nonempty s
  | JList l => match l with [] => false | _ :: _ => true end
  | JDict l => match l with [] => false | _ :: _ => true end
  end.

(** [v is True] *)
Definition is_True (v : json) : bool :=
  match v with JBool true => true | _ => false end.

(** [v == s] for a string literal [s] *)
Definition eq_str (v : json) (s : string) : bool :=
  match v with JStr t => String.eqb t s | _ => false end.

End Py.

Import Py.

Arguments isinstance : simpl never.
Arguments strip : simpl never.
Arguments decode : simpl never.
Arguments int : simpl never.
Arguments str_int : simpl never.

(* ================================================================== *)
(** * The outside world *)
(* ================================================================== *)

(** The key classes of paramiko that the server tries. *)
Inductive key_alg := RSAKey | Ed25519Key | ECDSAKey | DSSKey.

Record pkey := mk_pkey { pk_alg : key_alg; pk_path : string }.

Record endpoint := mk_endpoint {
  ep_host : string;
  ep_port : Z;
  ep_user : string
}.

Inductive http_method := GET | PUT | POST | DELETE.

Record http_request := mk_request {
  rq_method : http_method;
  rq_url : string;
  rq_query : list (string * string);
  rq_json : option json;
  rq_timeout : option Z
}.

(** A [requests.Response]: [rs_json] is what [response.json()] yields. *)
Record http_response := mk_response {
  rs_status_code : Z;
  rs_text : string;
  rs_json : result json
}.

(** What one [exec_command] leaves to read: the bytes of both streams
    and the exit status. *)
Record exec_result := mk_exec {
  ex_stdout : string;
  ex_stderr : string;
  ex_status : Z
}.

Inductive signal := SIGTERM | SIGKILL.

(** ** Remote hosts *)

(** What the remote hosts did, as far as the server's own shell snippets
    are concerned. *)
Inductive os_event :=
| Probed (pid : Z) (alive : bool)     (* kill -0 pid *)
| Signalled (sig : signal) (pid : Z)  (* kill pid, kill -9 pid *)
| Slept (seconds : Z)                 (* sleep n *)
| Removed (paths : list string)       (* rm -f paths *)
| Ran (line : string).                (* any other command line *)

(** The operating system interface the snippets rely on.  [H] is the
    state of all remote hosts; every operation names the endpoint whose
    login shell performs it. *)
Class RemoteOS (H : Type) : Type := {
  (** [kill -0 pid] succeeds: the process exists and the connecting user
      may signal it *)
  os_alive : endpoint -> Z -> H -> bool;
  os_signal : endpoint -> signal -> Z -> H -> H;
  os_sleep : endpoint -> Z -> H -> H;
  (** [[ -f path ]] *)
  os_is_file : endpoint -> string -> H -> bool;
  (** output of [tail -n n path] *)
  os_tail : endpoint -> Z -> string -> H -> string;
  (** output of [wc -l path | cut -d' ' -f1] *)
  os_count_lines : endpoint -> string -> H -> string;
  os_remove : endpoint -> list string -> H -> H;
  (** a command line supplied by the caller *)
  os_shell : endpoint -> string -> H -> exec_result * H
}.

(** ** The shell snippets of the monitor and of the terminator *)

(** Interpolated values (process ids, paths, line counts) are single
    shell words. *)
Inductive sh :=
| ShProbe (pid : Z)                 (* kill -0 pid 2>/dev/null *)
| ShKill (sig : signal) (pid : Z)   (* kill pid 2>/dev/null; kill -9 pid 2>/dev/null *)
| ShSleep (seconds : Z)             (* sleep n *)
| ShEcho (s : string)               (* echo 's' *)
| ShIsFile (path : string)          (* [ -f path ] *)
| ShTail (n : Z) (path : string)    (* tail -n n path *)
| ShCountLines (path : string)      (* wc -l path | cut -d' ' -f1 *)
| ShRemove (paths : list string)    (* rm -f paths 2>/dev/null *)
| ShSeq (a b : sh)                  (* a; b *)
| ShAndOr (a b c : sh)              (* a && b || c *)
| ShIf (c t e : sh).                (* if c; then t; else e; fi *)

(** What is handed to [exec_command]. *)
Inductive command :=
| Line (text : string)
| Script (body : sh).

Section Shell.
Context {H : Type} `{RemoteOS H}.

(** Runs a snippet: the new host state, the bytes written to standard
    output, whether the exit status is zero, and what happened. *)
Fixpoint sh_run (ep : endpoint) (c : sh) (h : H)
  : H * string * bool * list os_event :=
  match c with
  | ShProbe pid =>
      let a := os_alive ep pid h in (h, EmptyString, a, [Probed pid a])
  | ShKill sig pid =>
      (os_signal ep sig pid h, EmptyString, os_alive ep pid h,
       [Signalled sig pid])
  | ShSleep n => (os_sleep ep n h, EmptyString, true, [Slept n])
  | ShEcho s => (h, s ++ nl, true, [])
  | ShIsFile p => (h, EmptyString, os_is_file ep p h, [])
  | ShTail n p => (h, os_tail ep n p h, true, [])
  | ShCountLines p => (h, os_count_lines ep p h, true, [])
  | ShRemove ps => (os_remove ep ps h, EmptyString, true, [Removed ps])
  | ShSeq a b =>
      let '(h1, o1, _, e1) := sh_run ep a h in
      let '(h2, o2, k2, e2) := sh_run ep b h1 in
      (h2, o1 ++ o2, k2, (e1 ++ e2)%list)
  | ShAndOr a b c =>
      let '(h1, o1, k1, e1) := sh_run ep a h in
      if k1 then
        let '(h2, o2, k2, e2) := sh_run ep b h1 in
        if k2 then (h2, o1 ++ o2, true, (e1 ++ e2)%list)
        else
          let '(h3, o3, k3, e3) := sh_run ep c h2 in
          (h3, o1 ++ o2 ++ o3, k3, (e1 ++ e2 ++ e3)%list)
      else
        let '(h3, o3, k3, e3) := sh_run ep c h1 in
        (h3, o1 ++ o3, k3, (e1 ++ e3)%list)
  | ShIf c t e =>
      let '(h1, o1, k1, e1) := sh_run ep c h in
      let '(h2, o2, k2, e2) := sh_run ep (if k1 then t else e) h1 in
      (h2, o1 ++ o2, k2, (e1 ++ e2)%list)
  end.

(** The remote side of [exec_command].  The snippets send the error
    output of [kill] and [rm] to [/dev/null], and the server never reads
    the error stream of a snippet. *)
Definition remote_exec (ep : endpoint) (cmd : command) (h : H)
  : exec_result * H * list os_event :=
  match cmd with
  | Line text =>
      let '(r, h') := os_shell ep text h in (r, h', [Ran text])
  | Script body =>
      let '(h', o, k, evs) := sh_run ep body h in
      (mk_exec o EmptyString (if k then 0 else 1), h', evs)
  end.

End Shell.

(** ** Effects, as recorded in the trace *)

Inductive event :=
| EvNewClient (id : nat)                      (* VastAIClient() *)
| EvSessionRequest (rq : http_request)        (* session.request(...) *)
| EvSessionGet (url : string) (timeout : option Z)   (* session.get(url) *)
| EvLoadKey (alg : key_alg) (path : string)   (* X.from_private_key_file *)
| EvConnect (ep : endpoint) (timeout : option Z)     (* client.connect *)
| EvExec (ep : endpoint) (cmd : command) (timeout : option Z)
                                              (* client.exec_command *)
| EvRemote (e : os_event)
| EvClose                                     (* client.close() *)
| EvSleep (milliseconds : Z).                 (* time.sleep *)

(** ** What the server reads from its environment *)

(** The blocks of the source that only lay out a decoded response as
    text.  They perform no effect; they may raise (a format code applied
    to a value of the wrong type, [get] on something that is no [dict]). *)
Inductive view :=
| UserInfo | Instances | Offers (limit : Z) | Volumes (limit : Z)
| InstanceDetails (instance_id : string) | Templates.

Inductive search := SearchOffers | SearchVolumes.

Record World := {
  (** module constants, read from the process environment at import *)
  SSH_KEY_FILE : string;
  SSH_KEY_PUBLIC_FILE : string;
  USER_NAME : string;
  (** [os.getenv("VAST_API_KEY")] *)
  getenv_VAST_API_KEY : option string;
  (** local file system: [os.path.exists], [open(path).read()] *)
  path_exists : string -> bool;
  read_text : string -> result string;
  (** paramiko: [X.from_private_key_file(path)] for each key class *)
  parse_private_key : key_alg -> string -> result pkey;
  (** network: the n-th consultation of the environment *)
  connect_fault : nat -> endpoint -> pkey -> option exn;
  channel_fault : nat -> option exn;
  http : nat -> http_request -> result http_response;
  latency : nat -> N;
  (** [str(uuid.uuid4())], [time.strftime("%Y%m%d-%H%M%S")] *)
  uuid4 : nat -> string;
  strftime : nat -> string;
  (** [str(v)] of a decoded JSON value, and [f"{ms / 1000:.1f}"] *)
  str_json : json -> string;
  format_1f : Z -> string;
  (** layout of responses, and the request bodies of the two searches
      (query, limit, order) *)
  render : view -> json -> result string;
  search_body : search -> string -> Z -> string -> result json
}.

(** ** Program state *)

Module MCPRules.
Record t := mk {
  auto_attach_ssh_on_create : bool;
  auto_label_instances : bool;
  default_label_prefix : string;
  wait_for_instance_ready : bool;
  ready_timeout_seconds : Z
}.
End MCPRules.

Record VastAIClient := mk_client {
  vc_id : nat;                              (* object identity *)
  api_key : option string;
  server_url : string;
  session_headers : list (string * string)
}.

Definition DEFAULT_SERVER_URL : string := "https://console.vast.ai".

Record State (H : Type) := mk_state {
  st_vast_client : option VastAIClient;     (* global _vast_client *)
  st_mcp_rules : MCPRules.t;                (* global mcp_rules *)
  st_now : Z;                               (* clock, in milliseconds *)
  st_tick : nat;                            (* consultations so far *)
  st_remote : H;
  st_trace : list event                     (* oldest first *)
}.

Arguments mk_state {H}.

(* ================================================================== *)
(** * The monad of server code *)
(* ================================================================== *)

Inductive outcome (A : Type) :=
| Ok (a : A)
| Raise (e : exn)
| OutOfFuel.

Arguments Ok {A}.
Arguments Raise {A}.
Arguments OutOfFuel {A}.

Section Monad.
Context {H : Type}.

Definition M (A : Type) : Type := State H -> outcome A * State H.

Definition ret {A} (a : A) : M A := fun s => (Ok a, s).

Definition bind {A B} (m : M A) (k : A -> M B) : M B :=
  fun s =>
    match m s with
    | (Ok a, s') => k a s'
    | (Raise e, s') => (Raise e, s')
    | (OutOfFuel, s') => (OutOfFuel, s')
    end.

Definition raise {A} (e : exn) : M A := fun s => (Raise e, s).

Definition out_of_fuel {A} : M A := fun s => (OutOfFuel, s).

Definition lift {A} (r : result A) : M A :=
  match r with inl e => raise e | inr a => ret a end.

(** [try: m  except cls as e: h e]; the first clause whose class the
    exception is an instance of handles it. *)
Fixpoint select {A} (e : exn) (clauses : list (exn_class * (exn -> M A)))
  : M A :=
  match clauses with
  | [] => raise e
  | (cls, h) :: rest => if isinstance e cls then h e else select e rest
  end.

Definition try_clauses {A} (m : M A)
  (clauses : list (exn_class * (exn -> M A))) : M A :=
  fun s =>
    match m s with
    | (Raise e, s') => select e clauses s'
    | r => r
    end.

(** [try: m  except Exception as e: h e], and the bare [except:] *)
Definition try_except {A} (m : M A) (h : exn -> M A) : M A :=
  try_clauses m [(Exception, h)].

(** [try: m  finally: fin] *)
Definition try_finally {A} (m : M A) (fin : M unit) : M A :=
  fun s =>
    match m s with
    | (OutOfFuel, s') => (OutOfFuel, s')
    | (r, s') =>
        match fin s' with
        | (Ok _, s'') => (r, s'')
        | (Raise e, s'') => (Raise e, s'')
        | (OutOfFuel, s'') => (OutOfFuel, s'')
        end
    end.

End Monad.

Arguments M : clear implicits.

Declare Scope py_scope.
Delimit Scope py_scope with py.
Notation "x <- m ;; k" := (bind m (fun x => k))
  (at level 61, m at next level, right associativity) : py_scope.
Notation "m ;; k" := (bind m (fun _ => k))
  (at level 61, right associativity) : py_scope.
Local Open Scope py_scope.

(* ================================================================== *)
(** * The server *)
(* ================================================================== *)

Section Server.
Context {H : Type} `{RemoteOS H}.
Variable w : World.

Local Abbreviation IO := (M H).

(** ** Primitive effects *)

Definition emit (evs : list event) : IO unit :=
  fun s : State H =>
    (Ok tt, mk_state (st_vast_client s) (st_mcp_rules s) (st_now s)
              (st_tick s) (st_remote s) (st_trace s ++ evs)%list).

(** Asks the environment for its next answer, which takes some time. *)
Definition consult : IO nat :=
  fun s : State H =>
    (Ok (st_tick s),
     mk_state (st_vast_client s) (st_mcp_rules s)
       (st_now s + Z.of_N (latency w (st_tick s))) (S (st_tick s))
       (st_remote s) (st_trace s)).

(** [time.time()], in milliseconds *)
Definition time_time : IO Z := fun s : State H => (Ok (st_now s), s).

(** [time.sleep(ms / 1000)] *)
Definition time_sleep (ms : Z) : IO unit :=
  fun s : State H =>
    (Ok tt, mk_state (st_vast_client s) (st_mcp_rules s)
              (st_now s + Z.max 0 ms) (st_tick s) (st_remote s)
              (st_trace s ++ [EvSleep ms])%list).

Definition time_strftime : IO string :=
  n <- consult;; ret (strftime w n).

Definition uuid_uuid4 : IO string :=
  n <- consult;; ret (uuid4 w n).

Definition os_path_exists (path : string) : IO bool :=
  ret (path_exists w path).

Definition open_read (path : string) : IO string :=
  lift (read_text w path).

Definition from_private_key_file (alg : key_alg) (path : string) : IO pkey :=
  emit [EvLoadKey alg path];; lift (parse_private_key w alg path).

(** [client.connect(hostname, port, username, pkey, timeout)] *)
Definition connect (ep : endpoint) (key : pkey) (timeout : option Z)
  : IO unit :=
  n <- consult;;
  emit [EvConnect ep timeout];;
  match connect_fault w n ep key with
  | Some e => raise e
  | None => ret tt
  end.

(** The remote shell runs a command. *)
Definition remote_run (ep : endpoint) (cmd : command) : IO exec_result :=
  fun s : State H =>
    let '(r, h', evs) := remote_exec ep cmd (st_remote s) in
    (Ok r, mk_state (st_vast_client s) (st_mcp_rules s) (st_now s)
             (st_tick s) h' (st_trace s ++ map EvRemote evs)%list).

(** [client.exec_command(command, timeout)]: unless the channel fails,
    the remote shell runs the command. *)
Definition exec_command (ep : endpoint) (cmd : command)
    (timeout : option Z) : IO exec_result :=
  n <- consult;;
  emit [EvExec ep cmd timeout];;
  match channel_fault w n with
  | Some e => raise e
  | None => remote_run ep cmd
  end.

(** [stream.read().decode('utf-8').strip()] *)
Definition read_decode_strip (bytes : string) : IO string :=
  n <- consult;;
  match channel_fault w n with
  | Some e => raise e
  | None => text <- lift (decode bytes);; ret (strip text)
  end.

(** [client.close()] *)
Definition close : IO unit := emit [EvClose].

(** [session.request(method, url, json=json_data, timeout=timeout)] *)
Definition session_request (rq : http_request) : IO http_response :=
  n <- consult;;
  emit [EvSessionRequest rq];;
  lift (http w n rq).

(** [session.get(url)] *)
Definition session_get (url : string) : IO http_response :=
  n <- consult;;
  emit [EvSessionGet url None];;
  lift (http w n (mk_request GET url [] None None)).

(** [str(v)]; only floats and containers are left to the world. *)
Definition py_str (v : json) : string :=
  match v with
  | JNone => "None"
  | JBool b => str_bool b
  | JInt n => str_int n
  | JStr s => s
  | _ => str_json w v
  end.

(** ** class VastAIClient *)

Definition _load_api_key : option string :=
  match getenv_VAST_API_KEY w with
  | Some k => if nonempty k then Some k else None
  | None => None
  end.

(** [VastAIClient()]: both arguments default to [None]. *)
Definition VastAIClient_init : IO VastAIClient :=
  id <- consult;;
  emit [EvNewClient id];;
  let key := _load_api_key in
  ret (mk_client id key DEFAULT_SERVER_URL
         match key with
         | Some k => [("Authorization", "Bearer " ++ k);
                      ("Accept", "application/json");
                      ("Content-Type", "application/json")]
         | None => []
         end).

(** The query parameters stay apart from the URL. *)
Definition _build_url (self : VastAIClient) (endpoint : string) : string :=
  server_url self ++ "/api/v0" ++ endpoint.

Definition _make_request (self : VastAIClient) (method : http_method)
    (endpoint : string) (query_params : list (string * string))
    (json_data : option json) : IO json :=
  if negb (match api_key self with Some k => nonempty k | None => false end)
  then
    raise (mk_exn Exception "No API key configured. Set VAST_API_KEY environment variable or use 'vastai set api-key'")
  else
      let url := _build_url self endpoint in
      try_clauses
        (response <- session_request
                       (mk_request method url query_params json_data
                          (Some 30));;
         let code := rs_status_code response in
         (* response.raise_for_status() *)
         if ((400 <=? code) && (code <? 600))%Z then
           raise (mk_exn RequestException
                    (str_int code ++ " Error for url: " ++ url))
         else if (code =? 200)%Z then lift (rs_json response)
         else
           raise (mk_exn Exception
                    ("API request failed with status " ++ str_int code
                     ++ ": " ++ rs_text response)))
        [(RequestException, fun e =>
            raise (mk_exn Exception
                     ("Failed to connect to vast.ai API: " ++ str_exn e)));
         (JSONDecodeError, fun e =>
            raise (mk_exn Exception
                     ("Invalid JSON response from vast.ai API: "
                      ++ str_exn e)))].

(** ** The global client *)

Definition set_vast_client (c : VastAIClient) : IO unit :=
  fun s : State H =>
    (Ok tt, mk_state (Some c) (st_mcp_rules s) (st_now s) (st_tick s)
              (st_remote s) (st_trace s)).

(** An instance of [VastAIClient] is always true, so [not _vast_client]
    holds exactly when the global is still [None]. *)
Definition get_vast_client : IO VastAIClient :=
  fun s : State H =>
    match st_vast_client s with
    | None => (c <- VastAIClient_init;; set_vast_client c;; ret c) s
    | Some c => ret c s
    end.

(** ** wait_for_instance_ready *)

(** One turn of the [while] loop: [Some report] when the body returns,
    [None] when it reaches the end of the loop body. *)
Definition poll_instance (instance_id : json) (start_time : Z)
  : IO (option string) :=
  try_except
    (client <- get_vast_client;;
     response <- _make_request client GET
                   ("/instances/" ++ py_str instance_id ++ "/")
                   [("owner", "me")] None;;
     instance <- lift (get response "instances" (JDict []));;
     status <- lift (get instance "actual_status" (JStr "unknown"));;
     if eq_str status "running" then
       t <- time_time;;
       let elapsed := t - start_time in
       ret (Some ("✅ Instance " ++ py_str instance_id
                  ++ " is ready! (took " ++ format_1f w elapsed
                  ++ " seconds)"))
     else if eq_str status "failed" || eq_str status "exited" then
       ret (Some ("❌ Instance " ++ py_str instance_id
                  ++ " failed to start (status: " ++ py_str status ++ ")"))
     else
       time_sleep 5000;; ret None)
    (fun _ => time_sleep 5000;; ret None).

Definition timed_out (instance_id : json) : string :=
  "⏰ Timeout error. Now destroy instance " ++ py_str instance_id
  ++ " and recreate similar instance again.".

(** [while time.time() - start_time < timeout_seconds: ...]; [fuel]
    bounds the number of turns. *)
Fixpoint wait_loop (fuel : nat) (instance_id : json) (timeout_seconds : Z)
    (start_time : Z) : IO string :=
  t <- time_time;;
  if (t - start_time <? 1000 * timeout_seconds)%Z then
    match fuel with
    | O => out_of_fuel
    | S fuel' =>
        r <- poll_instance instance_id start_time;;
        match r with
        | Some report => ret report
        | None => wait_loop fuel' instance_id timeout_seconds start_time
        end
    end
  else ret (timed_out instance_id).

Definition wait_for_instance_ready (fuel : nat) (instance_id : json)
    (timeout_seconds : Z) : IO string :=
  start_time <- time_time;;
  wait_loop fuel instance_id timeout_seconds start_time.

Definition get_instance_ssh_info (instance_id : json) : IO (json * json) :=
  client <- get_vast_client;;
  response <- _make_request client GET
                ("/instances/" ++ py_str instance_id ++ "/")
                [("owner", "me")] None;;
  instance <- lift (get response "instances" (JDict []));;
  ssh_host <- lift (get instance "ssh_host" JNone);;
  ssh_port <- lift (get instance "ssh_port" JNone);;
  ret (ssh_host, ssh_port).

(** ** Loading the private key *)

Inductive key_load :=
| KeyLoaded (private_key : pkey)
| KeyEncrypted
| KeyUnusable (key_error : exn).

(** The three nested [try] blocks, each closed by a bare [except:],
    that all four callers share; on failure the error of the first
    attempt is reported. *)
Definition other_key_types (key_error : exn) : IO (exn + pkey) :=
  try_except
    (k <- from_private_key_file Ed25519Key (SSH_KEY_FILE w);; ret (inr k))
    (fun _ =>
       try_except
         (k <- from_private_key_file ECDSAKey (SSH_KEY_FILE w);;
          ret (inr k))
         (fun _ =>
            try_except
              (k <- from_private_key_file DSSKey (SSH_KEY_FILE w);;
               ret (inr k))
              (fun _ => ret (inl key_error)))).

(** As in [_execute_ssh_command] and [ssh_execute_background_command]:
    the RSA attempt has a clause for [PasswordRequiredException]. *)
Definition load_private_key : IO key_load :=
  try_clauses
    (k <- from_private_key_file RSAKey (SSH_KEY_FILE w);;
     ret (KeyLoaded k))
    [(PasswordRequiredException, fun _ => ret KeyEncrypted);
     (Exception, fun key_error =>
        r <- other_key_types key_error;;
        ret match r with
            | inl e => KeyUnusable e
            | inr k => KeyLoaded k
            end)].

(** As in [ssh_check_background_task] and [ssh_kill_background_task]:
    the RSA attempt has the clause [except Exception] only. *)
Definition load_private_key_any : IO (exn + pkey) :=
  try_except
    (k <- from_private_key_file RSAKey (SSH_KEY_FILE w);; ret (inr k))
    other_key_types.

(** ** _execute_ssh_command *)

(** The dictionary returned by [_execute_ssh_command]. *)
Record ssh_result := mk_ssh_result {
  success : bool;
  stdout : string;
  stderr : string;
  exit_status : Z;
  error : option string
}.

Definition failed (message : string) : ssh_result :=
  mk_ssh_result false EmptyString EmptyString (-1) (Some message).

(** [connect] needs a host name and a port number.  The tools receive
    them typed; [prepare_instance] passes on whatever the API sent. *)
Definition endpoint_of (remote_host : json) (remote_port : json)
    (remote_user : string) : result endpoint :=
  match remote_host, remote_port with
  | JStr host, JInt port => inr (mk_endpoint host port remote_user)
  | _, _ => inl (mk_exn TypeError "connect: bad hostname or port")
  end.

Definition _execute_ssh_command (remote_host : json) (remote_user : string)
    (remote_port : json) (command : string) : IO ssh_result :=
  (* client = paramiko.SSHClient() *)
  try_finally
    (try_clauses
       (found <- os_path_exists (SSH_KEY_FILE w);;
        if negb found then
          ret (failed ("Private key file not found at: " ++ SSH_KEY_FILE w))
        else
          loaded <- load_private_key;;
          match loaded with
          | KeyEncrypted =>
              ret (failed ("Private key at " ++ SSH_KEY_FILE w
                           ++ " is encrypted with a passphrase"))
          | KeyUnusable key_error =>
              ret (failed ("Could not load private key from "
                           ++ SSH_KEY_FILE w ++ ": " ++ str_exn key_error))
          | KeyLoaded private_key =>
              ep <- lift (endpoint_of remote_host remote_port remote_user);;
              connect ep private_key (Some 30);;
              r <- exec_command ep (Line command) None;;
              stdout_output <- read_decode_strip (ex_stdout r);;
              stderr_output <- read_decode_strip (ex_stderr r);;
              let exit_status := ex_status r in
              ret (mk_ssh_result (exit_status =? 0)%Z stdout_output
                     stderr_output exit_status None)
          end)
       [(FileNotFoundError, fun _ =>
           ret (failed ("Private key file not found at: "
                        ++ SSH_KEY_FILE w)));
        (AuthenticationException, fun _ =>
           ret (failed ("Authentication failed for " ++ remote_user ++ "@"
                        ++ py_str remote_host ++ ":"
                        ++ py_str remote_port)));
        (SSHException, fun e =>
           ret (failed ("SSH error occurred: " ++ str_exn e)));
        (Exception, fun e =>
           ret (failed ("Unexpected error occurred: " ++ str_exn e)))])
    close.

(** ** _prepare_instance *)

Definition prepare_commands (user_name : string) : list string :=
  [ "apt update && apt upgrade -y";
    "useradd -m --shell /bin/bash " ++ user_name;
    "usermod -aG sudo " ++ user_name;
    "mkdir -p /home/" ++ user_name ++ "/.ssh";
    "mkdir -p /home/" ++ user_name ++ "/.bash_profile";
    "cp ~/.ssh/authorized_keys /home/" ++ user_name
      ++ "/.ssh/authorized_keys";
    "chown -R " ++ user_name ++ ":" ++ user_name ++ " /home/" ++ user_name
      ++ "/.ssh";
    "bash -c 'echo " ++ dq ++ "%sudo ALL=(ALL) NOPASSWD: ALL" ++ dq
      ++ " > /etc/sudoers.d/90-nopasswd-sudo'";
    "chmod 0440 /etc/sudoers.d/90-nopasswd-sudo" ].

(** [l.append(x)] *)
Definition append {A} (l : list A) (x : A) : list A := (l ++ [x])%list.

Definition str_opt (o : option string) : string :=
  match o with Some s => s | None => "None" end.

(** [for cmd in commands: ...] *)
Fixpoint prepare_steps (host port : json) (commands : list string)
    (results : list string) : IO (list string) :=
  match commands with
  | [] => ret results
  | cmd :: rest =>
      result <- _execute_ssh_command host "root" port cmd;;
      if negb (success result) then
        raise (mk_exn Exception
                 ("❌ Failed to prepare instance at step: " ++ cmd ++ nl
                  ++ "Error: " ++ str_opt (error result) ++ nl
                  ++ "STDOUT: " ++ stdout result ++ nl
                  ++ "STDERR: " ++ stderr result))
      else
        prepare_steps host port rest
          (append results ("✅ " ++ cmd ++ ": " ++ stdout result))
  end.

Definition _prepare_instance (host port : json) (user_name : string)
  : IO string :=
  results <- prepare_steps host port (prepare_commands user_name) [];;
  let results :=
    append results ("🔒 Now you can connect: ssh -i " ++ SSH_KEY_FILE w
                    ++ " -p " ++ py_str port ++ " " ++ user_name ++ "@"
                    ++ py_str host) in
  ret ("🎉 Instance prepared successfully for user '" ++ user_name ++ "'!"
       ++ nl ++ nl ++ String.concat nl results).

(** ** Tool: ssh_execute_command *)

Definition ssh_execute_command (remote_host remote_user : string)
    (remote_port : Z) (command : string) : IO string :=
  result_data <- _execute_ssh_command (JStr remote_host) remote_user
                   (JInt remote_port) command;;
  let result :=
    "SSH Command Execution on " ++ remote_host ++ ":" ++ str_int remote_port
    ++ nl ++ "Command: " ++ command ++ nl
    ++ "Exit Status: " ++ str_int (exit_status result_data) ++ nl ++ nl in
  let result :=
    if nonempty (stdout result_data)
    then result ++ "--- STDOUT ---" ++ nl ++ stdout result_data ++ nl ++ nl
    else result in
  let result :=
    if nonempty (stderr result_data)
    then result ++ "--- STDERR ---" ++ nl ++ stderr result_data ++ nl ++ nl
    else result in
  ret (if success result_data
       then result ++ "✅ Command executed successfully"
       else match error result_data with
            | Some e =>
                if nonempty e then result ++ "❌ Command failed: " ++ e
                else result ++ "❌ Command failed"
            | None => result ++ "❌ Command failed"
            end).

(** ** Tool: ssh_execute_background_command *)

(** The points at which the tool returns. *)
Inductive launch_reply :=
| LaunchKeyMissing
| LaunchKeyEncrypted
| LaunchKeyUnusable (key_error : exn)
| LaunchError (stderr_output : string) (exit_status : Z)
| LaunchPidUnparsed (stdout_output : string)
| LaunchStarted (task_id : string) (process_id : Z)
    (log_file pid_file : string)
| LaunchException (e : exn).

Definition bg_command (pid_file log_file command : string) : string :=
  nl ++ "nohup bash -c '" ++ nl
  ++ "echo $$ > " ++ pid_file ++ nl
  ++ command ++ nl
  ++ "' > " ++ log_file ++ " 2>&1 &" ++ nl
  ++ "sleep 0.1" ++ nl
  ++ "if [ -f " ++ pid_file ++ " ]; then" ++ nl
  ++ "    cat " ++ pid_file ++ nl
  ++ "else" ++ nl
  ++ "    echo " ++ dq ++ "Failed to start background task" ++ dq ++ nl
  ++ "fi" ++ nl.

(** The tool once the task identifier is chosen. *)
Definition launch_task (task_id : string) (remote_host remote_user : string)
    (remote_port : Z) (command : string) : IO launch_reply :=
  let log_file := "/tmp/ssh_task_" ++ task_id ++ ".log" in
  let pid_file := "/tmp/ssh_task_" ++ task_id ++ ".pid" in
  (* client = paramiko.SSHClient() *)
  try_finally
    (try_except
       (found <- os_path_exists (SSH_KEY_FILE w);;
        if negb found then ret LaunchKeyMissing
        else
          loaded <- load_private_key;;
          match loaded with
          | KeyEncrypted => ret LaunchKeyEncrypted
          | KeyUnusable key_error => ret (LaunchKeyUnusable key_error)
          | KeyLoaded private_key =>
              let ep := mk_endpoint remote_host remote_port remote_user in
              connect ep private_key (Some 30);;
              r <- exec_command ep
                     (Line (bg_command pid_file log_file command)) None;;
              stdout_output <- read_decode_strip (ex_stdout r);;
              stderr_output <- read_decode_strip (ex_stderr r);;
              let exit_status := ex_status r in
              if nonempty stderr_output || negb (exit_status =? 0)%Z then
                ret (LaunchError stderr_output exit_status)
              else
                match int stdout_output with
                | None => ret (LaunchPidUnparsed stdout_output)
                | Some process_id =>
                    ret (LaunchStarted task_id process_id log_file pid_file)
                end
          end)
       (fun e => ret (LaunchException e)))
    close.

Definition launch (remote_host remote_user : string) (remote_port : Z)
    (command : string) (task_name : option string) : IO launch_reply :=
  u <- uuid_uuid4;;
  let task_id := take 8 u in
  let task_id :=
    match task_name with
    | Some name => if nonempty name then name ++ "_" ++ task_id else task_id
    | None => task_id
    end in
  launch_task task_id remote_host remote_user remote_port command.

Definition show_launch (remote_host remote_user : string) (remote_port : Z)
    (command : string) (r : launch_reply) : string :=
  match r with
  | LaunchKeyMissing =>
      "Error: Private key file not found at: " ++ SSH_KEY_FILE w
  | LaunchKeyEncrypted =>
      "Error: Private key at " ++ SSH_KEY_FILE w
      ++ " is encrypted with a passphrase."
  | LaunchKeyUnusable key_error =>
      "Error: Could not load private key from " ++ SSH_KEY_FILE w ++ ": "
      ++ str_exn key_error
  | LaunchError stderr_output exit_status =>
      "Error starting background task:" ++ nl ++ "STDERR: "
      ++ stderr_output ++ nl ++ "Exit Status: " ++ str_int exit_status
  | LaunchPidUnparsed stdout_output =>
      "Failed to parse process ID: " ++ stdout_output
  | LaunchStarted task_id process_id log_file pid_file =>
      "🚀 Background Task Started Successfully!" ++ nl ++ nl
      ++ "Task ID: " ++ task_id ++ nl
      ++ "Process ID: " ++ str_int process_id ++ nl
      ++ "Log File: " ++ log_file ++ nl
      ++ "PID File: " ++ pid_file ++ nl
      ++ "Command: " ++ command ++ nl
      ++ "Host: " ++ remote_host ++ ":" ++ str_int remote_port ++ nl ++ nl
      ++ "💡 Use 'ssh_check_background_task' to monitor progress" ++ nl
      ++ "💡 Use 'ssh_kill_background_task' to stop the task" ++ nl ++ nl
      ++ "📝 Connection Details (save for monitoring):" ++ nl
      ++ "   remote_host: " ++ remote_host ++ nl
      ++ "   remote_user: " ++ remote_user ++ nl
      ++ "   remote_port: " ++ str_int remote_port ++ nl
      ++ "   task_id: " ++ task_id ++ nl
      ++ "   process_id: " ++ str_int process_id
  | LaunchException e => "Error starting background task: " ++ str_exn e
  end.

Definition ssh_execute_background_command (remote_host remote_user : string)
    (remote_port : Z) (command : string) (task_name : option string)
  : IO string :=
  r <- launch remote_host remote_user remote_port command task_name;;
  ret (show_launch remote_host remote_user remote_port command r).

(** ** Tool: ssh_check_background_task *)

Inductive check_reply :=
| CheckKeyMissing
| CheckKeyUnusable (key_error : exn)
| CheckReport (process_status log_content log_lines : string)
| CheckException (e : exn).

(** [kill -0 {process_id} 2>/dev/null && echo 'RUNNING' || echo 'STOPPED'] *)
Definition check_process_cmd (process_id : Z) : sh :=
  ShAndOr (ShProbe process_id) (ShEcho "RUNNING") (ShEcho "STOPPED").

(** [if [ -f {log_file} ]; then tail -n {tail_lines} {log_file};
     else echo 'Log file not found'; fi] *)
Definition log_cmd (log_file : string) (tail_lines : Z) : sh :=
  ShIf (ShIsFile log_file) (ShTail tail_lines log_file)
    (ShEcho "Log file not found").

(** [if [ -f {log_file} ]; then wc -l {log_file} | cut -d' ' -f1;
     else echo '0'; fi] *)
Definition size_cmd (log_file : string) : sh :=
  ShIf (ShIsFile log_file) (ShCountLines log_file) (ShEcho "0").

Definition check (remote_host remote_user : string) (remote_port : Z)
    (task_id : string) (process_id : Z) (tail_lines : Z) : IO check_reply :=
  let log_file := "/tmp/ssh_task_" ++ task_id ++ ".log" in
  let pid_file := "/tmp/ssh_task_" ++ task_id ++ ".pid" in
  (* client = paramiko.SSHClient() *)
  try_finally
    (try_except
       (found <- os_path_exists (SSH_KEY_FILE w);;
        if negb found then ret CheckKeyMissing
        else
          loaded <- load_private_key_any;;
          match loaded with
          | inl key_error => ret (CheckKeyUnusable key_error)
          | inr private_key =>
              let ep := mk_endpoint remote_host remote_port remote_user in
              connect ep private_key (Some 30);;
              r <- exec_command ep (Script (check_process_cmd process_id))
                     None;;
              process_status <- read_decode_strip (ex_stdout r);;
              r <- exec_command ep (Script (log_cmd log_file tail_lines))
                     None;;
              log_content <- read_decode_strip (ex_stdout r);;
              r <- exec_command ep (Script (size_cmd log_file)) None;;
              log_lines <- read_decode_strip (ex_stdout r);;
              ret (CheckReport process_status log_content log_lines)
          end)
       (fun e => ret (CheckException e)))
    close.

Fixpoint repeat_str (s : string) (n : nat) : string :=
  match n with O => EmptyString | S n' => s ++ repeat_str s n' end.

Definition show_check (remote_host : string) (remote_port : Z)
    (task_id : string) (process_id : Z) (tail_lines : Z) (r : check_reply)
  : string :=
  let log_file := "/tmp/ssh_task_" ++ task_id ++ ".log" in
  let pid_file := "/tmp/ssh_task_" ++ task_id ++ ".pid" in
  match r with
  | CheckKeyMissing =>
      "Error: Private key file not found at: " ++ SSH_KEY_FILE w
  | CheckKeyUnusable key_error =>
      "Error loading private key: " ++ str_exn key_error
  | CheckReport process_status log_content log_lines =>
      let running := String.eqb process_status "RUNNING" in
      "📊 Background Task Status Report" ++ nl ++ nl
      ++ "Task ID: " ++ task_id ++ nl
      ++ "Process ID: " ++ str_int process_id ++ nl
      ++ "Status: "
      ++ (if running then "🟢 RUNNING" else "🔴 STOPPED/COMPLETED") ++ nl
      ++ "Log Lines: " ++ log_lines ++ nl
      ++ "Host: " ++ remote_host ++ ":" ++ str_int remote_port ++ nl ++ nl
      ++ (if running then "🔄 Task is still running..."
          else "✅ Task has completed or stopped") ++ nl ++ nl
      ++ "📄 Recent Log Output (last " ++ str_int tail_lines ++ " lines):"
      ++ nl ++ repeat_str "=" 50 ++ nl
      ++ log_content
      ++ nl ++ repeat_str "=" 50 ++ nl ++ nl
      ++ (if running
          then "💡 Task is still running. Check again later for updates."
          else "💡 Task completed. Use 'ssh_execute_command' to clean up files if needed:"
               ++ nl ++ "   rm " ++ log_file ++ " " ++ pid_file)
  | CheckException e => "Error checking background task: " ++ str_exn e
  end.

Definition ssh_check_background_task (remote_host remote_user : string)
    (remote_port : Z) (task_id : string) (process_id : Z) (tail_lines : Z)
  : IO string :=
  r <- check remote_host remote_user remote_port task_id process_id
         tail_lines;;
  ret (show_check remote_host remote_port task_id process_id tail_lines r).

(** ** Tool: ssh_kill_background_task *)

Inductive kill_outcome :=
| NotRunning
| Killed (kill_result : string).

Inductive kill_reply :=
| KillKeyMissing
| KillKeyUnusable (key_error : exn)
| KillReport (outcome : kill_outcome) (cleanup_result : string)
| KillException (e : exn).

(** [kill -0 {process_id} 2>/dev/null && echo 'RUNNING'
     || echo 'NOT_RUNNING'] *)
Definition check_cmd (process_id : Z) : sh :=
  ShAndOr (ShProbe process_id) (ShEcho "RUNNING") (ShEcho "NOT_RUNNING").

(** [kill {process_id} 2>/dev/null
     sleep 2
     if kill -0 {process_id} 2>/dev/null; then
         kill -9 {process_id} 2>/dev/null
         echo "FORCE_KILLED"
     else
         echo "TERMINATED"
     fi] *)
Definition kill_cmd (process_id : Z) : sh :=
  ShSeq (ShKill SIGTERM process_id)
    (ShSeq (ShSleep 2)
       (ShIf (ShProbe process_id)
          (ShSeq (ShKill SIGKILL process_id) (ShEcho "FORCE_KILLED"))
          (ShEcho "TERMINATED"))).

(** [rm -f {log_file} {pid_file} 2>/dev/null; echo 'Cleanup attempted'] *)
Definition cleanup_cmd (log_file pid_file : string) : sh :=
  ShSeq (ShRemove [log_file; pid_file]) (ShEcho "Cleanup attempted").

Definition kill (remote_host remote_user : string) (remote_port : Z)
    (task_id : string) (process_id : Z) : IO kill_reply :=
  let log_file := "/tmp/ssh_task_" ++ task_id ++ ".log" in
  let pid_file := "/tmp/ssh_task_" ++ task_id ++ ".pid" in
  (* client = paramiko.SSHClient() *)
  try_finally
    (try_except
       (found <- os_path_exists (SSH_KEY_FILE w);;
        if negb found then ret KillKeyMissing
        else
          loaded <- load_private_key_any;;
          match loaded with
          | inl key_error => ret (KillKeyUnusable key_error)
          | inr private_key =>
              let ep := mk_endpoint remote_host remote_port remote_user in
              connect ep private_key (Some 30);;
              r <- exec_command ep (Script (check_cmd process_id)) None;;
              status <- read_decode_strip (ex_stdout r);;
              outcome <-
                (if String.eqb status "NOT_RUNNING" then ret NotRunning
                 else
                   r <- exec_command ep (Script (kill_cmd process_id))
                          None;;
                   kill_result <- read_decode_strip (ex_stdout r);;
                   ret (Killed kill_result));;
              r <- exec_command ep
                     (Script (cleanup_cmd log_file pid_file)) None;;
              cleanup_result <- read_decode_strip (ex_stdout r);;
              ret (KillReport outcome cleanup_result)
          end)
       (fun e => ret (KillException e)))
    close.

Definition show_kill (task_id : string) (process_id : Z) (r : kill_reply)
  : string :=
  let log_file := "/tmp/ssh_task_" ++ task_id ++ ".log" in
  let pid_file := "/tmp/ssh_task_" ++ task_id ++ ".pid" in
  match r with
  | KillKeyMissing =>
      "Error: Private key file not found at: " ++ SSH_KEY_FILE w
  | KillKeyUnusable key_error =>
      "Error loading private key: " ++ str_exn key_error
  | KillReport outcome cleanup_result =>
      match outcome with
      | NotRunning =>
          "⚠️ Task " ++ task_id ++ " (PID: " ++ str_int process_id
          ++ ") is not running" ++ nl ++ nl
          ++ "The process may have already completed or been killed." ++ nl
      | Killed kill_result =>
          "🛑 Background Task Killed" ++ nl ++ nl
          ++ "Task ID: " ++ task_id ++ nl
          ++ "Process ID: " ++ str_int process_id ++ nl
          ++ "Kill Result: " ++ kill_result ++ nl ++ nl
          ++ (if String.eqb kill_result "TERMINATED"
              then "✅ Process terminated gracefully"
              else if String.eqb kill_result "FORCE_KILLED"
              then "✅ Process force-killed (was unresponsive)"
              else "⚠️ Unexpected result: " ++ kill_result) ++ nl
      end
      ++ nl ++ "🧹 Cleanup: " ++ cleanup_result ++ nl
      ++ "   Removed: " ++ log_file ++ nl
      ++ "   Removed: " ++ pid_file ++ nl
  | KillException e => "Error killing background task: " ++ str_exn e
  end.

Definition ssh_kill_background_task (remote_host remote_user : string)
    (remote_port : Z) (task_id : string) (process_id : Z) : IO string :=
  r <- kill remote_host remote_user remote_port task_id process_id;;
  ret (show_kill task_id process_id r).

(** ** Tool: prepare_instance *)

Definition prepare_instance (instance_id : json) : IO string :=
  try_except
    (hp <- get_instance_ssh_info instance_id;;
     let '(host, port) := hp in
     _prepare_instance host port (USER_NAME w))
    (fun e => ret ("❌ Failed to prepare instance: " ++ str_exn e)).

(** ** Tools that wrap one API request *)

(** show_user_info, show_instances, show_instance, search_templates:
    one request, then layout of the response. *)
Definition show_user_info : IO string :=
  try_except
    (client <- get_vast_client;;
     response <- _make_request client GET "/users/current"
                   [("owner", "me")] None;;
     lift (render w UserInfo response))
    (fun e => ret ("Error getting user info: " ++ str_exn e)).

Definition show_instances (owner : string) : IO string :=
  try_except
    (client <- get_vast_client;;
     response <- _make_request client GET "/instances"
                   [("owner", owner)] None;;
     lift (render w Instances response))
    (fun e => ret ("Error getting instances: " ++ str_exn e)).

Definition show_instance (instance_id : json) : IO string :=
  try_except
    (client <- get_vast_client;;
     response <- _make_request client GET
                   ("/instances/" ++ py_str instance_id ++ "/")
                   [("owner", "me")] None;;
     lift (render w (InstanceDetails (py_str instance_id)) response))
    (fun e => ret ("Error getting instance " ++ py_str instance_id
                   ++ " details: " ++ str_exn e)).

Definition search_templates : IO string :=
  try_except
    (client <- get_vast_client;;
     response <- _make_request client GET "/template/" []
                   (Some (JDict []));;
     lift (render w Templates response))
    (fun e => ret ("Error searching templates: " ++ str_exn e)).

Definition search_offers (query : string) (limit : Z) (order : string)
  : IO string :=
  try_except
    (client <- get_vast_client;;
     request_data <- lift (search_body w SearchOffers query limit order);;
     response <- _make_request client PUT "/search/asks/" []
                   (Some request_data);;
     lift (render w (Offers limit) response))
    (fun e => ret ("Error searching offers: " ++ str_exn e)).

Definition search_volumes (query : string) (limit : Z) : IO string :=
  try_except
    (client <- get_vast_client;;
     request_data <- lift (search_body w SearchVolumes query limit
                             EmptyString);;
     response <- _make_request client POST "/volumes/search/" []
                   (Some request_data);;
     lift (render w (Volumes limit) response))
    (fun e => ret ("Error searching volumes: " ++ str_exn e)).

(** destroy_instance, start_instance, stop_instance, label_instance,
    reboot_instance, recycle_instance differ in the request and in the
    three messages only. *)
Definition instance_update (method : http_method) (endpoint : string)
    (json_data : option json) (done failure trouble : string) : IO string :=
  try_except
    (client <- get_vast_client;;
     response <- _make_request client method endpoint [] json_data;;
     ok <- lift (get response "success" JNone);;
     if is_True ok then ret done
     else
       fallback <- lift (get response "error" (JStr "Unknown error"));;
       error_msg <- lift (get response "msg" fallback);;
       ret (failure ++ py_str error_msg))
    (fun e => ret (trouble ++ str_exn e)).

Definition destroy_instance (instance_id : json) : IO string :=
  let id := py_str instance_id in
  instance_update DELETE ("/instances/" ++ id ++ "/") None
    ("Instance " ++ id ++ " destroyed successfully.")
    ("Failed to destroy instance " ++ id ++ ": ")
    ("Error destroying instance " ++ id ++ ": ").

Definition start_instance (instance_id : json) : IO string :=
  let id := py_str instance_id in
  instance_update PUT ("/instances/" ++ id ++ "/")
    (Some (JDict [("state", JStr "running")]))
    ("Instance " ++ id ++ " started successfully.")
    ("Failed to start instance " ++ id ++ ": ")
    ("Error starting instance " ++ id ++ ": ").

Definition stop_instance (instance_id : json) : IO string :=
  let id := py_str instance_id in
  instance_update PUT ("/instances/" ++ id ++ "/")
    (Some (JDict [("state", JStr "stopped")]))
    ("Instance " ++ id ++ " stopped successfully.")
    ("Failed to stop instance " ++ id ++ ": ")
    ("Error stopping instance " ++ id ++ ": ").

Definition label_instance (instance_id : json) (label : string)
  : IO string :=
  let id := py_str instance_id in
  instance_update PUT ("/instances/" ++ id ++ "/")
    (Some (JDict [("label", JStr label)]))
    ("Label for instance " ++ id ++ " set to '" ++ label ++ "'")
    ("Failed to set label for instance " ++ id ++ ": ")
    ("Error setting label for instance " ++ id ++ ": ").

Definition reboot_instance (instance_id : json) : IO string :=
  let id := py_str instance_id in
  instance_update PUT ("/instances/reboot/" ++ id ++ "/")
    (Some (JDict []))
    ("Instance " ++ id ++ " is being rebooted.")
    ("Failed to reboot instance " ++ id ++ ": ")
    ("Error rebooting instance " ++ id ++ ": ").

Definition recycle_instance (instance_id : json) : IO string :=
  let id := py_str instance_id in
  instance_update PUT ("/instances/recycle/" ++ id ++ "/")
    (Some (JDict []))
    ("Instance " ++ id ++ " is being recycled.")
    ("Failed to recycle instance " ++ id ++ ": ")
    ("Error recycling instance " ++ id ++ ": ").

(** ** Tool: attach_ssh *)

Definition private_key_message : string :=
  "🐴 Woah, hold on there, partner!" ++ nl ++ nl
  ++ "That's a *private* SSH key. You need to give the *public* one. "
  ++ "It usually starts with 'ssh-rsa', is on a single line, has around 200 or so "
  ++ dq ++ "base64" ++ dq
  ++ " characters and ends with some-user@some-where.".

Definition not_a_key_message (ssh_key : string) : string :=
  "Are you sure that's an SSH public key?" ++ nl ++ nl
  ++ "Usually it starts with the stanza 'ssh-(keytype)' where the keytype can be "
  ++ "things such as rsa, ed25519-sk, or dsa. What you passed was:" ++ nl ++ nl
  ++ ssh_key ++ nl ++ nl ++ "And that just doesn't look right.".

Definition get_ssh_key (ssh_key_str : string) : IO string :=
  let ssh_key := strip ssh_key_str in
  is_path <- os_path_exists ssh_key_str;;
  ssh_key <-
    (if is_path then
       try_except (text <- open_read ssh_key_str;; ret (strip text))
         (fun e =>
            raise (mk_exn ValueError
                     ("Failed to read SSH key from file " ++ ssh_key_str
                      ++ ": " ++ str_exn e)))
     else ret ssh_key);;
  if contains "PRIVATE KEY" ssh_key then
    raise (mk_exn ValueError private_key_message)
  else if negb (prefix "ssh" (lower ssh_key)) then
    raise (mk_exn ValueError (not_a_key_message ssh_key))
  else ret ssh_key.

Definition attach_ssh (instance_id : json) : IO string :=
  let id := py_str instance_id in
  try_except
    (client <- get_vast_client;;
     ssh_key <- open_read (SSH_KEY_PUBLIC_FILE w);;
     processed <-
       try_clauses (k <- get_ssh_key ssh_key;; ret (inr k))
         [(ValueError, fun e =>
             ret (inl ("Invalid SSH key: " ++ str_exn e)))];;
     match processed with
     | inl message => ret message
     | inr processed_ssh_key =>
         response <- _make_request client POST
                       ("/instances/" ++ id ++ "/ssh/") []
                       (Some (JDict [("ssh_key", JStr processed_ssh_key)]));;
         ok <- lift (get response "success" JNone);;
         if is_True ok then
           ret ("SSH key successfully attached to instance " ++ id
                ++ ". You can now connect using your private key.")
         else
           fallback <- lift (get response "error" (JStr "Unknown error"));;
           error_msg <- lift (get response "msg" fallback);;
           ret ("Failed to attach SSH key to instance " ++ id ++ ": "
                ++ py_str error_msg)
     end)
    (fun e => ret ("Error attaching SSH key to instance " ++ id ++ ": "
                   ++ str_exn e)).

(** ** Tools that poll a result URL: logs, execute_command *)

(** [client.session.get(result_url)]: the URL is whatever the API sent. *)
Definition session_get_any (result_url : json) : IO http_response :=
  match result_url with
  | JStr url => session_get url
  | _ => raise (mk_exn RequestException "Invalid URL")
  end.

(** [for i in range(n): time.sleep(0.3) ...] *)
Fixpoint poll_logs (n : nat) (id : string) (result_url : json) : IO string :=
  match n with
  | O =>
      ret ("Logs for instance " ++ id
           ++ " are still being prepared. Please try again in a moment.")
  | S n' =>
      time_sleep 300;;
      r <- try_except
             (log_response <- session_get_any result_url;;
              if (rs_status_code log_response =? 200)%Z then
                let logs_text := rs_text log_response in
                if nonempty logs_text then
                  ret (Some ("Logs for instance " ++ id ++ ":" ++ nl ++ nl
                             ++ logs_text))
                else ret (Some ("No logs available for instance " ++ id))
              else ret None)
             (fun _ => ret None);;
      match r with
      | Some text => ret text
      | None => poll_logs n' id result_url
      end
  end.

Definition logs (instance_id : json) (tail filter_text : string)
    (daemon_logs : bool) : IO string :=
  let id := py_str instance_id in
  try_except
    (client <- get_vast_client;;
     let request_data :=
       ((if nonempty filter_text then [("filter", JStr filter_text)] else [])
        ++ (if nonempty tail then [("tail", JStr tail)] else [])
        ++ (if daemon_logs then [("daemon_logs", JStr "true")] else []))%list
     in
     response <- _make_request client PUT
                   ("/instances/request_logs/" ++ id ++ "/") []
                   (Some (JDict request_data));;
     result_url <- lift (get response "result_url" JNone);;
     if negb (truthy result_url) then
       msg <- lift (get response "msg" (JStr "No result URL"));;
       ret ("Failed to request logs for instance " ++ id ++ ": "
            ++ py_str msg)
     else poll_logs 10 id result_url)
    (fun e => ret ("Error getting logs for instance " ++ id ++ ": "
                   ++ str_exn e)).

Fixpoint poll_command (n : nat) (id : string) (response result_url : json)
  : IO string :=
  match n with
  | O =>
      ret ("Command executed on instance " ++ id
           ++ " but results are still being prepared. Please try again in a moment.")
  | S n' =>
      time_sleep 300;;
      r <- try_except
             (result_response <- session_get_any result_url;;
              if (rs_status_code result_response =? 200)%Z then
                let output := rs_text result_response in
                writeable_path <- lift (get response "writeable_path"
                                          (JStr EmptyString));;
                output <-
                  (if truthy writeable_path then
                     match writeable_path with
                     | JStr p => ret (remove_all p 0 output)
                     | _ =>
                         raise (mk_exn TypeError
                                  "replace() argument 1 must be str")
                     end
                   else ret output);;
                ret (Some ("Command executed successfully on instance "
                           ++ id ++ ":" ++ nl ++ nl ++ output))
              else ret None)
             (fun _ => ret None);;
      match r with
      | Some text => ret text
      | None => poll_command n' id response result_url
      end
  end.

Definition execute_command (instance_id : json) (command : string)
  : IO string :=
  let id := py_str instance_id in
  try_except
    (client <- get_vast_client;;
     response <- _make_request client PUT
                   ("/instances/command/" ++ id ++ "/") []
                   (Some (JDict [("command", JStr command)]));;
     ok <- lift (get response "success" JNone);;
     if truthy ok then
       result_url <- lift (get response "result_url" JNone);;
       if negb (truthy result_url) then
         ret ("Command executed but no result URL provided: "
              ++ py_str response)
       else poll_command 30 id response result_url
     else
       ret ("Failed to execute command on instance " ++ id ++ ": "
            ++ py_str response))
    (fun e => ret ("Error executing command on instance " ++ id ++ ": "
                   ++ str_exn e)).

(** ** Tool: configure_mcp_rules *)

Definition get_rules : IO MCPRules.t :=
  fun s : State H => (Ok (st_mcp_rules s), s).

Definition set_rules (r : MCPRules.t) : IO unit :=
  fun s : State H =>
    (Ok tt, mk_state (st_vast_client s) r (st_now s) (st_tick s)
              (st_remote s) (st_trace s)).

Definition configure_mcp_rules (auto_attach_ssh auto_label
    wait_for_ready : option bool) (label_prefix : option string)
  : IO string :=
  let changes : list string := [] in
  r <- get_rules;;
  changes <-
    match auto_attach_ssh with
    | Some b =>
        set_rules (MCPRules.mk b (MCPRules.auto_label_instances r)
                     (MCPRules.default_label_prefix r)
                     (MCPRules.wait_for_instance_ready r)
                     (MCPRules.ready_timeout_seconds r));;
        ret (append changes ("Auto-attach SSH: " ++ str_bool b))
    | None => ret changes
    end;;
  r <- get_rules;;
  changes <-
    match auto_label with
    | Some b =>
        set_rules (MCPRules.mk (MCPRules.auto_attach_ssh_on_create r) b
                     (MCPRules.default_label_prefix r)
                     (MCPRules.wait_for_instance_ready r)
                     (MCPRules.ready_timeout_seconds r));;
        ret (append changes ("Auto-label instances: " ++ str_bool b))
    | None => ret changes
    end;;
  r <- get_rules;;
  changes <-
    match wait_for_ready with
    | Some b =>
        set_rules (MCPRules.mk (MCPRules.auto_attach_ssh_on_create r)
                     (MCPRules.auto_label_instances r)
                     (MCPRules.default_label_prefix r) b
                     (MCPRules.ready_timeout_seconds r));;
        ret (append changes ("Wait for ready: " ++ str_bool b))
    | None => ret changes
    end;;
  r <- get_rules;;
  changes <-
    match label_prefix with
    | Some p =>
        set_rules (MCPRules.mk (MCPRules.auto_attach_ssh_on_create r)
                     (MCPRules.auto_label_instances r) p
                     (MCPRules.wait_for_instance_ready r)
                     (MCPRules.ready_timeout_seconds r));;
        ret (append changes ("Label prefix: " ++ p))
    | None => ret changes
    end;;
  r <- get_rules;;
  let result :=
    match changes with
    | _ :: _ =>
        "⚙️  MCP Rules Configuration Updated:" ++ nl ++ nl
        ++ String.concat nl (map (fun change => "  • " ++ change) changes)
        ++ nl ++ nl ++ "Current Configuration:" ++ nl
    | [] => "⚙️  Current MCP Rules Configuration:" ++ nl ++ nl
    end in
  ret (result
       ++ "  • Auto-attach SSH: "
       ++ str_bool (MCPRules.auto_attach_ssh_on_create r) ++ nl
       ++ "  • Auto-label instances: "
       ++ str_bool (MCPRules.auto_label_instances r) ++ nl
       ++ "  • Label prefix: " ++ MCPRules.default_label_prefix r ++ nl
       ++ "  • Wait for ready: "
       ++ str_bool (MCPRules.wait_for_instance_ready r) ++ nl
       ++ "  • Ready timeout: "
       ++ str_int (MCPRules.ready_timeout_seconds r) ++ "s" ++ nl).

(** ** apply_post_creation_rules and create_instance *)

(** [inl text] is an early [return text]; [inr rule_results] goes on. *)
Definition apply_post_creation_rules (fuel : nat) (instance_id : json)
    (ssh jupyter : bool) (original_label : string) : IO string :=
  let rule_results : list string := [] in
  (* Rule 1: auto-attach the SSH key *)
  r <- get_rules;;
  step <-
    (if MCPRules.auto_attach_ssh_on_create r && (ssh || jupyter) then
       try_except
         (ssh_result <- attach_ssh instance_id;;
          ret (inr (append rule_results
                      ("🔑 Auto SSH Key Attachment:" ++ nl ++ ssh_result))))
         (fun ssh_error =>
            ret (inl ("⚠️  SSH key attachment failed: "
                      ++ str_exn ssh_error
                      ++ ", try again or recreate instance")))
     else ret (inr rule_results));;
  match step with
  | inl text => ret text
  | inr rule_results =>
      (* Rule 2: auto-label *)
      r <- get_rules;;
      rule_results <-
        (if MCPRules.auto_label_instances r && negb (nonempty original_label)
         then
           timestamp <- time_strftime;;
           let auto_label :=
             MCPRules.default_label_prefix r ++ "-" ++ timestamp in
           try_except
             (label_result <- label_instance instance_id auto_label;;
              ret (append rule_results
                     ("🏷️  Auto-labeling: " ++ label_result)))
             (fun label_error =>
                ret (append rule_results
                       ("⚠️  Auto-labeling failed: "
                        ++ str_exn label_error)))
         else ret rule_results);;
      (* Rule 3: wait for readiness *)
      r <- get_rules;;
      step <-
        (if MCPRules.wait_for_instance_ready r then
           try_except
             (ready_result <- wait_for_instance_ready fuel instance_id
                                (MCPRules.ready_timeout_seconds r);;
              ret (inr (append rule_results
                          ("⏰ Instance Readiness Check:" ++ nl
                           ++ ready_result))))
             (fun ready_error =>
                ret (inl ("⚠️ Readiness check failed: "
                          ++ str_exn ready_error)))
         else ret (inr rule_results));;
      match step with
      | inl text => ret text
      | inr rule_results =>
          match rule_results with
          | _ :: _ =>
              ret (nl ++ "📋 MCP Rules Applied:" ++ nl
                   ++ String.concat nl
                        (map (fun result => "  " ++ result) rule_results)
                   ++ nl)
          | [] =>
              ret (nl ++ "📋 No MCP rules applied (all disabled or not applicable)"
                   ++ nl)
          end
      end
  end.

Definition create_instance (fuel : nat) (offer_id : Z) (image : string)
    (disk : json) (ssh jupyter direct : bool) (env : option json)
    (label : string) (bid_price : option json) : IO string :=
  try_except
    (client <- get_vast_client;;
     let runtype :=
       if ssh && jupyter then "ssh_jupyter"
       else if ssh then "ssh"
       else if jupyter then "jupyter"
       else "args" in
     let extra_env :=
       match env with
       | Some e => if truthy e then e else JDict []
       | None => JDict []
       end in
     let request_data :=
       ([("client_id", JStr "me"); ("image", JStr image); ("disk", disk);
         ("ssh", JBool ssh); ("jupyter", JBool jupyter);
         ("direct", JBool direct); ("runtype", JStr runtype);
         ("label", JStr label); ("extra_env", extra_env)]
        ++ match bid_price with
           | Some price => [("price", price)]
           | None => []
           end)%list in
     response <- _make_request client PUT
                   ("/asks/" ++ str_int offer_id ++ "/") []
                   (Some (JDict request_data));;
     ok <- lift (get response "success" JNone);;
     if truthy ok then
       instance_id <- lift (get response "new_contract" JNone);;
       let result :=
         "Instance created successfully!" ++ nl ++ "Instance ID: "
         ++ py_str instance_id ++ nl ++ "Status: Starting up..." ++ nl in
       applied <- apply_post_creation_rules fuel instance_id ssh jupyter
                    label;;
       ret (result ++ applied)
     else
       msg <- lift (get response "msg" (JStr "Unknown error"));;
       ret ("Failed to create instance: " ++ py_str msg))
    (fun e => ret ("Error creating instance: " ++ str_exn e)).

(** ** The tools registered with [@mcp.tool()] *)

Inductive tool_call :=
| Call_show_user_info
| Call_show_instances (owner : string)
| Call_search_offers (query : string) (limit : Z) (order : string)
| Call_create_instance (offer_id : Z) (image : string) (disk : json)
    (ssh jupyter direct : bool) (env : option json) (label : string)
    (bid_price : option json)
| Call_destroy_instance (instance_id : Z)
| Call_start_instance (instance_id : Z)
| Call_stop_instance (instance_id : Z)
| Call_search_volumes (query : string) (limit : Z)
| Call_label_instance (instance_id : Z) (label : string)
| Call_reboot_instance (instance_id : Z)
| Call_recycle_instance (instance_id : Z)
| Call_show_instance (instance_id : Z)
| Call_logs (instance_id : Z) (tail filter_text : string)
    (daemon_logs : bool)
| Call_attach_ssh (instance_id : Z)
| Call_search_templates
| Call_configure_mcp_rules (auto_attach_ssh auto_label
    wait_for_ready : option bool) (label_prefix : option string)
| Call_execute_command (instance_id : Z) (command : string)
| Call_ssh_execute_command (remote_host remote_user : string)
    (remote_port : Z) (command : string)
| Call_ssh_execute_background_command (remote_host remote_user : string)
    (remote_port : Z) (command : string) (task_name : option string)
| Call_ssh_check_background_task (remote_host remote_user : string)
    (remote_port : Z) (task_id : string) (process_id : Z) (tail_lines : Z)
| Call_ssh_kill_background_task (remote_host remote_user : string)
    (remote_port : Z) (task_id : string) (process_id : Z)
| Call_prepare_instance (instance_id : Z).

Definition run_tool (fuel : nat) (call : tool_call) : IO string :=
  match call with
  | Call_show_user_info => show_user_info
  | Call_show_instances owner => show_instances owner
  | Call_search_offers query limit order => search_offers query limit order
  | Call_create_instance offer_id image disk ssh jupyter direct env label
      bid_price =>
      create_instance fuel offer_id image disk ssh jupyter direct env label
        bid_price
  | Call_destroy_instance id => destroy_instance (JInt id)
  | Call_start_instance id => start_instance (JInt id)
  | Call_stop_instance id => stop_instance (JInt id)
  | Call_search_volumes query limit => search_volumes query limit
  | Call_label_instance id label => label_instance (JInt id) label
  | Call_reboot_instance id => reboot_instance (JInt id)
  | Call_recycle_instance id => recycle_instance (JInt id)
  | Call_show_instance id => show_instance (JInt id)
  | Call_logs id tail filter_text daemon_logs =>
      logs (JInt id) tail filter_text daemon_logs
  | Call_attach_ssh id => attach_ssh (JInt id)
  | Call_search_templates => search_templates
  | Call_configure_mcp_rules a l r p => configure_mcp_rules a l r p
  | Call_execute_command id command => execute_command (JInt id) command
  | Call_ssh_execute_command host user port command =>
      ssh_execute_command host user port command
  | Call_ssh_execute_background_command host user port command name =>
      ssh_execute_background_command host user port command name
  | Call_ssh_check_background_task host user port task_id pid n =>
      ssh_check_background_task host user port task_id pid n
  | Call_ssh_kill_background_task host user port task_id pid =>
      ssh_kill_background_task host user port task_id pid
  | Call_prepare_instance id => prepare_instance (JInt id)
  end.

(** A session of the server: tool calls, one after the other. *)
Fixpoint run_session (fuel : nat) (calls : list tool_call) (s : State H)
  : State H :=
  match calls with
  | [] => s
  | call :: rest => run_session fuel rest (snd (run_tool fuel call s))
  end.

End Server.

(* ================================================================== *)
(** * The request bodies of the two searches *)
(* ================================================================== *)

(** [search_offers] and [search_volumes] build their request from the
    query string with [parse_query_string].  The two library functions
    whose answer depends on the whole of Unicode and on the float format
    are parameters: [isdigit text] is [text.isdigit()], and [float text]
    is the [repr] of [float(text)], or [None] when [float] raises. *)
Section Searches.
Variable isdigit : string -> bool.
Variable float : string -> option string.

(** [{"eq": v}] *)
Definition eq_cond (v : json) : json := JDict [("eq", v)].

(** [d[k] = v]: a key that is present keeps its place. *)
Fixpoint dict_set (k : string) (v : json) (d : list (string * json))
  : list (string * json) :=
  match d with
  | [] => [(k, v)]
  | (k', v') :: rest =>
      if String.eqb k k' then (k, v) :: rest
      else (k', v') :: dict_set k v rest
  end.

(** [d.update(other)] *)
Definition dict_update (d other : list (string * json))
  : list (string * json) :=
  fold_left (fun acc kv => dict_set (fst kv) (snd kv) acc) other d.

(** [item.split("=", 1)], when ["=" in item]. *)
Fixpoint split_at_eq (item : string) : option (string * string) :=
  match item with
  | EmptyString => None
  | String a r =>
      if (byte a =? 61)%N then Some (EmptyString, r)
      else match split_at_eq r with
           | Some (key, value) => Some (String a key, value)
           | None => None
           end
  end.

(** The body of the [try] block; a [ValueError] of [float] is caught by
    the bare [except:]. *)
Definition parse_value (value : string) : json :=
  if String.eqb (lower value) "true" then eq_cond (JBool true)
  else if String.eqb (lower value) "false" then eq_cond (JBool false)
  else if isdigit (remove_all "." 0 value) then
    match float value with
    | Some number => eq_cond (JFloat number)
    | None => eq_cond (JStr value)
    end
  else eq_cond (JStr value).

Definition parse_query_string (query_list : list string)
  : list (string * json) :=
  fold_left
    (fun query item =>
       match split_at_eq item with
       | Some (key, value) => dict_set key (parse_value value) query
       | None => query
       end)
    query_list [].

(** [s.split()]: the words between runs of white space.  [skip] bytes
    of a white-space code point are still to be passed over; [cur] is
    the word read so far. *)
Definition flush (cur : string) (rest : list string) : list string :=
  if nonempty cur then cur :: rest else rest.

Fixpoint words (skip : nat) (cur : string) (s : string) : list string :=
  match s with
  | EmptyString => flush cur []
  | String a r =>
      match skip with
      | S k => words k cur r
      | O =>
          let more := words 0 (cur ++ String a EmptyString) r in
          if is_space1 a then flush cur (words 0 EmptyString r)
          else
            match r with
            | String b r2 =>
                if is_space2 a b then flush cur (words 1 EmptyString r)
                else
                  match r2 with
                  | String c _ =>
                      if is_space3 a b c
                      then flush cur (words 2 EmptyString r)
                      else more
                  | EmptyString => more
                  end
            | EmptyString => more
            end
      end
  end.

(** [s.split(",")] *)
Fixpoint split_comma (cur : string) (s : string) : list string :=
  match s with
  | EmptyString => [cur]
  | String a r =>
      if (byte a =? 44)%N then cur :: split_comma EmptyString r
      else split_comma (cur ++ String a EmptyString) r
  end.

(** One turn of the loop over [order.split(",")]. *)
Definition order_entry (name : string) : list json :=
  let name := strip name in
  if negb (nonempty name) then []
  else
    match reverse name with
    | String last before =>
        if (byte last =? 45)%N                          (* "-" *)
        then [JList [JStr (reverse before); JStr "desc"]]
        else if (byte last =? 43)%N                     (* "+" *)
        then [JList [JStr (reverse before); JStr "asc"]]
        else [JList [JStr name; JStr "asc"]]
    | EmptyString => [JList [JStr name; JStr "asc"]]
    end.

Definition order_list (order : string) : list json :=
  flat_map order_entry (split_comma EmptyString order).

(** The [request_data] of [search_offers]. *)
Definition offers_request (query : string) (limit : Z) (order : string)
  : json :=
  let default_query :=
    [("verified", eq_cond (JBool true)); ("external", eq_cond (JBool false));
     ("rentable", eq_cond (JBool true)); ("rented", eq_cond (JBool false))] in
  let default_query :=
    if nonempty query
    then dict_update default_query
           (parse_query_string (words 0 EmptyString query))
    else default_query in
  let query_obj :=
    [("verified", eq_cond (JBool true)); ("external", eq_cond (JBool false));
     ("rentable", eq_cond (JBool true)); ("rented", eq_cond (JBool false));
     ("order", JList (order_list order)); ("type", JStr "on-demand");
     ("allocated_storage", JFloat "5.0")] in
  let query_obj := dict_update query_obj default_query in
  let query_obj :=
    if (limit =? 0)%Z then query_obj
    else dict_set "limit" (JInt limit) query_obj in
  JDict [("select_cols", JList [JStr "*"]); ("q", JDict query_obj)].

(** The [request_data] of [search_volumes]. *)
Definition volumes_request (query : string) (limit : Z) : json :=
  let default_query :=
    [("verified", eq_cond (JBool true)); ("external", eq_cond (JBool false));
     ("disk_space", JDict [("gte", JInt 1)])] in
  let default_query :=
    if nonempty query
    then dict_update default_query
           (parse_query_string (words 0 EmptyString query))
    else default_query in
  let request_data :=
    [("limit", JInt limit); ("allocated_storage", JFloat "1.0");
     ("order", JList [JList [JStr "score"; JStr "desc"]])] in
  JDict (dict_update request_data default_query).

End Searches.

(** The value that the last item [key=value] of a query gives to [key]. *)
Fixpoint asked_for (key : string) (query_list : list string)
  : option string :=
  match query_list with
  | [] => None
  | item :: rest =>
      match asked_for key rest with
      | Some value => Some value
      | None =>
          match split_at_eq item with
          | Some (k, value) => if String.eqb key k then Some value else None
          | None => None
          end
      end
  end.

(* ================================================================== *)
(** * Vocabulary of the specification *)
(* ================================================================== *)

(** The artifact paths of a task, as the data model gives them. *)
Definition log_path (task_id : string) : string :=
  "/tmp/ssh_task_" ++ task_id ++ ".log".

Definition pid_path (task_id : string) : string :=
  "/tmp/ssh_task_" ++ task_id ++ ".pid".

(** The order in which the key classes are tried. *)
Definition probe_order : list key_alg :=
  [RSAKey; Ed25519Key; ECDSAKey; DSSKey].

(** A key file is passphrase-protected when the parser of some key class
    in the probe order asks for the passphrase. *)
Definition asks_passphrase (w : World) (alg : key_alg) : bool :=
  match parse_private_key w alg (SSH_KEY_FILE w) with
  | inl e => isinstance e PasswordRequiredException
  | inr _ => false
  end.

Definition passphrase_protected (w : World) : bool :=
  existsb (asks_passphrase w) probe_order.

(** The key classes whose parser ran, oldest first. *)
Definition key_attempts (trace : list event) : list key_alg :=
  flat_map (fun e => match e with EvLoadKey alg _ => [alg] | _ => [] end)
    trace.

(** What the remote hosts did. *)
Definition remote_part (trace : list event) : list os_event :=
  flat_map (fun e => match e with EvRemote o => [o] | _ => [] end) trace.

(** Status queries of the readiness poller are requests to the API. *)
Definition requests (trace : list event) : list http_request :=
  flat_map (fun e => match e with EvSessionRequest rq => [rq] | _ => [] end)
    trace.

(** Constructions of the API client. *)
Definition constructions (trace : list event) : list nat :=
  flat_map (fun e => match e with EvNewClient id => [id] | _ => [] end)
    trace.

(** A launch failure in the sense of the error taxonomy: the detach
    sequence ran and did not yield a process id. *)
Definition launch_failure (r : launch_reply) : bool :=
  match r with
  | LaunchError _ _ | LaunchPidUnparsed _ => true
  | _ => false
  end.

(** Every network round trip carries a timeout. *)
Definition has_timeout (e : event) : bool :=
  match e with
  | EvSessionRequest rq =>
      match rq_timeout rq with Some _ => true | None => false end
  | EvSessionGet _ t | EvConnect _ t | EvExec _ _ t =>
      match t with Some _ => true | None => false end
  | _ => true
  end.

(** The timeouts as the server sets them: thirty seconds on [connect]
    and on the requests of [_make_request], none on [exec_command]. *)
Definition timeout_as_built (e : event) : bool :=
  match e with
  | EvSessionRequest rq =>
      match rq_timeout rq with Some t => (t =? 30)%Z | None => false end
  | EvConnect _ t =>
      match t with Some t => (t =? 30)%Z | None => false end
  | EvExec _ _ t => match t with Some _ => false | None => true end
  | _ => true
  end.

Definition as_built (e : event) : Prop := timeout_as_built e = true.

(** The key the cascade of attempts ends with, if any. *)
Fixpoint first_parsed (w : World) (algs : list key_alg) : option pkey :=
  match algs with
  | [] => None
  | alg :: rest =>
      match parse_private_key w alg (SSH_KEY_FILE w) with
      | inr k => Some k
      | inl _ => first_parsed w rest
      end
  end.

(** The key classes tried until one parses. *)
Fixpoint tried (w : World) (algs : list key_alg) : list key_alg :=
  match algs with
  | [] => []
  | alg :: rest =>
      alg :: match parse_private_key w alg (SSH_KEY_FILE w) with
             | inr _ => []
             | inl _ => tried w rest
             end
  end.

Definition load_events (w : World) (algs : list key_alg) : list event :=
  map (fun alg => EvLoadKey alg (SSH_KEY_FILE w)) algs.

(** The network behaves: the session is set up and no channel breaks. *)
Definition quiet_network (w : World) (ep : endpoint) (key : pkey) : Prop :=
  (forall n, connect_fault w n ep key = None) /\
  (forall n, channel_fault w n = None).

(* ================================================================== *)
(** * A simulated host and world, for running the server *)
(* ================================================================== *)

Module Sim.

(** One remote machine: the live processes (with whether they ignore
    SIGTERM), the regular files, and what a command line of the caller
    answers. *)
Record host := mk_host {
  procs : list (Z * bool);
  files : list (string * string);
  answer : string -> exec_result
}.

Definition alive (pid : Z) (h : host) : bool :=
  existsb (fun p => (fst p =? pid)%Z) (procs h).

Definition deliver (sig : signal) (pid : Z) (h : host) : host :=
  let dies (p : Z * bool) :=
    ((fst p =? pid)%Z
     && match sig with SIGKILL => true | SIGTERM => negb (snd p) end)%bool in
  mk_host (filter (fun p => negb (dies p)) (procs h)) (files h) (answer h).

Definition is_file (path : string) (h : host) : bool :=
  existsb (fun f => String.eqb (fst f) path) (files h).

Definition content (path : string) (h : host) : string :=
  match find (fun f => String.eqb (fst f) path) (files h) with
  | Some f => snd f
  | None => EmptyString
  end.

Fixpoint line_feeds (s : string) : Z :=
  match s with
  | EmptyString => 0
  | String a r => (if (byte a =? 10)%N then 1 else 0) + line_feeds r
  end.

Definition remove (paths : list string) (h : host) : host :=
  mk_host (procs h)
    (filter (fun f => negb (existsb (String.eqb (fst f)) paths)) (files h))
    (answer h).

(** [tail] prints the whole file: the simulated logs are short. *)
#[export] Instance os : RemoteOS host := {|
  os_alive := fun _ pid h => alive pid h;
  os_signal := fun _ sig pid h => deliver sig pid h;
  os_sleep := fun _ _ h => h;
  os_is_file := fun _ path h => is_file path h;
  os_tail := fun _ _ path h => content path h;
  os_count_lines := fun _ path h => str_int (line_feeds (content path h)) ++ nl;
  os_remove := fun _ paths h => remove paths h;
  os_shell := fun _ line h => (answer h line, h)
|}.

Definition key_file : string := "/root/.ssh/id_rsa".

Definition no_such_key (message : string) : result pkey :=
  inl (mk_exn SSHException message).

(** An unencrypted RSA key. *)
Definition rsa_key (alg : key_alg) (path : string) : result pkey :=
  match alg with
  | RSAKey => inr (mk_pkey RSAKey path)
  | Ed25519Key => no_such_key "encountered RSA key, expected OPENSSH key"
  | ECDSAKey => no_such_key "encountered RSA key, expected EC key"
  | DSSKey => no_such_key "encountered RSA key, expected DSA key"
  end.

(** An RSA key encrypted with a passphrase. *)
Definition encrypted_rsa_key (alg : key_alg) (path : string) : result pkey :=
  match alg with
  | RSAKey =>
      inl (mk_exn PasswordRequiredException "Private key file is encrypted")
  | other => rsa_key other path
  end.

(** An ECDSA key encrypted with a passphrase. *)
Definition encrypted_ecdsa_key (alg : key_alg) (path : string)
  : result pkey :=
  match alg with
  | RSAKey => no_such_key "encountered EC key, expected RSA key"
  | Ed25519Key => no_such_key "encountered EC key, expected OPENSSH key"
  | ECDSAKey =>
      inl (mk_exn PasswordRequiredException "Private key file is encrypted")
  | DSSKey => no_such_key "encountered EC key, expected DSA key"
  end.

(** A world in which the network never fails and the API answers every
    request with [reply]. *)
Definition world (keys : key_alg -> string -> result pkey) (reply : json)
  : World := {|
  SSH_KEY_FILE := key_file;
  SSH_KEY_PUBLIC_FILE := "/root/.ssh/id_rsa.pub";
  USER_NAME := "user01";
  getenv_VAST_API_KEY := Some "secret";
  path_exists := fun path => String.eqb path key_file;
  read_text := fun _ => inr "ssh-rsa AAAA user01@laptop";
  parse_private_key := keys;
  connect_fault := fun _ _ _ => None;
  channel_fault := fun _ => None;
  http := fun _ _ => inr (mk_response 200 "{}" (inr reply));
  latency := fun _ => 0%N;
  uuid4 := fun _ => "1b9d6bcd-bbfd-4b2d-9b5d-ab8dfbbd4bed";
  strftime := fun _ => "20250101-000000";
  str_json := fun _ => "{}";
  format_1f := fun ms => str_int (ms / 1000) ++ "." ++ str_int (ms / 100 mod 10);
  render := fun _ _ => inr "(response)";
  search_body := fun _ _ _ _ => inr (JDict [])
|}.

Definition rules : MCPRules.t := MCPRules.mk true true "mcp-instance" true 300.

(** The state of a server that has just started. *)
Definition boot (h : host) : State host := mk_state None rules 0 0 h [].

Definition silent (line : string) : exec_result :=
  mk_exec EmptyString EmptyString 0.

Definition root : endpoint := mk_endpoint "203.0.113.7" 22 "root".

(** A world with an unencrypted RSA key and an API that answers [{}]. *)
Definition plain : World := world rsa_key (JDict []).

(** Process 4242 ignores SIGTERM; there are no files. *)
Definition stubborn : host := mk_host [(4242, true)] [] silent.

(** Process 4242 exits on SIGTERM. *)
Definition polite : host := mk_host [(4242, false)] [] silent.

(** Nothing runs; the task [t1] has left a pid file but no log. *)
Definition idle : host :=
  mk_host [] [("/tmp/ssh_task_t1.pid", "4242" ++ nl)] silent.

(** A host whose shell prints a locale warning on standard error and
    then runs every command line successfully, printing a process id. *)
Definition noisy : host :=
  mk_host [] []
    (fun _ =>
       mk_exec ("4242" ++ nl)
         ("bash: warning: setlocale: LC_ALL: cannot change locale" ++ nl) 0).

(** A host on which a launch succeeds quietly. *)
Definition quiet : host :=
  mk_host [] [] (fun _ => mk_exec ("4242" ++ nl) EmptyString 0).

End Sim.

#[local] Existing Instance Sim.os.

(** The world [Sim.plain] on a machine where no file exists, the private
    key file included. *)
Definition keyless : World := {|
  SSH_KEY_FILE := SSH_KEY_FILE Sim.plain;
  SSH_KEY_PUBLIC_FILE := SSH_KEY_PUBLIC_FILE Sim.plain;
  USER_NAME := USER_NAME Sim.plain;
  getenv_VAST_API_KEY := getenv_VAST_API_KEY Sim.plain;
  path_exists := fun _ => false;
  read_text := fun _ =>
    inl (mk_exn FileNotFoundError "[Errno 2] No such file or directory");
  parse_private_key := fun _ _ =>
    inl (mk_exn FileNotFoundError "[Errno 2] No such file or directory");
  connect_fault := connect_fault Sim.plain;
  channel_fault := channel_fault Sim.plain;
  http := http Sim.plain;
  latency := latency Sim.plain;
  uuid4 := uuid4 Sim.plain;
  strftime := strftime Sim.plain;
  str_json := str_json Sim.plain;
  format_1f := format_1f Sim.plain;
  render := render Sim.plain;
  search_body := search_body Sim.plain
|}.

(* ================================================================== *)
(** * How a computation may change the state *)
(* ================================================================== *)

(** The global client across a stretch of execution that performed
    [evs]: once set it stays, and it is set by the one construction. *)
Definition client_step (before : option VastAIClient) (evs : list event)
    (after : option VastAIClient) : Prop :=
  match before with
  | Some c => after = Some c /\ constructions evs = []
  | None =>
      (after = None /\ constructions evs = [])
      \/ (exists c, after = Some c /\ length (constructions evs) = 1%nat)
  end.

(** [step P s s']: from [s] to [s'] the clock did not go back, the trace
    grew by events that satisfy [P], and the global client moved as
    [client_step] allows. *)
Definition step {H} (P : event -> Prop) (s s' : State H) : Prop :=
  st_now s <= st_now s' /\
  exists evs,
    st_trace s' = (st_trace s ++ evs)%list /\ Forall P evs /\
    client_step (st_vast_client s) evs (st_vast_client s').

Definition steps {H A} (P : event -> Prop) (m : M H A) : Prop :=
  forall s, step P s (snd (m s)).

(** The computation ends, with a value or an exception. *)
Definition halts {H A} (m : M H A) : Prop :=
  forall s, fst (m s) <> OutOfFuel.

(** The computation ends with a value. *)
Definition total {H A} (m : M H A) : Prop :=
  forall s, exists a, fst (m s) = Ok a.

(** With enough fuel the computation ends; with enough fuel it ends
    with a value. *)
Definition eventually_halts {H A} (m : nat -> M H A) : Prop :=
  forall s, exists enough, forall fuel,
    (enough <= fuel)%nat -> fst (m fuel s) <> OutOfFuel.

Definition eventually_total {H A} (m : nat -> M H A) : Prop :=
  forall s, exists enough, forall fuel,
    (enough <= fuel)%nat -> exists a, fst (m fuel s) = Ok a.

(** From any state in which the remote hosts are in state [h], the
    computation returns [a], adds [evs] to the trace and leaves the
    hosts in state [h']. *)
Definition yields {H A} (m : M H A) (h : H) (a : A) (evs : list event)
    (h' : H) : Prop :=
  forall s, st_remote s = h ->
    exists s', m s = (Ok a, s') /\
               st_trace s' = (st_trace s ++ evs)%list /\ st_remote s' = h'.

(** Whatever the computation returns satisfies [Q]. *)
Definition ensures {H A} (Q : A -> Prop) (m : M H A) : Prop :=
  forall s a s', m s = (Ok a, s') -> Q a.

(** The identifier of a new task: the first eight characters of a
    random UUID, prefixed with the task name if there is one. *)
Definition new_task_id (uuid : string) (task_name : option string) : string :=
  match task_name with
  | Some name =>
      if nonempty name then name ++ "_" ++ take 8 uuid else take 8 uuid
  | None => take 8 uuid
  end.

(** A handle that the launcher returns is the handle of [task_id]. *)
Definition handle_of (task_id : string) (r : launch_reply) : Prop :=
  match r with
  | LaunchStarted tid _ log_file pid_file =>
      tid = task_id /\ log_file = log_path tid /\ pid_file = pid_path tid
  | _ => True
  end.

(** The commands a trace handed to [exec_command]. *)
Definition commands (trace : list event) : list command :=
  flat_map (fun e => match e with EvExec _ cmd _ => [cmd] | _ => [] end)
    trace.

(** An event that is no [exec_command], or one of the given commands. *)
Definition sends_only (allowed : list command) (e : event) : Prop :=
  match e with
  | EvExec _ cmd _ => In cmd allowed
  | _ => True
  end.

(** The requests that the rules send after a creation: the upload of a
    key by [attach_ssh], the label of [label_instance], the look at the
    instance of [wait_for_instance_ready]. *)
Definition rule_request (rq : http_request) : bool :=
  match rq_method rq, rq_json rq with
  | POST, Some (JDict [(key, JStr _)]) => String.eqb key "ssh_key"
  | PUT, Some (JDict [(key, JStr _)]) => String.eqb key "label"
  | GET, None => true
  | _, _ => false
  end.

Definition follows_creation (e : event) : Prop :=
  match e with
  | EvSessionRequest rq => rule_request rq = true
  | _ => True
  end.

(** The two sides of the server.  An event of the API side: the client
    is built, a request is sent, a result URL is fetched; of the SSH side:
    a private key is parsed, a session is opened, used or closed.  Both
    sides sleep. *)
Definition api_only (e : event) : Prop :=
  match e with
  | EvNewClient _ | EvSessionRequest _ | EvSessionGet _ _ | EvSleep _ => True
  | EvLoadKey _ _ | EvConnect _ _ | EvExec _ _ _ | EvRemote _ | EvClose =>
      False
  end.

Definition ssh_only (e : event) : Prop :=
  match e with
  | EvLoadKey _ _ | EvConnect _ _ | EvExec _ _ _ | EvRemote _ | EvClose
  | EvSleep _ => True
  | EvNewClient _ | EvSessionRequest _ | EvSessionGet _ _ => False
  end.

(** ** States reached by the primitive effects *)

(** After [emit evs]. *)
Definition logged {H} (s : State H) (evs : list event) : State H :=
  mk_state (st_vast_client s) (st_mcp_rules s) (st_now s) (st_tick s)
    (st_remote s) (st_trace s ++ evs)%list.

(** After one consultation of the world. *)
Definition asked {H} (w : World) (s : State H) : State H :=
  mk_state (st_vast_client s) (st_mcp_rules s)
    (st_now s + Z.of_N (latency w (st_tick s))) (S (st_tick s))
    (st_remote s) (st_trace s).

(** After [time.sleep]. *)
Definition slept {H} (ms : Z) (s : State H) : State H :=
  mk_state (st_vast_client s) (st_mcp_rules s) (st_now s + Z.max 0 ms)
    (st_tick s) (st_remote s) (st_trace s ++ [EvSleep ms])%list.

(** After the remote shell has run a command. *)
Definition ran {H} `{RemoteOS H} (ep : endpoint) (cmd : command)
    (s : State H) : State H :=
  let '(_, h', evs) := remote_exec ep cmd (st_remote s) in
  mk_state (st_vast_client s) (st_mcp_rules s) (st_now s) (st_tick s) h'
    (st_trace s ++ map EvRemote evs)%list.

(** [wp m Q s]: run from [s], the computation ends with an outcome and in
    a state that satisfy [Q]. *)
Definition wp {H A} (m : M H A) (Q : outcome A -> State H -> Prop)
    (s : State H) : Prop :=
  Q (fst (m s)) (snd (m s)).

(** The computation leaves the global [mcp_rules] as they are. *)
Definition keeps_rules {H A} (m : M H A) : Prop :=
  forall s, st_mcp_rules (snd (m s)) = st_mcp_rules s.

(** The result URLs polled, the sleeps taken and the sessions opened in
    a trace. *)
Definition polls (trace : list event) : list string :=
  flat_map (fun e => match e with EvSessionGet url _ => [url] | _ => [] end)
    trace.

Definition sleeps (trace : list event) : list Z :=
  flat_map (fun e => match e with EvSleep ms => [ms] | _ => [] end) trace.

Definition connections (trace : list event) : list endpoint :=
  flat_map (fun e => match e with EvConnect ep _ => [ep] | _ => [] end)
    trace.

Definition closes (trace : list event) : nat :=
  length (filter (fun e => match e with EvClose => true | _ => false end)
            trace).

(** The client that [VastAIClient()] builds, and the state after
    [get_vast_client] has stored it. *)
Definition new_client (w : World) (id : nat) : VastAIClient :=
  mk_client id (_load_api_key w) DEFAULT_SERVER_URL
    match _load_api_key w with
    | Some k => [("Authorization", "Bearer " ++ k);
                 ("Accept", "application/json");
                 ("Content-Type", "application/json")]
    | None => []
    end.

Definition installed {H} (w : World) (s : State H) : State H :=
  mk_state (Some (new_client w (st_tick s))) (st_mcp_rules s)
    (st_now s + Z.of_N (latency w (st_tick s))) (S (st_tick s))
    (st_remote s) (st_trace s ++ [EvNewClient (st_tick s)])%list.

(* ================================================================== *)
(** * Facts about the monad and the primitive effects *)
(* ================================================================== *)

Local Open Scope Z_scope.

Section MonadFacts.
Context {H : Type}.
Variable P : event -> Prop.

Lemma constructions_app (a b : list event) :
  constructions (a ++ b) = (constructions a ++ constructions b)%list.
Proof. unfold constructions. now rewrite flat_map_app. Qed.

Lemma step_refl (s : State H) : step P s s.
Proof.
  split; [lia|]. exists []. rewrite app_nil_r. repeat split; auto.
  unfold client_step. destruct (st_vast_client s); auto.
Qed.

Lemma step_trans (s1 s2 s3 : State H) :
  step P s1 s2 -> step P s2 s3 -> step P s1 s3.
Proof.
  intros [T1 (e1 & E1 & F1 & C1)] [T2 (e2 & E2 & F2 & C2)].
  split; [lia|]. exists (e1 ++ e2)%list.
  split; [now rewrite E2, E1, app_assoc|].
  split; [now apply Forall_app|].
  unfold client_step in *. rewrite constructions_app.
  destruct (st_vast_client s1).
  - destruct C1 as [A1 K1]. rewrite A1 in C2. destruct C2 as [A2 K2].
    now rewrite K1, K2.
  - destruct C1 as [[A1 K1] | (c & A1 & K1)]; rewrite A1 in C2.
    + destruct C2 as [[A2 K2] | (c & A2 & K2)].
      * left. now rewrite K1, K2.
      * right. exists c. now rewrite K1.
    + destruct C2 as [A2 K2]. right. exists c.
      now rewrite K2, app_nil_r.
Qed.

Lemma steps_ret {A} (a : A) : steps P (@ret H A a).
Proof. intro s. apply step_refl. Qed.

Lemma steps_raise {A} (e : exn) : steps P (@raise H A e).
Proof. intro s. apply step_refl. Qed.

Lemma steps_out_of_fuel {A} : steps P (@out_of_fuel H A).
Proof. intro s. apply step_refl. Qed.

Lemma steps_lift {A} (r : result A) : steps P (@lift H A r).
Proof. destruct r; [apply steps_raise | apply steps_ret]. Qed.

Lemma steps_bind {A B} (m : M H A) (k : A -> M H B) :
  steps P m -> (forall a, steps P (k a)) -> steps P (bind m k).
Proof.
  intros Hm Hk s. unfold bind. specialize (Hm s).
  destruct (m s) as [[a | e |] s1]; cbn in *; auto.
  eapply step_trans; [exact Hm | apply Hk].
Qed.

Lemma steps_select {A} (e : exn) (clauses : list (exn_class * (exn -> M H A))) :
  Forall (fun c => forall e, steps P (snd c e)) clauses ->
  steps P (select e clauses).
Proof.
  induction 1 as [| [cls h] rest Hh _ IH]; cbn [select].
  - apply steps_raise.
  - destruct (isinstance e cls); [apply (Hh e) | apply IH].
Qed.

Lemma steps_try_clauses {A} (m : M H A) clauses :
  steps P m ->
  Forall (fun c => forall e, steps P (snd c e)) clauses ->
  steps P (try_clauses m clauses).
Proof.
  intros Hm Hc s. unfold try_clauses. specialize (Hm s).
  destruct (m s) as [[a | e |] s1]; cbn in *; auto.
  eapply step_trans; [exact Hm | now apply steps_select].
Qed.

Lemma steps_try_except {A} (m : M H A) (h : exn -> M H A) :
  steps P m -> (forall e, steps P (h e)) -> steps P (try_except m h).
Proof.
  intros Hm Hh. apply steps_try_clauses; auto.
Qed.

Lemma steps_try_finally {A} (m : M H A) (fin : M H unit) :
  steps P m -> steps P fin -> steps P (try_finally m fin).
Proof.
  intros Hm Hf s. unfold try_finally. specialize (Hm s).
  destruct (m s) as [[a | e |] s1]; cbn in *; auto;
    specialize (Hf s1); destruct (fin s1) as [[[] | e' |] s2]; cbn in *;
    eapply step_trans; eauto.
Qed.

End MonadFacts.

Section HaltFacts.
Context {H : Type}.

Lemma halts_ret {A} (a : A) : halts (@ret H A a).
Proof. intro s. cbn. discriminate. Qed.

Lemma halts_raise {A} (e : exn) : halts (@raise H A e).
Proof. intro s. cbn. discriminate. Qed.

Lemma halts_lift {A} (r : result A) : halts (@lift H A r).
Proof. destruct r; [apply halts_raise | apply halts_ret]. Qed.

Lemma halts_bind {A B} (m : M H A) (k : A -> M H B) :
  halts m -> (forall a, halts (k a)) -> halts (bind m k).
Proof.
  intros Hm Hk s. unfold bind. specialize (Hm s).
  destruct (m s) as [[a | e |] s1]; cbn in *.
  - apply Hk.
  - discriminate.
  - now elim Hm.
Qed.

Lemma halts_select {A} (e : exn)
    (clauses : list (exn_class * (exn -> M H A))) :
  Forall (fun c => forall e, halts (snd c e)) clauses ->
  halts (select e clauses).
Proof.
  induction 1 as [| [cls h] rest Hh _ IH]; cbn [select].
  - apply halts_raise.
  - destruct (isinstance e cls); [apply (Hh e) | apply IH].
Qed.

Lemma halts_try_clauses {A} (m : M H A) clauses :
  halts m ->
  Forall (fun c => forall e, halts (snd c e)) clauses ->
  halts (try_clauses m clauses).
Proof.
  intros Hm Hc s. unfold try_clauses. specialize (Hm s).
  destruct (m s) as [[a | e |] s1]; cbn in *.
  - discriminate.
  - now apply halts_select.
  - exact Hm.
Qed.

Lemma halts_try_except {A} (m : M H A) (h : exn -> M H A) :
  halts m -> (forall e, halts (h e)) -> halts (try_except m h).
Proof. intros Hm Hh. apply halts_try_clauses; auto. Qed.

Lemma halts_try_finally {A} (m : M H A) (fin : M H unit) :
  halts m -> halts fin -> halts (try_finally m fin).
Proof.
  intros Hm Hf s. unfold try_finally. specialize (Hm s).
  destruct (m s) as [[a | e |] s1]; cbn in *; [ | | exact Hm];
    specialize (Hf s1); destruct (fin s1) as [[[] | e' |] s2]; cbn in *;
    solve [discriminate | now elim Hf].
Qed.

Lemma total_ret {A} (a : A) : total (@ret H A a).
Proof. intro s. now exists a. Qed.

Lemma total_bind {A B} (m : M H A) (k : A -> M H B) :
  total m -> (forall a, total (k a)) -> total (bind m k).
Proof.
  intros Hm Hk s. unfold bind. destruct (Hm s) as [a Ha].
  destruct (m s) as [[a' | e |] s1]; cbn in *; try discriminate.
  apply Hk.
Qed.

(** A [try] whose handler for [Exception] always returns a value
    returns a value whenever its body ends. *)
Lemma total_try_except {A} (m : M H A) (h : exn -> M H A) :
  halts m -> (forall e, total (h e)) -> total (try_except m h).
Proof.
  intros Hm Hh s. unfold try_except, try_clauses. specialize (Hm s).
  destruct (m s) as [[a | e |] s1]; cbn in *.
  - now exists a.
  - replace (isinstance e Exception) with true; [apply Hh|].
    destruct e as [[] msg]; reflexivity.
  - congruence.
Qed.

Lemma total_try_finally {A} (m : M H A) (fin : M H unit) :
  total m -> total fin -> total (try_finally m fin).
Proof.
  intros Hm Hf s. unfold try_finally. destruct (Hm s) as [a Ha].
  destruct (m s) as [[a' | e |] s1]; cbn in *; try discriminate.
  destruct (Hf s1) as [u Hu].
  destruct (fin s1) as [[[] | e' |] s2]; cbn in *; try discriminate.
  now exists a'.
Qed.

Lemma total_halts {A} (m : M H A) : total m -> halts m.
Proof. intros Hm s. destruct (Hm s) as [a ->]. discriminate. Qed.

Lemma isinstance_Exception (e : exn) : isinstance e Exception = true.
Proof. destruct e as [[] msg]; reflexivity. Qed.

Lemma ev_const {A} (m : M H A) : halts m -> eventually_halts (fun _ => m).
Proof. intros Hm s. exists O. intros _ _. apply Hm. Qed.

Lemma ev_bind_l {A B} (m : M H A) (k : nat -> A -> M H B) :
  halts m -> (forall a, eventually_halts (fun fuel => k fuel a)) ->
  eventually_halts (fun fuel => bind m (k fuel)).
Proof.
  intros Hm Hk s. unfold bind. specialize (Hm s).
  destruct (m s) as [[a | e |] s1]; cbn in *.
  - apply Hk.
  - exists O. intros; discriminate.
  - now elim Hm.
Qed.

Lemma ev_bind_r {A B} (m : nat -> M H A) (k : A -> M H B) :
  eventually_halts m -> (forall a, halts (k a)) ->
  eventually_halts (fun fuel => bind (m fuel) k).
Proof.
  intros Hm Hk s. destruct (Hm s) as [enough He]. exists enough.
  intros fuel Hf. specialize (He fuel Hf). unfold bind.
  destruct (m fuel s) as [[a | e |] s1]; cbn in *.
  - apply Hk.
  - discriminate.
  - now elim He.
Qed.

Lemma ev_try_except {A} (m : nat -> M H A) (h : exn -> M H A) :
  eventually_halts m -> (forall e, halts (h e)) ->
  eventually_halts (fun fuel => try_except (m fuel) h).
Proof.
  intros Hm Hh s. destruct (Hm s) as [enough He]. exists enough.
  intros fuel Hf. specialize (He fuel Hf).
  unfold try_except, try_clauses.
  destruct (m fuel s) as [[a | e |] s1]; cbn in *.
  - discriminate.
  - rewrite isinstance_Exception. apply Hh.
  - now elim He.
Qed.

Lemma ev_total_try_except {A} (m : nat -> M H A) (h : exn -> M H A) :
  eventually_halts m -> (forall e, total (h e)) ->
  eventually_total (fun fuel => try_except (m fuel) h).
Proof.
  intros Hm Hh s. destruct (Hm s) as [enough He]. exists enough.
  intros fuel Hf. specialize (He fuel Hf).
  unfold try_except, try_clauses.
  destruct (m fuel s) as [[a | e |] s1]; cbn in *.
  - now exists a.
  - rewrite isinstance_Exception. apply Hh.
  - now elim He.
Qed.

Lemma ev_total_const {A} (m : M H A) :
  total m -> eventually_total (fun _ => m).
Proof. intros Hm s. exists O. intros _ _. apply Hm. Qed.

Lemma total_select_Exception {A} (e : exn)
    (clauses : list (exn_class * (exn -> M H A))) (h : exn -> M H A) :
  Forall (fun c => forall e, total (snd c e)) clauses ->
  (forall e, total (h e)) ->
  total (select e (clauses ++ [(Exception, h)])).
Proof.
  intros Hc Hh. induction Hc as [| [cls h'] rest Hh' _ IH]; cbn [select app].
  - rewrite isinstance_Exception. apply Hh.
  - destruct (isinstance e cls); [apply (Hh' e) | apply IH].
Qed.

(** A [try] whose last clause is [except Exception] and whose handlers
    all return a value. *)
Lemma total_try_clauses {A} (m : M H A) clauses (h : exn -> M H A) :
  halts m ->
  Forall (fun c => forall e, total (snd c e)) clauses ->
  (forall e, total (h e)) ->
  total (try_clauses m (clauses ++ [(Exception, h)])).
Proof.
  intros Hm Hc Hh s. unfold try_clauses. specialize (Hm s).
  destruct (m s) as [[a | e |] s1]; cbn in *.
  - now exists a.
  - now apply total_select_Exception.
  - congruence.
Qed.

End HaltFacts.

Section PrimitiveFacts.
Context {H : Type} `{RemoteOS H}.
Variable w : World.
Variable P : event -> Prop.

Lemma steps_emit (evs : list event) :
  Forall P evs -> constructions evs = [] -> steps P (@emit H evs).
Proof.
  intros F C s. split; cbn; [lia|]. exists evs. repeat split; auto.
  unfold client_step. destruct (st_vast_client s); auto.
Qed.

Lemma steps_consult : steps P (@consult H w).
Proof.
  intro s. split; cbn; [lia|]. exists []. rewrite app_nil_r.
  repeat split; auto.
  unfold client_step. destruct (st_vast_client s); auto.
Qed.

Lemma steps_time_time : steps P (@time_time H).
Proof. intro s. apply step_refl. Qed.

Lemma steps_time_sleep (ms : Z) :
  P (EvSleep ms) -> steps P (@time_sleep H ms).
Proof.
  intros F s. split; cbn; [lia|]. exists [EvSleep ms]. repeat split; auto.
  unfold client_step. destruct (st_vast_client s); auto.
Qed.

Lemma constructions_remote (evs : list os_event) :
  constructions (map EvRemote evs) = [].
Proof. induction evs; cbn; auto. Qed.

Lemma steps_remote_run (ep : endpoint) (cmd : command) :
  (forall o, P (EvRemote o)) -> steps P (remote_run ep cmd).
Proof.
  intros F s. unfold remote_run.
  destruct (remote_exec ep cmd (st_remote s)) as [[r h'] evs].
  split; cbn; [lia|]. exists (map EvRemote evs). repeat split; auto.
  - apply Forall_forall. intros e He. apply in_map_iff in He.
    destruct He as (o & <- & _). apply F.
  - unfold client_step. rewrite constructions_remote.
    destruct (st_vast_client s); auto.
Qed.

Lemma steps_get_rules : steps P (@get_rules H).
Proof. intro s. apply step_refl. Qed.

Lemma steps_set_rules (r : MCPRules.t) : steps P (@set_rules H r).
Proof.
  intro s. split; cbn; [lia|]. exists []. rewrite app_nil_r.
  repeat split; auto.
  unfold client_step. destruct (st_vast_client s); auto.
Qed.

Lemma steps_get_vast_client :
  (forall id, P (EvNewClient id)) -> steps P (@get_vast_client H w).
Proof.
  intros F s. unfold get_vast_client.
  destruct (st_vast_client s) as [c |] eqn:E.
  - apply step_refl.
  - split; cbn; [lia|]. exists [EvNewClient (st_tick s)].
    repeat split; auto. unfold client_step. rewrite E. right. eauto.
Qed.

Lemma total_emit (evs : list event) : total (@emit H evs).
Proof. intro s. now exists tt. Qed.

Lemma total_consult : total (@consult H w).
Proof. intro s. now exists (st_tick s). Qed.

Lemma total_time_time : total (@time_time H).
Proof. intro s. now exists (st_now s). Qed.

Lemma total_time_sleep (ms : Z) : total (@time_sleep H ms).
Proof. intro s. now exists tt. Qed.

Lemma total_remote_run (ep : endpoint) (cmd : command) :
  total (remote_run ep cmd).
Proof.
  intro s. unfold remote_run.
  destruct (remote_exec ep cmd (st_remote s)) as [[r h'] evs]. now exists r.
Qed.

Lemma total_get_rules : total (@get_rules H).
Proof. intro s. now exists (st_mcp_rules s). Qed.

Lemma total_set_rules (r : MCPRules.t) : total (@set_rules H r).
Proof. intro s. now exists tt. Qed.

Lemma total_get_vast_client : total (@get_vast_client H w).
Proof.
  intro s. unfold get_vast_client.
  destruct (st_vast_client s) as [c |]; cbn; eauto.
Qed.

End PrimitiveFacts.

(** ** Automation: walking through a program *)

Create HintDb prog discriminated.

#[local] Hint Unfold time_strftime uuid_uuid4 os_path_exists open_read
  from_private_key_file connect exec_command read_decode_strip close
  session_request session_get session_get_any _make_request
  other_key_types load_private_key load_private_key_any
  get_instance_ssh_info : prog.

Ltac side_condition :=
  intros;
  repeat (apply Forall_cons || apply Forall_nil);
  try solve [hnf; cbn; auto 8; reflexivity].

Ltac walk_steps known :=
  repeat first
    [ progress intros
    | match goal with
      | |- steps _ (ret _) => apply steps_ret
      | |- steps _ (raise _) => apply steps_raise
      | |- steps _ (lift _) => apply steps_lift
      | |- steps _ (consult _) => apply steps_consult
      | |- steps _ time_time => apply steps_time_time
      | |- steps _ get_rules => apply steps_get_rules
      | |- steps _ (set_rules _) => apply steps_set_rules
      | |- steps _ (time_sleep _) =>
          apply steps_time_sleep; solve [side_condition]
      | |- steps _ (emit _) =>
          apply steps_emit; [solve [side_condition] | reflexivity]
      | |- steps _ (remote_run _ _) =>
          apply steps_remote_run; solve [side_condition]
      | |- steps _ (get_vast_client _) =>
          apply steps_get_vast_client; solve [side_condition]
      | |- steps _ (try_finally _ _) => apply steps_try_finally
      | |- steps _ (try_except _ _) => apply steps_try_except
      | |- steps _ (try_clauses _ _) =>
          apply steps_try_clauses;
          [ | repeat (apply Forall_cons || apply Forall_nil) ]
      | |- steps _ (bind _ _) => apply steps_bind
      | |- steps _ (match ?x with _ => _ end) => destruct x
      end
    | solve [known]
    | progress cbn [snd fst]
    | progress autounfold with prog ].

(* ================================================================== *)
(** * Every tool keeps the timeouts and the global client *)
(* ================================================================== *)

Section ToolSteps.
Context {H : Type} `{RemoteOS H}.
Variable w : World.

Local Abbreviation sound := (@steps H _ as_built).

Lemma steps__execute_ssh_command host user port command :
  sound (_execute_ssh_command w host user port command).
Proof. unfold _execute_ssh_command. walk_steps fail. Qed.

Lemma steps_prepare_steps host port commands results :
  sound (prepare_steps w host port commands results).
Proof.
  revert results. induction commands as [| cmd rest IH]; intro results;
    cbn [prepare_steps].
  - apply steps_ret.
  - walk_steps ltac:(apply steps__execute_ssh_command || apply IH).
Qed.

Lemma steps_prepare_instance instance_id :
  sound (prepare_instance w instance_id).
Proof.
  unfold prepare_instance, _prepare_instance.
  walk_steps ltac:(apply steps_prepare_steps).
Qed.

Lemma steps_launch host user port command task_name :
  sound (launch w host user port command task_name).
Proof. unfold launch, launch_task. walk_steps fail. Qed.

Lemma steps_check host user port task_id pid n :
  sound (check w host user port task_id pid n).
Proof. unfold check. walk_steps fail. Qed.

Lemma steps_kill host user port task_id pid :
  sound (kill w host user port task_id pid).
Proof. unfold kill. walk_steps fail. Qed.

Lemma steps_instance_update method endpoint json_data done failure trouble :
  sound
    (instance_update w method endpoint json_data done failure trouble).
Proof. unfold instance_update. walk_steps fail. Qed.

Lemma steps_attach_ssh instance_id :
  sound (attach_ssh w instance_id).
Proof. unfold attach_ssh, get_ssh_key. walk_steps fail. Qed.

Lemma steps_poll_logs n id result_url :
  sound (poll_logs w n id result_url).
Proof.
  induction n as [| n IH]; cbn [poll_logs]; walk_steps ltac:(apply IH).
Qed.

Lemma steps_poll_command n id response result_url :
  sound (poll_command w n id response result_url).
Proof.
  induction n as [| n IH]; cbn [poll_command]; walk_steps ltac:(apply IH).
Qed.

Lemma steps_poll_instance instance_id start_time :
  sound (poll_instance w instance_id start_time).
Proof. unfold poll_instance. walk_steps fail. Qed.

Lemma steps_wait_loop fuel instance_id timeout start_time :
  sound (wait_loop w fuel instance_id timeout start_time).
Proof.
  induction fuel as [| fuel IH]; cbn [wait_loop];
    walk_steps ltac:(apply steps_poll_instance || apply IH
                     || apply steps_out_of_fuel).
Qed.

Lemma steps_apply_post_creation_rules fuel instance_id ssh jupyter label :
  sound
    (apply_post_creation_rules w fuel instance_id ssh jupyter label).
Proof.
  unfold apply_post_creation_rules, wait_for_instance_ready, label_instance.
  walk_steps ltac:(apply steps_attach_ssh || apply steps_instance_update
                   || apply steps_wait_loop).
Qed.

(** Whatever the tool, the world and the state: the call only adds
    events with the timeouts as built, keeps a global client that is
    set, and creates at most one. *)
Lemma steps_run_tool fuel call : sound (run_tool w fuel call).
Proof.
  destruct call; cbn [run_tool];
    unfold show_user_info, show_instances, search_offers, create_instance,
      destroy_instance, start_instance, stop_instance, search_volumes,
      label_instance, reboot_instance, recycle_instance, show_instance,
      logs, search_templates, configure_mcp_rules, execute_command,
      ssh_execute_command, ssh_execute_background_command,
      ssh_check_background_task, ssh_kill_background_task;
    walk_steps ltac:(first
      [ apply steps_instance_update | apply steps_attach_ssh
      | apply steps_poll_logs | apply steps_poll_command
      | apply steps_apply_post_creation_rules
      | apply steps__execute_ssh_command | apply steps_launch
      | apply steps_check | apply steps_kill
      | apply steps_prepare_instance ]).
Qed.

Lemma steps_run_session fuel calls (s : State H) :
  step as_built s (run_session w fuel calls s).
Proof.
  revert s. induction calls as [| call rest IH]; intro s; cbn.
  - apply step_refl.
  - eapply step_trans; [apply steps_run_tool | apply IH].
Qed.

End ToolSteps.

(* ================================================================== *)
(** * Every tool returns *)
(* ================================================================== *)

Ltac walk_halts known :=
  repeat first
    [ progress intros
    | match goal with
      | |- halts (ret _) => apply halts_ret
      | |- halts (raise _) => apply halts_raise
      | |- halts (lift _) => apply halts_lift
      | |- halts (consult _) => apply total_halts, total_consult
      | |- halts time_time => apply total_halts, total_time_time
      | |- halts get_rules => apply total_halts, total_get_rules
      | |- halts (set_rules _) => apply total_halts, total_set_rules
      | |- halts (time_sleep _) => apply total_halts, total_time_sleep
      | |- halts (emit _) => apply total_halts, total_emit
      | |- halts (remote_run _ _) => apply total_halts, total_remote_run
      | |- halts (get_vast_client _) =>
          apply total_halts, total_get_vast_client
      | |- halts (try_finally _ _) => apply halts_try_finally
      | |- halts (try_except _ _) => apply halts_try_except
      | |- halts (try_clauses _ _) =>
          apply halts_try_clauses;
          [ | repeat (apply Forall_cons || apply Forall_nil) ]
      | |- halts (bind _ _) => apply halts_bind
      | |- halts (match ?x with _ => _ end) => destruct x
      end
    | solve [known]
    | progress cbn [snd fst]
    | progress autounfold with prog ].

Ltac walk_total known :=
  repeat first
    [ progress intros
    | match goal with
      | |- total (ret _) => apply total_ret
      | |- total (consult _) => apply total_consult
      | |- total time_time => apply total_time_time
      | |- total get_rules => apply total_get_rules
      | |- total (set_rules _) => apply total_set_rules
      | |- total (time_sleep _) => apply total_time_sleep
      | |- total (emit _) => apply total_emit
      | |- total (get_vast_client _) => apply total_get_vast_client
      | |- total (try_finally _ _) => apply total_try_finally
      | |- total (try_except _ _) =>
          apply total_try_except; [walk_halts known | ]
      | |- total (bind _ _) => apply total_bind
      | |- total (match ?x with _ => _ end) => destruct x
      end
    | solve [known]
    | progress cbn [snd fst]
    | progress autounfold with prog ].

Section ToolsReturn.
Context {H : Type} `{RemoteOS H}.
Variable w : World.

Local Abbreviation ends := (@halts H _).
Local Abbreviation returns := (@total H _).

Lemma total__execute_ssh_command host user port command :
  returns (_execute_ssh_command w host user port command).
Proof.
  unfold _execute_ssh_command. apply total_try_finally.
  - apply (total_try_clauses
             (clauses := [(FileNotFoundError, _);
                          (AuthenticationException, _);
                          (SSHException, _)])).
    + walk_halts fail.
    + repeat (apply Forall_cons || apply Forall_nil); intros; apply total_ret.
    + intros; apply total_ret.
  - apply total_emit.
Qed.

Lemma halts_prepare_steps host port commands results :
  ends (prepare_steps w host port commands results).
Proof.
  revert results. induction commands as [| cmd rest IH]; intro results;
    cbn [prepare_steps].
  - apply halts_ret.
  - walk_halts ltac:(apply total_halts, total__execute_ssh_command
                     || apply IH).
Qed.

Lemma halts_poll_logs n id result_url :
  ends (poll_logs w n id result_url).
Proof.
  induction n as [| n IH]; cbn [poll_logs]; walk_halts ltac:(apply IH).
Qed.

Lemma halts_poll_command n id response result_url :
  ends (poll_command w n id response result_url).
Proof.
  induction n as [| n IH]; cbn [poll_command]; walk_halts ltac:(apply IH).
Qed.

Lemma total_instance_update method endpoint json_data done failure trouble :
  returns (instance_update w method endpoint json_data done failure trouble).
Proof. unfold instance_update. walk_total fail. Qed.

Lemma total_attach_ssh instance_id : returns (attach_ssh w instance_id).
Proof. unfold attach_ssh, get_ssh_key. walk_total fail. Qed.

Lemma total_launch host user port command task_name :
  returns (launch w host user port command task_name).
Proof. unfold launch, launch_task. walk_total fail. Qed.

Lemma total_check host user port task_id pid n :
  returns (check w host user port task_id pid n).
Proof. unfold check. walk_total fail. Qed.

Lemma total_kill host user port task_id pid :
  returns (kill w host user port task_id pid).
Proof. unfold kill. walk_total fail. Qed.

Lemma total_prepare_instance instance_id :
  returns (prepare_instance w instance_id).
Proof.
  unfold prepare_instance, _prepare_instance.
  walk_total ltac:(apply halts_prepare_steps).
Qed.

Lemma halts_poll_instance instance_id start_time :
  ends (poll_instance w instance_id start_time).
Proof. unfold poll_instance. walk_halts fail. Qed.

Lemma bind_Ok_inv {A B} (m : M H A) (k : A -> M H B) s b s' :
  bind m k s = (Ok b, s') ->
  exists a s1, m s = (Ok a, s1) /\ k a s1 = (Ok b, s').
Proof.
  unfold bind. destruct (m s) as [[a | e |] s1]; intro E;
    try discriminate. eauto.
Qed.

Lemma lift_Ok_inv {A} (r : result A) (s : State H) a s' :
  lift r s = (Ok a, s') -> s' = s.
Proof. destruct r; unfold lift, raise, ret; congruence. Qed.

Lemma clock_of_steps {A} (m : M H A) (s : State H) :
  steps as_built m -> st_now s <= st_now (snd (m s)).
Proof. intro Hm. apply (Hm s). Qed.

(** A turn of the readiness loop that does not return has slept for
    five seconds. *)
Lemma poll_instance_slept instance_id start_time (s s' : State H) :
  poll_instance w instance_id start_time s = (Ok None, s') ->
  st_now s + 5000 <= st_now s'.
Proof.
  unfold poll_instance, try_except, try_clauses.
  match goal with |- context [match ?b s with _ => _ end] =>
    set (body := b) end.
  assert (Hb : steps as_built body) by (subst body; walk_steps fail).
  pose proof (clock_of_steps s Hb) as Hclock.
  destruct (body s) as [[r | e |] s1] eqn:E; cbn in Hclock.
  - intros [= -> ->]. subst body.
    apply bind_Ok_inv in E. destruct E as (client & s2 & E1 & E).
    apply bind_Ok_inv in E. destruct E as (response & s3 & E2 & E).
    apply bind_Ok_inv in E. destruct E as (instance & s4 & E3 & E).
    apply bind_Ok_inv in E. destruct E as (status & s5 & E4 & E).
    apply lift_Ok_inv in E3. apply lift_Ok_inv in E4. subst s5 s4.
    assert (C1 : st_now s <= st_now s2).
    { replace s2 with (snd (get_vast_client w s)) by now rewrite E1.
      apply clock_of_steps. walk_steps fail. }
    assert (C2 : st_now s2 <= st_now s3).
    { match type of E2 with ?m s2 = _ =>
        replace s3 with (snd (m s2)) by now rewrite E2 end.
      apply clock_of_steps. walk_steps fail. }
    destruct (eq_str status "running"); [discriminate|].
    destruct (eq_str status "failed" || eq_str status "exited");
      [discriminate|].
    cbn in E. injection E as <-. cbn. lia.
  - cbn [select]. rewrite isinstance_Exception. cbn.
    intros [= <-]. cbn. lia.
  - discriminate.
Qed.

Lemma wait_loop_halts fuel instance_id timeout start_time (s : State H) :
  1000 * timeout - (st_now s - start_time) <= 5000 * Z.of_nat fuel ->
  fst (wait_loop w fuel instance_id timeout start_time s) <> OutOfFuel.
Proof.
  revert s. induction fuel as [| fuel IH]; intros s Hf;
    cbn [wait_loop]; unfold bind at 1, time_time at 1;
    destruct (st_now s - start_time <? 1000 * timeout) eqn:E;
    try (cbn; discriminate).
  - apply Z.ltb_lt in E. lia.
  - apply Z.ltb_lt in E. unfold bind. rewrite Nat2Z.inj_succ in Hf.
    pose proof (halts_poll_instance instance_id start_time s) as Hp.
    destruct (poll_instance w instance_id start_time s)
      as [[[report |] | e |] s1] eqn:E1; cbn [fst] in *.
    + cbn. discriminate.
    + apply IH. apply poll_instance_slept in E1. lia.
    + discriminate.
    + now elim Hp.
Qed.

Lemma ev_wait_for_instance_ready instance_id timeout :
  eventually_halts
    (fun fuel => @wait_for_instance_ready H w fuel instance_id timeout).
Proof.
  intro s. exists (Z.to_nat (timeout / 5 + 1)). intros fuel Hf.
  unfold wait_for_instance_ready, bind, time_time.
  apply wait_loop_halts.
  assert (timeout / 5 + 1 <= Z.of_nat fuel) by lia.
  pose proof (Z.mod_pos_bound timeout 5 ltac:(lia)).
  pose proof (Z.div_mod timeout 5 ltac:(lia)). lia.
Qed.

Lemma ev_apply_post_creation_rules instance_id ssh jupyter label :
  eventually_halts
    (fun fuel =>
       @apply_post_creation_rules H w fuel instance_id ssh jupyter label).
Proof.
  unfold apply_post_creation_rules. cbv zeta.
  apply ev_bind_l; [walk_halts fail | intro r1].
  apply ev_bind_l;
    [walk_halts ltac:(apply total_halts, total_attach_ssh) | intro step1].
  destruct step1 as [text | rule_results];
    [apply ev_const; walk_halts fail |].
  apply ev_bind_l; [walk_halts fail | intro r2].
  apply ev_bind_l;
    [unfold label_instance;
     walk_halts ltac:(apply total_halts, total_instance_update)
    | intro results2].
  apply ev_bind_l; [walk_halts fail | intro r3].
  apply ev_bind_r; [| walk_halts fail].
  destruct (MCPRules.wait_for_instance_ready r3).
  - apply ev_try_except; [| walk_halts fail].
    apply ev_bind_r; [apply ev_wait_for_instance_ready | walk_halts fail].
  - apply ev_const. walk_halts fail.
Qed.

Lemma ev_create_instance offer_id image disk ssh jupyter direct env label
    bid_price :
  eventually_total
    (fun fuel =>
       @create_instance H w fuel offer_id image disk ssh jupyter direct env
         label bid_price).
Proof.
  unfold create_instance. cbv zeta.
  apply ev_total_try_except; [| intros; apply total_ret].
  apply ev_bind_l; [walk_halts fail | intro client].
  apply ev_bind_l; [walk_halts fail | intro response].
  apply ev_bind_l; [walk_halts fail | intro ok].
  destruct (truthy ok).
  - apply ev_bind_l; [walk_halts fail | intro instance_id].
    apply ev_bind_r;
      [apply ev_apply_post_creation_rules | walk_halts fail].
  - apply ev_const. walk_halts fail.
Qed.

(** Given enough fuel for the readiness loop, a tool call returns a
    string. *)
Lemma ev_run_tool call :
  eventually_total (fun fuel => @run_tool H _ w fuel call).
Proof.
  destruct call; cbn [run_tool].
  4: apply ev_create_instance.
  all: apply ev_total_const;
    unfold show_user_info, show_instances, search_offers,
      destroy_instance, start_instance, stop_instance, search_volumes,
      label_instance, reboot_instance, recycle_instance, show_instance,
      logs, search_templates, configure_mcp_rules, execute_command,
      ssh_execute_command, ssh_execute_background_command,
      ssh_check_background_task, ssh_kill_background_task;
    walk_total ltac:(first
      [ apply total_instance_update | apply total_attach_ssh
      | apply halts_poll_logs | apply halts_poll_command
      | apply total__execute_ssh_command | apply total_launch
      | apply total_check | apply total_kill
      | apply total_prepare_instance ]).
Qed.

End ToolsReturn.

(* ================================================================== *)
(** * Running the SSH tools on a quiet network *)
(* ================================================================== *)

Section Yields.
Context {H : Type} `{RemoteOS H}.
Variable w : World.

Lemma yields_ret {A} (a : A) (h : H) : yields (ret a) h a [] h.
Proof.
  intros s Hs. exists s. rewrite app_nil_r. auto.
Qed.

Lemma yields_bind {A B} (m : M H A) (k : A -> M H B) h a e1 h1 b e2 h2 :
  yields m h a e1 h1 -> yields (k a) h1 b e2 h2 ->
  yields (bind m k) h b (e1 ++ e2) h2.
Proof.
  intros Hm Hk s Hs. destruct (Hm s Hs) as (s1 & E1 & T1 & R1).
  destruct (Hk s1 R1) as (s2 & E2 & T2 & R2).
  exists s2. unfold bind. rewrite E1. repeat split; auto.
  now rewrite T2, T1, app_assoc.
Qed.

Lemma yields_try_clauses {A} (m : M H A) clauses h a e h' :
  yields m h a e h' -> yields (try_clauses m clauses) h a e h'.
Proof.
  intros Hm s Hs. destruct (Hm s Hs) as (s1 & E1 & T1 & R1).
  exists s1. unfold try_clauses. now rewrite E1.
Qed.

Lemma yields_try_finally {A} (m : M H A) (fin : M H unit)
    h a e1 h1 e2 h2 :
  yields m h a e1 h1 -> yields fin h1 tt e2 h2 ->
  yields (try_finally m fin) h a (e1 ++ e2) h2.
Proof.
  intros Hm Hf s Hs. destruct (Hm s Hs) as (s1 & E1 & T1 & R1).
  destruct (Hf s1 R1) as (s2 & E2 & T2 & R2).
  exists s2. unfold try_finally. rewrite E1, E2. repeat split; auto.
  now rewrite T2, T1, app_assoc.
Qed.

Lemma yields_emit (evs : list event) (h : H) :
  yields (emit evs) h tt evs h.
Proof.
  intros s Hs. eexists. unfold emit. split; [reflexivity|]. cbn. auto.
Qed.

Lemma yields_close (h : H) : yields close h tt [EvClose] h.
Proof. apply yields_emit. Qed.

Lemma yields_os_path_exists (path : string) (h : H) :
  yields (os_path_exists w path) h (path_exists w path) [] h.
Proof. apply yields_ret. Qed.

Lemma yields_connect ep key timeout (h : H) :
  (forall n, connect_fault w n ep key = None) ->
  yields (connect w ep key timeout) h tt [EvConnect ep timeout] h.
Proof.
  intros Q s Hs. unfold connect, bind, consult, emit. cbn.
  rewrite Q. cbn. eexists. split; [reflexivity|]. cbn. auto.
Qed.

(** A script whose output is valid UTF-8, run and read. *)
Lemma yields_exec_read ep (body : sh) (h h' : H) out k evs :
  (forall n, channel_fault w n = None) ->
  sh_run ep body h = (h', out, k, evs) ->
  decode out = inr out ->
  yields
    (r <- exec_command w ep (Script body) None;;
     read_decode_strip w (ex_stdout r))
    h (strip out)
    (EvExec ep (Script body) None :: map EvRemote evs) h'.
Proof.
  intros Q R D s Hs.
  unfold exec_command, read_decode_strip, bind, consult, emit, remote_run,
    remote_exec.
  cbn. rewrite !Q. cbn. rewrite Hs, R. cbn. rewrite !Q, D. cbn.
  eexists. split; [reflexivity|]. cbn. split; [|reflexivity].
  now rewrite <- app_assoc.
Qed.

Ltac run_key_cascade :=
  unfold load_private_key, load_private_key_any, other_key_types,
    try_except, try_clauses, from_private_key_file, bind, emit, lift,
    raise, ret;
  cbn [first_parsed tried probe_order load_events map];
  repeat match goal with
    | |- context [parse_private_key w ?alg ?path] =>
        destruct (parse_private_key w alg path) eqn:?;
        cbn [select]; rewrite ?isinstance_Exception
    end.

(** The unguarded loader ends with the first key class that parses. *)
Lemma yields_load_private_key_any (key : pkey) (h : H) :
  first_parsed w probe_order = Some key ->
  yields (load_private_key_any w) h (inr key)
    (load_events w (tried w probe_order)) h.
Proof.
  intros F s Hs. revert F. run_key_cascade; intro F;
    try discriminate; injection F as <-;
    (eexists; split; [reflexivity|]; cbn [st_trace st_remote];
     split; [|assumption]; now rewrite <- ?app_assoc).
Qed.

(** The guarded loader stops at once when the RSA parser asks for a
    passphrase. *)
Lemma yields_load_private_key_encrypted (h : H) :
  asks_passphrase w RSAKey = true ->
  yields (load_private_key w) h KeyEncrypted
    (load_events w [RSAKey]) h.
Proof.
  unfold asks_passphrase. intros F s Hs.
  unfold load_private_key, try_clauses, from_private_key_file, bind, emit,
    lift, raise, ret.
  destruct (parse_private_key w RSAKey (SSH_KEY_FILE w)) as [e | k];
    [| discriminate].
  cbn [select]. rewrite F.
  eexists; split; [reflexivity|]. cbn. auto.
Qed.

(** Otherwise it ends with the first key class that parses. *)
Lemma yields_load_private_key (key : pkey) (h : H) :
  asks_passphrase w RSAKey = false ->
  first_parsed w probe_order = Some key ->
  yields (load_private_key w) h (KeyLoaded key)
    (load_events w (tried w probe_order)) h.
Proof.
  unfold asks_passphrase. intros G F s Hs. revert G F.
  run_key_cascade; intros G F; try discriminate;
    try rewrite G; cbn [select]; rewrite ?isinstance_Exception;
    injection F as <-;
    (eexists; split; [reflexivity|]; cbn [st_trace st_remote];
     split; [|assumption]; now rewrite <- ?app_assoc).
Qed.

End Yields.

(* ================================================================== *)
(** * The readiness poller *)
(* ================================================================== *)

Section Poller.
Context {H : Type}.
Variable w : World.

Lemma total_poll_instance instance_id start_time :
  @total H _ (poll_instance w instance_id start_time).
Proof. unfold poll_instance. walk_total fail. Qed.

Lemma wait_loop_never_raises fuel instance_id timeout start_time
    (s : State H) (e : exn) :
  fst (wait_loop w fuel instance_id timeout start_time s) <> Raise e.
Proof.
  revert s. induction fuel as [| fuel IH]; intro s; cbn [wait_loop];
    unfold bind at 1, time_time at 1;
    destruct (st_now s - start_time <? 1000 * timeout);
    try (cbn; discriminate).
  unfold bind.
  destruct (total_poll_instance instance_id start_time s) as [r Hr].
  destruct (poll_instance w instance_id start_time s) as [o s1].
  cbn in Hr. subst o. destruct r as [report |]; [cbn; discriminate|].
  apply IH.
Qed.

(** Whatever the timeout, with enough fuel the wait returns a report. *)
Lemma wait_for_instance_ready_returns instance_id timeout (s : State H) :
  exists enough, forall fuel, (enough <= fuel)%nat ->
    exists report s',
      wait_for_instance_ready w fuel instance_id timeout s = (Ok report, s').
Proof.
  destruct (ev_wait_for_instance_ready w instance_id timeout s)
    as [enough He].
  exists enough. intros fuel Hf. specialize (He fuel Hf).
  pose proof (fun e =>
    @wait_loop_never_raises fuel instance_id timeout (st_now s) s e) as Hr.
  unfold wait_for_instance_ready, bind, time_time in *.
  destruct (wait_loop w fuel instance_id timeout (st_now s) s)
    as [[report | e |] s'] eqn:E; cbn in *.
  - eauto.
  - now elim (Hr e).
  - now elim He.
Qed.

End Poller.

(** C6: called with a timeout of zero or less, [wait_for_instance_ready]
    returns the timed-out report as a value (no exception), leaves the
    state as it found it and so has issued no status query at all, which
    is at most one. *)
Theorem C6_nonpositive_timeout_times_out :
  forall (H : Type) (w : World) (fuel : nat) (instance_id : json)
         (timeout_seconds : Z) (s : State H),
    timeout_seconds <= 0 ->
    wait_for_instance_ready w fuel instance_id timeout_seconds s
    = (Ok (timed_out w instance_id), s)
    /\ (length
          (requests
             (st_trace
                (snd (wait_for_instance_ready w fuel instance_id
                        timeout_seconds s))))
        <= length (requests (st_trace s)) + 1)%nat.
Proof.
  intros H w fuel instance_id timeout s Ht.
  assert (E : wait_for_instance_ready w fuel instance_id timeout s
              = (Ok (timed_out w instance_id), s)).
  { unfold wait_for_instance_ready, bind, time_time.
    assert (Hc : (st_now s - st_now s <? 1000 * timeout) = false)
      by (apply Z.ltb_ge; lia).
    destruct fuel; cbn [wait_loop]; unfold bind, time_time;
      now rewrite Hc. }
  split; [exact E|]. rewrite E. cbn. lia.
Qed.

Lemma C6_witness :
  wait_for_instance_ready Sim.plain 0 (JInt 7) 0 (Sim.boot Sim.idle)
  = (Ok (timed_out Sim.plain (JInt 7)), Sim.boot Sim.idle)
  /\ (length
        (requests
           (st_trace
              (snd (wait_for_instance_ready Sim.plain 0 (JInt 7) 0
                      (Sim.boot Sim.idle)))))
      <= length (requests (st_trace (Sim.boot Sim.idle))) + 1)%nat.
Proof.
  apply (C6_nonpositive_timeout_times_out Sim.plain 0 (JInt 7)
           (Sim.boot Sim.idle)).
  lia.
Defined.

(* ================================================================== *)
(** * Properties of every tool call *)
(* ================================================================== *)

(** C9: whatever the arguments, the world and the state, a tool call
    returns a string: no exception of the API client, of the SSH
    transport, of key loading or of a remote command leaves the tool.
    (The fuel only bounds the readiness loop of [create_instance].) *)
Theorem C9_tool_calls_return_a_string :
  forall (H : Type) (os : RemoteOS H) (w : World) (call : tool_call)
         (s : State H),
    exists enough, forall fuel, (enough <= fuel)%nat ->
      exists reply s', run_tool w fuel call s = (Ok reply, s').
Proof.
  intros H os w call s.
  destruct (ev_run_tool w call s) as [enough He].
  exists enough. intros fuel Hf. destruct (He fuel Hf) as [reply Hr].
  destruct (run_tool w fuel call s) as [o s']. cbn in Hr. subst o. eauto.
Qed.

(** C8, as the claim states it, fails: the command of
    [ssh_execute_command] is handed to [exec_command] without a
    timeout. *)
Lemma C8_exec_command_without_timeout :
  let s' :=
    snd (@run_tool Sim.host Sim.os Sim.plain 0
           (Call_ssh_execute_command "203.0.113.7" "root" 22 "uptime")
           (Sim.boot Sim.idle)) in
  In (EvExec Sim.root (Line "uptime") None) (st_trace s')
  /\ has_timeout (EvExec Sim.root (Line "uptime") None) = false
  /\ forallb has_timeout (st_trace s') = false.
Proof. vm_compute. intuition. Qed.

(** The polling of a result URL goes without a timeout as well. *)
Lemma session_get_without_timeout :
  let w := Sim.world Sim.rsa_key
             (JDict [("result_url", JStr "https://logs.example/1")]) in
  let s' :=
    snd (@run_tool Sim.host Sim.os w 0 (Call_logs 7 "1000" EmptyString false)
           (Sim.boot Sim.idle)) in
  In (EvSessionGet "https://logs.example/1" None) (st_trace s').
Proof. vm_compute. intuition. Qed.

(** C8, amended: in every tool call every [connect] and every request of
    [_make_request] carries a timeout of thirty seconds, and every
    [exec_command] carries none. *)
Theorem C8_timeouts_as_built :
  forall (H : Type) (os : RemoteOS H) (w : World) (fuel : nat)
         (call : tool_call) (s : State H),
    exists evs,
      st_trace (snd (run_tool w fuel call s)) = (st_trace s ++ evs)%list
      /\ forall e, In e evs -> timeout_as_built e = true.
Proof.
  intros H os w fuel call s.
  destruct (steps_run_tool w fuel call s) as [_ (evs & E & F & _)].
  exists evs. split; [exact E|]. now apply Forall_forall.
Qed.

Section Singleton.
Context {H : Type} `{RemoteOS H}.
Variable w : World.

Lemma get_vast_client_sets (s s1 : State H) (c : VastAIClient) :
  get_vast_client w s = (Ok c, s1) -> st_vast_client s1 = Some c.
Proof.
  unfold get_vast_client.
  destruct (st_vast_client s) as [c' |] eqn:E; cbn.
  - intros [= <- <-]. exact E.
  - intros [= <- <-]. reflexivity.
Qed.

Lemma get_vast_client_reuses (s : State H) (c : VastAIClient) :
  st_vast_client s = Some c -> get_vast_client w s = (Ok c, s).
Proof. unfold get_vast_client. now intros ->. Qed.

Lemma as_built_new_client (id : nat) : as_built (EvNewClient id).
Proof. reflexivity. Qed.

End Singleton.

(** C10: once [get_vast_client] has returned a client, every later call,
    after any sequence of tool calls, returns that very object
    (so the same API key, server URL and session) without touching the
    state, no tool call constructs another client, and from before the
    first call on the client was constructed at most once. *)
Theorem C10_one_client_per_process :
  forall (H : Type) (os : RemoteOS H) (w : World) (fuel : nat)
         (s s1 : State H) (c : VastAIClient) (calls : list tool_call),
    get_vast_client w s = (Ok c, s1) ->
    let s2 := run_session w fuel calls s1 in
    get_vast_client w s2 = (Ok c, s2)
    /\ (exists evs, st_trace s2 = (st_trace s1 ++ evs)%list
                    /\ constructions evs = [])
    /\ (exists evs, st_trace s2 = (st_trace s ++ evs)%list
                    /\ (length (constructions evs) <= 1)%nat).
Proof.
  intros H os w fuel s s1 c calls E s2.
  pose proof (get_vast_client_sets w s E) as C1.
  pose proof (@steps_get_vast_client H w as_built as_built_new_client s)
    as [_ (e1 & T1 & _ & K1)].
  rewrite E in T1, K1. cbn [snd] in T1, K1.
  pose proof (steps_run_session w fuel calls s1) as [_ (e2 & T2 & _ & K2)].
  fold s2 in T2, K2. unfold client_step in K2. rewrite C1 in K2.
  destruct K2 as [C2 N2].
  split; [now apply get_vast_client_reuses|].
  split; [now exists e2|].
  exists (e1 ++ e2)%list. split; [now rewrite T2, T1, app_assoc|].
  rewrite constructions_app, N2, app_nil_r.
  unfold client_step in K1. destruct (st_vast_client s).
  - destruct K1 as [_ ->]. cbn. lia.
  - destruct K1 as [[_ ->] | (c' & _ & ->)]; cbn; lia.
Qed.

Lemma C10_witness :
  let w := Sim.plain in
  let s := Sim.boot Sim.idle in
  let c := mk_client 0 (Some "secret") DEFAULT_SERVER_URL
             [("Authorization", "Bearer secret");
              ("Accept", "application/json");
              ("Content-Type", "application/json")] in
  let s1 := snd (get_vast_client w s) in
  let s2 :=
    @run_session Sim.host Sim.os w 0
      [Call_show_user_info; Call_destroy_instance 7] s1 in
  get_vast_client w s2 = (Ok c, s2)
  /\ (exists evs, st_trace s2 = (st_trace s1 ++ evs)%list
                  /\ constructions evs = [])
  /\ (exists evs, st_trace s2 = (st_trace s ++ evs)%list
                  /\ (length (constructions evs) <= 1)%nat).
Proof.
  apply (@C10_one_client_per_process Sim.host Sim.os Sim.plain 0
           (Sim.boot Sim.idle)).
  reflexivity.
Defined.

(* ================================================================== *)
(** * The monitor and the terminator on a quiet network *)
(* ================================================================== *)

Section Snippets.
Context {H : Type} `{RemoteOS H}.
Variable w : World.

Lemma remote_part_app (a b : list event) :
  remote_part (a ++ b) = (remote_part a ++ remote_part b)%list.
Proof. unfold remote_part. now rewrite flat_map_app. Qed.

Lemma remote_part_load_events (algs : list key_alg) :
  remote_part (load_events w algs) = [].
Proof. induction algs; cbn; auto. Qed.

Lemma remote_part_remote (evs : list os_event) :
  remote_part (map EvRemote evs) = evs.
Proof.
  induction evs as [| o evs IH]; [reflexivity|].
  cbn [map]. change (remote_part (EvRemote o :: map EvRemote evs))
    with (o :: remote_part (map EvRemote evs)). now rewrite IH.
Qed.

(** A script whose output is valid UTF-8 is run and read; the program
    goes on with the stripped output. *)
Lemma yields_exec_read_then {B} ep (body : sh) (h h1 h2 : H) out ok evs
    (k : string -> M H B) (b : B) (e2 : list event) :
  (forall n, channel_fault w n = None) ->
  sh_run ep body h = (h1, out, ok, evs) ->
  decode out = inr out ->
  yields (k (strip out)) h1 b e2 h2 ->
  yields
    (r <- exec_command w ep (Script body) None;;
     x <- read_decode_strip w (ex_stdout r);; k x)
    h b
    (EvExec ep (Script body) None :: map EvRemote evs ++ e2) h2.
Proof.
  intros Q R D K s Hs.
  unfold exec_command, read_decode_strip, bind, consult, emit, remote_run,
    remote_exec.
  cbn. rewrite !Q. cbn. rewrite Hs, R. cbn. rewrite !Q, D. cbn.
  match goal with |- context [k (strip out) ?s1] =>
    destruct (K s1 eq_refl) as (s2 & E2 & T2 & R2) end.
  exists s2. split; [exact E2|]. split; [|exact R2].
  rewrite T2. cbn. now rewrite <- !app_assoc.
Qed.

Lemma run_check_cmd ep pid (h : H) :
  sh_run ep (check_cmd pid) h
  = (h, (if os_alive ep pid h then "RUNNING" else "NOT_RUNNING") ++ nl,
     true, [Probed pid (os_alive ep pid h)]).
Proof. cbn. now destruct (os_alive ep pid h). Qed.

Lemma run_check_process_cmd ep pid (h : H) :
  sh_run ep (check_process_cmd pid) h
  = (h, (if os_alive ep pid h then "RUNNING" else "STOPPED") ++ nl,
     true, [Probed pid (os_alive ep pid h)]).
Proof. cbn. now destruct (os_alive ep pid h). Qed.

Lemma run_kill_cmd ep pid (h : H) :
  let h2 := os_sleep ep 2 (os_signal ep SIGTERM pid h) in
  let still := os_alive ep pid h2 in
  sh_run ep (kill_cmd pid) h
  = (if still then os_signal ep SIGKILL pid h2 else h2,
     (if still then "FORCE_KILLED" else "TERMINATED") ++ nl,
     true,
     ([Signalled SIGTERM pid; Slept 2; Probed pid still]
      ++ (if still then [Signalled SIGKILL pid] else []))%list).
Proof.
  cbn.
  now destruct (os_alive ep pid (os_sleep ep 2 (os_signal ep SIGTERM pid h))).
Qed.

Lemma run_cleanup_cmd ep log_file pid_file (h : H) :
  sh_run ep (cleanup_cmd log_file pid_file) h
  = (os_remove ep [log_file; pid_file] h, "Cleanup attempted" ++ nl, true,
     [Removed [log_file; pid_file]]).
Proof. reflexivity. Qed.

Lemma run_log_cmd_missing ep log_file n (h : H) :
  os_is_file ep log_file h = false ->
  sh_run ep (log_cmd log_file n) h
  = (h, "Log file not found" ++ nl, true, []).
Proof. intro F. cbn. now rewrite F. Qed.

Lemma run_size_cmd_missing ep log_file (h : H) :
  os_is_file ep log_file h = false ->
  sh_run ep (size_cmd log_file) h = (h, "0" ++ nl, true, []).
Proof. intro F. cbn. now rewrite F. Qed.

End Snippets.

(** The common start of the monitor and of the terminator: the key file
    exists, the unguarded loader finds a key, the session is set up. *)
Ltac open_session key_file_exists key_parses network_ok :=
  eapply yields_try_finally; [| apply yields_close];
  unfold try_except; apply yields_try_clauses;
  (eapply yields_bind; [apply yields_os_path_exists|]);
  rewrite key_file_exists; cbn [negb];
  (eapply yields_bind;
   [apply yields_load_private_key_any; exact key_parses|]);
  cbv beta iota;
  (eapply yields_bind; [apply yields_connect; apply network_ok|]).

Section Terminator.
Context {H : Type} `{RemoteOS H}.
Variable w : World.
Variables (host user : string) (port : Z) (task_id : string) (pid : Z).
Variable key : pkey.

Local Abbreviation ep := (mk_endpoint host port user).

Hypothesis key_file_exists : path_exists w (SSH_KEY_FILE w) = true.
Hypothesis key_parses : first_parsed w probe_order = Some key.
Hypothesis network_ok : quiet_network w ep key.

(** The process is gone at the first probe. *)
Lemma yields_kill_not_running (h : H) :
  os_alive ep pid h = false ->
  exists evs,
    yields (kill w host user port task_id pid) h
      (KillReport NotRunning "Cleanup attempted") evs
      (os_remove ep [log_path task_id; pid_path task_id] h)
    /\ remote_part evs
       = [Probed pid false; Removed [log_path task_id; pid_path task_id]].
Proof.
  intro Ha. eexists. split.
  - unfold kill. open_session key_file_exists key_parses network_ok.
    eapply yields_exec_read_then;
      [apply network_ok | rewrite run_check_cmd, Ha; reflexivity
      | reflexivity |].
    change (strip ("NOT_RUNNING" ++ nl)) with "NOT_RUNNING".
    change (String.eqb "NOT_RUNNING" "NOT_RUNNING") with true. cbv iota.
    eapply yields_bind; [apply yields_ret|].
    eapply yields_exec_read_then;
      [apply network_ok | apply run_cleanup_cmd | reflexivity |].
    change (strip ("Cleanup attempted" ++ nl)) with "Cleanup attempted".
    apply yields_ret.
  - rewrite !remote_part_app, remote_part_load_events. reflexivity.
Qed.

(** The process is alive at the first probe; [still] tells whether it
    is alive at the second one. *)
Lemma yields_kill_running (h : H) :
  os_alive ep pid h = true ->
  let h2 := os_sleep ep 2 (os_signal ep SIGTERM pid h) in
  let still := os_alive ep pid h2 in
  exists evs,
    yields (kill w host user port task_id pid) h
      (KillReport (Killed (if still then "FORCE_KILLED" else "TERMINATED"))
         "Cleanup attempted")
      evs
      (os_remove ep [log_path task_id; pid_path task_id]
         (if still then os_signal ep SIGKILL pid h2 else h2))
    /\ remote_part evs
       = ([Probed pid true; Signalled SIGTERM pid; Slept 2;
           Probed pid still]
          ++ (if still then [Signalled SIGKILL pid] else [])
          ++ [Removed [log_path task_id; pid_path task_id]])%list.
Proof.
  intros Ha h2 still. eexists. split.
  - unfold kill. open_session key_file_exists key_parses network_ok.
    eapply yields_exec_read_then;
      [apply network_ok | rewrite run_check_cmd, Ha; reflexivity
      | reflexivity |].
    change (strip ("RUNNING" ++ nl)) with "RUNNING".
    change (String.eqb "RUNNING" "NOT_RUNNING") with false. cbv iota.
    eapply yields_bind.
    + eapply yields_exec_read_then;
        [apply network_ok | apply run_kill_cmd
        | fold h2; fold still; destruct still; reflexivity
        | apply yields_ret].
    + fold h2. fold still.
      eapply yields_exec_read_then;
        [apply network_ok | apply run_cleanup_cmd | reflexivity |].
      change (strip ("Cleanup attempted" ++ nl)) with "Cleanup attempted".
      replace (strip ((if still then "FORCE_KILLED" else "TERMINATED") ++ nl))
        with (if still then "FORCE_KILLED" else "TERMINATED")
        by (destruct still; reflexivity).
      apply yields_ret.
  - rewrite !remote_part_app, remote_part_load_events.
    fold h2. fold still. destruct still; reflexivity.
Qed.

End Terminator.

Section Monitor.
Context {H : Type} `{RemoteOS H}.
Variable w : World.
Variables (host user : string) (port : Z) (task_id : string) (pid n : Z).
Variable key : pkey.

Local Abbreviation ep := (mk_endpoint host port user).

Hypothesis key_file_exists : path_exists w (SSH_KEY_FILE w) = true.
Hypothesis key_parses : first_parsed w probe_order = Some key.
Hypothesis network_ok : quiet_network w ep key.

(** The log file of the task does not exist. *)
Lemma yields_check_missing_log (h : H) :
  os_is_file ep (log_path task_id) h = false ->
  exists evs,
    yields (check w host user port task_id pid n) h
      (CheckReport (if os_alive ep pid h then "RUNNING" else "STOPPED")
         "Log file not found" "0")
      evs h.
Proof.
  intro F. eexists. unfold check.
  open_session key_file_exists key_parses network_ok.
  eapply yields_exec_read_then;
    [apply network_ok | apply run_check_process_cmd
    | destruct (os_alive ep pid h); reflexivity |].
  replace (strip ((if os_alive ep pid h then "RUNNING" else "STOPPED") ++ nl))
    with (if os_alive ep pid h then "RUNNING" else "STOPPED")
    by (destruct (os_alive ep pid h); reflexivity).
  eapply yields_exec_read_then;
    [apply network_ok | apply run_log_cmd_missing; exact F | reflexivity |].
  change (strip ("Log file not found" ++ nl)) with "Log file not found".
  eapply yields_exec_read_then;
    [apply network_ok | apply run_size_cmd_missing; exact F | reflexivity |].
  change (strip ("0" ++ nl)) with "0".
  apply yields_ret.
Qed.

End Monitor.

(** C5: when the first liveness probe of [ssh_kill_background_task]
    finds the process not running, the outcome is "not running"
    (ALREADY_STOPPED), the remote host sees the probe and then the
    removal of the two artifact files and nothing else: no signal, neither
    the graceful nor the forceful one, is sent. *)
Theorem C5_stopped_task_is_not_signalled :
  forall (H : Type) (os : RemoteOS H) (w : World) (host user : string)
         (port : Z) (task_id : string) (pid : Z) (key : pkey) (s : State H),
    path_exists w (SSH_KEY_FILE w) = true ->
    first_parsed w probe_order = Some key ->
    quiet_network w (mk_endpoint host port user) key ->
    os_alive (mk_endpoint host port user) pid (st_remote s) = false ->
    exists s' evs,
      kill w host user port task_id pid s
      = (Ok (KillReport NotRunning "Cleanup attempted"), s')
      /\ st_trace s' = (st_trace s ++ evs)%list
      /\ remote_part evs
         = [Probed pid false; Removed [log_path task_id; pid_path task_id]].
Proof.
  intros H os w host user port task_id pid key s Hx Hk Hn Ha.
  destruct (@yields_kill_not_running H os w host user port task_id pid key
              Hx Hk Hn (st_remote s) Ha) as (evs & Y & R).
  destruct (Y s eq_refl) as (s' & E & T & _).
  exists s', evs. auto.
Qed.

Lemma C5_witness :
  exists s' evs,
    @kill Sim.host Sim.os Sim.plain "203.0.113.7" "root" 22 "t1" 4242
      (Sim.boot Sim.idle)
    = (Ok (KillReport NotRunning "Cleanup attempted"), s')
    /\ st_trace s' = (st_trace (Sim.boot Sim.idle) ++ evs)%list
    /\ remote_part evs
       = [Probed 4242 false; Removed [log_path "t1"; pid_path "t1"]].
Proof.
  apply (@C5_stopped_task_is_not_signalled Sim.host Sim.os Sim.plain
           "203.0.113.7" "root" 22 "t1" 4242
           (mk_pkey RSAKey Sim.key_file) (Sim.boot Sim.idle)).
  - reflexivity.
  - reflexivity.
  - split; intros; reflexivity.
  - reflexivity.
Defined.

(** C4: when the process is alive at the first probe,
    [ssh_kill_background_task] sends SIGTERM, waits the one grace period
    of two seconds and probes again.  If the process is still alive it
    then sends SIGKILL and reports FORCE_KILLED; if it is gone it sends
    nothing more and reports TERMINATED.  Either way the remote host sees
    exactly this sequence, so SIGKILL never comes before the wait. *)
Theorem C4_escalation_after_one_grace_period :
  forall (H : Type) (os : RemoteOS H) (w : World) (host user : string)
         (port : Z) (task_id : string) (pid : Z) (key : pkey) (s : State H),
    path_exists w (SSH_KEY_FILE w) = true ->
    first_parsed w probe_order = Some key ->
    quiet_network w (mk_endpoint host port user) key ->
    os_alive (mk_endpoint host port user) pid (st_remote s) = true ->
    let ep := mk_endpoint host port user in
    let still :=
      os_alive ep pid (os_sleep ep 2 (os_signal ep SIGTERM pid (st_remote s)))
    in
    exists s' evs,
      kill w host user port task_id pid s
      = (Ok (KillReport
               (Killed (if still then "FORCE_KILLED" else "TERMINATED"))
               "Cleanup attempted"), s')
      /\ st_trace s' = (st_trace s ++ evs)%list
      /\ remote_part evs
         = ([Probed pid true; Signalled SIGTERM pid; Slept 2;
             Probed pid still]
            ++ (if still then [Signalled SIGKILL pid] else [])
            ++ [Removed [log_path task_id; pid_path task_id]])%list.
Proof.
  intros H os w host user port task_id pid key s Hx Hk Hn Ha ep still.
  destruct (@yields_kill_running H os w host user port task_id pid key
              Hx Hk Hn (st_remote s) Ha) as (evs & Y & R).
  destruct (Y s eq_refl) as (s' & E & T & _).
  exists s', evs. auto.
Qed.

Lemma C4_witness :
  exists s' evs,
    @kill Sim.host Sim.os Sim.plain "203.0.113.7" "root" 22 "t1" 4242
      (Sim.boot Sim.stubborn)
    = (Ok (KillReport (Killed "FORCE_KILLED") "Cleanup attempted"), s')
    /\ st_trace s' = (st_trace (Sim.boot Sim.stubborn) ++ evs)%list
    /\ remote_part evs
       = [Probed 4242 true; Signalled SIGTERM 4242; Slept 2;
          Probed 4242 true; Signalled SIGKILL 4242;
          Removed [log_path "t1"; pid_path "t1"]].
Proof.
  apply (@C4_escalation_after_one_grace_period Sim.host Sim.os Sim.plain
           "203.0.113.7" "root" 22 "t1" 4242
           (mk_pkey RSAKey Sim.key_file) (Sim.boot Sim.stubborn)).
  - reflexivity.
  - reflexivity.
  - split; intros; reflexivity.
  - reflexivity.
Defined.

(** A process that exits on SIGTERM is reported TERMINATED and is not
    sent SIGKILL. *)
Example polite_process_is_terminated :
  let '(r, s') :=
    @kill Sim.host Sim.os Sim.plain "203.0.113.7" "root" 22 "t1" 4242
      (Sim.boot Sim.polite) in
  r = Ok (KillReport (Killed "TERMINATED") "Cleanup attempted")
  /\ remote_part (st_trace s')
     = [Probed 4242 true; Signalled SIGTERM 4242; Slept 2;
        Probed 4242 false; Removed [log_path "t1"; pid_path "t1"]].
Proof. vm_compute. auto. Qed.

(** C2, as the claim states it, fails: for a task whose log file does
    not exist the log tail of the status report is not empty. *)
Lemma C2_missing_log_gives_a_message :
  os_is_file Sim.root (log_path "t1") Sim.idle = false
  /\ fst (@check Sim.host Sim.os Sim.plain "203.0.113.7" "root" 22 "t1"
            4242 50 (Sim.boot Sim.idle))
     = Ok (CheckReport "STOPPED" "Log file not found" "0")
  /\ "Log file not found" <> EmptyString.
Proof. repeat split; try reflexivity. discriminate. Qed.

(** C2, amended: for a task whose log file does not exist the status
    operation still succeeds; the log tail of its report is the message
    "Log file not found" and the line count is "0". *)
Theorem C2_missing_log_is_reported_not_raised :
  forall (H : Type) (os : RemoteOS H) (w : World) (host user : string)
         (port : Z) (task_id : string) (pid tail_lines : Z) (key : pkey)
         (s : State H),
    path_exists w (SSH_KEY_FILE w) = true ->
    first_parsed w probe_order = Some key ->
    quiet_network w (mk_endpoint host port user) key ->
    os_is_file (mk_endpoint host port user) (log_path task_id) (st_remote s)
    = false ->
    exists s' process_status,
      check w host user port task_id pid tail_lines s
      = (Ok (CheckReport process_status "Log file not found" "0"), s')
      /\ process_status
         = (if os_alive (mk_endpoint host port user) pid (st_remote s)
            then "RUNNING" else "STOPPED").
Proof.
  intros H os w host user port task_id pid n key s Hx Hk Hn F.
  destruct (@yields_check_missing_log H os w host user port task_id pid n
              key Hx Hk Hn (st_remote s) F) as (evs & Y).
  destruct (Y s eq_refl) as (s' & E & _).
  exists s'. eexists. split; [exact E | reflexivity].
Qed.

Lemma C2_witness :
  exists s' process_status,
    @check Sim.host Sim.os Sim.plain "203.0.113.7" "root" 22 "t1" 4242 50
      (Sim.boot Sim.idle)
    = (Ok (CheckReport process_status "Log file not found" "0"), s')
    /\ process_status
       = (if os_alive Sim.root 4242 (st_remote (Sim.boot Sim.idle))
          then "RUNNING" else "STOPPED").
Proof.
  apply (@C2_missing_log_is_reported_not_raised Sim.host Sim.os Sim.plain
           "203.0.113.7" "root" 22 "t1" 4242 50
           (mk_pkey RSAKey Sim.key_file) (Sim.boot Sim.idle)).
  - reflexivity.
  - reflexivity.
  - split; intros; reflexivity.
  - reflexivity.
Defined.

(* ================================================================== *)
(** * The launcher on a quiet network *)
(* ================================================================== *)

Section Launcher.
Context {H : Type} `{RemoteOS H}.
Variable w : World.
Variables (host user : string) (port : Z) (command : string).
Variable key : pkey.

Local Abbreviation ep := (mk_endpoint host port user).

Hypothesis key_file_exists : path_exists w (SSH_KEY_FILE w) = true.
Hypothesis key_is_open : asks_passphrase w RSAKey = false.
Hypothesis key_parses : first_parsed w probe_order = Some key.
Hypothesis network_ok : quiet_network w ep key.

Lemma decode_valid (bytes : string) :
  utf8_ok [] bytes = true -> decode bytes = inr bytes.
Proof. unfold decode. now intros ->. Qed.

(** A command line is run and both of its streams, valid UTF-8, are
    read; the program goes on with the stripped texts. *)
Lemma yields_exec_line_then {B} (line : string) (h h1 h2 : H)
    (r : exec_result) (k : exec_result -> string -> string -> M H B) (b : B)
    (e2 : list event) :
  os_shell ep line h = (r, h1) ->
  utf8_ok [] (ex_stdout r) = true ->
  utf8_ok [] (ex_stderr r) = true ->
  yields (k r (strip (ex_stdout r)) (strip (ex_stderr r))) h1 b e2 h2 ->
  yields
    (r <- exec_command w ep (Line line) None;;
     o <- read_decode_strip w (ex_stdout r);;
     e <- read_decode_strip w (ex_stderr r);; k r o e)
    h b (EvExec ep (Line line) None :: EvRemote (Ran line) :: e2) h2.
Proof.
  intros R D1 D2 K s Hs. destruct network_ok as [_ Q].
  apply decode_valid in D1, D2.
  unfold exec_command, read_decode_strip, bind, consult, emit, remote_run,
    remote_exec.
  cbn. rewrite !Q. cbn. rewrite Hs, R. cbn. rewrite !Q, D1. cbn.
  rewrite !Q, D2. cbn.
  match goal with |- context [k r _ _ ?s1] =>
    destruct (K s1 eq_refl) as (s2 & E2 & T2 & R2) end.
  exists s2. split; [exact E2|]. split; [|exact R2].
  rewrite T2. cbn. now rewrite <- !app_assoc.
Qed.

(** What the launcher returns once the snippet has run. *)
Lemma yields_launch_task (task_id : string) (h h1 : H) (r : exec_result) :
  os_shell ep (bg_command (pid_path task_id) (log_path task_id) command) h
  = (r, h1) ->
  utf8_ok [] (ex_stdout r) = true ->
  utf8_ok [] (ex_stderr r) = true ->
  exists evs,
    yields (launch_task w task_id host user port command) h
      (if nonempty (strip (ex_stderr r)) || negb (ex_status r =? 0)
       then LaunchError (strip (ex_stderr r)) (ex_status r)
       else match int (strip (ex_stdout r)) with
            | None => LaunchPidUnparsed (strip (ex_stdout r))
            | Some process_id =>
                LaunchStarted task_id process_id (log_path task_id)
                  (pid_path task_id)
            end)
      evs h1.
Proof.
  intros R D1 D2. eexists. unfold launch_task. cbv zeta.
  eapply yields_try_finally; [| apply yields_close].
  unfold try_except. apply yields_try_clauses.
  eapply yields_bind; [apply yields_os_path_exists|].
  rewrite key_file_exists. cbn [negb].
  eapply yields_bind;
    [apply yields_load_private_key; [exact key_is_open | exact key_parses]|].
  cbv beta iota.
  eapply yields_bind; [apply yields_connect; apply network_ok|].
  eapply yields_exec_line_then; [exact R | exact D1 | exact D2 |].
  destruct (nonempty (strip (ex_stderr r)) || negb (ex_status r =? 0));
    [apply yields_ret|].
  destruct (int (strip (ex_stdout r))); apply yields_ret.
Qed.

End Launcher.

Lemma nonempty_iff (s : string) : nonempty s = true <-> s <> EmptyString.
Proof. destruct s; cbn; split; congruence. Qed.

(** C3, as the claim states it, fails: a snippet that exits with status
    zero and prints a process id still fails the launch when anything was
    written to standard error. *)
Lemma C3_stderr_alone_fails_the_launch :
  let r := Sim.answer Sim.noisy "any command line" in
  ex_status r = 0
  /\ int (strip (ex_stdout r)) = Some 4242
  /\ fst (launch Sim.plain "203.0.113.7" "root" 22 "sleep 5 && echo done"
            None (Sim.boot Sim.noisy))
     = Ok (LaunchError
             "bash: warning: setlocale: LC_ALL: cannot change locale" 0)
  /\ launch_failure
       (LaunchError
          "bash: warning: setlocale: LC_ALL: cannot change locale" 0)
     = true.
Proof. repeat split; reflexivity. Qed.

(** C3, amended: once the session is set up and the snippet has run, the
    launch fails with "Error starting background task" or "Failed to
    parse process ID" exactly when the snippet wrote to standard error,
    or exited with a non-zero status, or printed something that is no
    integer; otherwise it returns the task handle: the task id, the
    process id the snippet printed, and the two paths made from the
    task id. *)
Theorem C3_launch_fails_on_stderr_status_or_pid :
  forall (H : Type) (os : RemoteOS H) (w : World) (host user : string)
         (port : Z) (command : string) (task_name : option string)
         (key : pkey) (s : State H),
    path_exists w (SSH_KEY_FILE w) = true ->
    asks_passphrase w RSAKey = false ->
    first_parsed w probe_order = Some key ->
    quiet_network w (mk_endpoint host port user) key ->
    let task_id := new_task_id (uuid4 w (st_tick s)) task_name in
    let r :=
      fst (os_shell (mk_endpoint host port user)
             (bg_command (pid_path task_id) (log_path task_id) command)
             (st_remote s)) in
    utf8_ok [] (ex_stdout r) = true ->
    utf8_ok [] (ex_stderr r) = true ->
    exists reply s',
      launch w host user port command task_name s = (Ok reply, s')
      /\ (launch_failure reply = true
          <-> strip (ex_stderr r) <> EmptyString
              \/ ex_status r <> 0
              \/ int (strip (ex_stdout r)) = None)
      /\ (launch_failure reply = false ->
          exists process_id,
            int (strip (ex_stdout r)) = Some process_id
            /\ reply = LaunchStarted task_id process_id (log_path task_id)
                         (pid_path task_id)).
Proof.
  intros H os w host user port command task_name key s Hx Ho Hk Hn
    task_id r D1 D2.
  destruct (os_shell (mk_endpoint host port user)
              (bg_command (pid_path task_id) (log_path task_id) command)
              (st_remote s)) as [r0 h1] eqn:R.
  subst r. cbn [fst] in *.
  destruct (@yields_launch_task H os w host user port command key Hx Ho Hk
              Hn task_id (st_remote s) h1 r0 R D1 D2) as (evs & Y).
  destruct (Y (snd (consult w s)) eq_refl) as (s' & E & _).
  eexists. exists s'. split; [exact E|].
  destruct (nonempty (strip (ex_stderr r0))) eqn:N; cbn [orb].
  - split; [split; [intros _ | reflexivity] | discriminate].
    left. now apply nonempty_iff.
  - assert (N' : strip (ex_stderr r0) = EmptyString).
    { destruct (strip (ex_stderr r0)); [reflexivity | discriminate]. }
    destruct (ex_status r0 =? 0) eqn:Z0; cbn [negb].
    + apply Z.eqb_eq in Z0.
      destruct (int (strip (ex_stdout r0))) as [p |]; cbn.
      * split; [|eauto]. split; [discriminate|].
        intros [B | [B | B]]; [now elim B | now elim B | discriminate].
      * split; [|discriminate]. split; auto.
    + apply Z.eqb_neq in Z0. split; [|discriminate].
      split; auto.
Qed.

Lemma C3_witness :
  let w := Sim.plain in
  let s := Sim.boot Sim.quiet in
  let task_id := new_task_id (uuid4 w (st_tick s)) (Some "job") in
  let r :=
    fst (os_shell Sim.root
           (bg_command (pid_path task_id) (log_path task_id) "sleep 5")
           (st_remote s)) in
  exists reply s',
    launch w "203.0.113.7" "root" 22 "sleep 5" (Some "job") s
    = (Ok reply, s')
    /\ (launch_failure reply = true
        <-> strip (ex_stderr r) <> EmptyString
            \/ ex_status r <> 0
            \/ int (strip (ex_stdout r)) = None)
    /\ (launch_failure reply = false ->
        exists process_id,
          int (strip (ex_stdout r)) = Some process_id
          /\ reply = LaunchStarted task_id process_id (log_path task_id)
                       (pid_path task_id)).
Proof.
  apply (@C3_launch_fails_on_stderr_status_or_pid Sim.host Sim.os Sim.plain
           "203.0.113.7" "root" 22 "sleep 5" (Some "job")
           (mk_pkey RSAKey Sim.key_file) (Sim.boot Sim.quiet)).
  - reflexivity.
  - reflexivity.
  - reflexivity.
  - split; intros; reflexivity.
  - reflexivity.
  - reflexivity.
Defined.

(** On the quiet host the launch returns the handle. *)
Example launch_returns_the_handle :
  fst (launch Sim.plain "203.0.113.7" "root" 22 "sleep 5" (Some "job")
         (Sim.boot Sim.quiet))
  = Ok (LaunchStarted "job_1b9d6bcd" 4242 "/tmp/ssh_task_job_1b9d6bcd.log"
          "/tmp/ssh_task_job_1b9d6bcd.pid").
Proof. reflexivity. Qed.

(* ================================================================== *)
(** * The artifact paths *)
(* ================================================================== *)

Section Ensures.
Context {H : Type}.

Lemma ensures_ret {A} (Q : A -> Prop) (a : A) : Q a -> ensures Q (@ret H A a).
Proof. intros Ha s a' s' [= <- _]. exact Ha. Qed.

Lemma ensures_bind {A B} (Q : B -> Prop) (m : M H A) (k : A -> M H B) :
  (forall a, ensures Q (k a)) -> ensures Q (bind m k).
Proof.
  intros Hk s b s'. unfold bind.
  destruct (m s) as [[a | e |] s1]; try discriminate. apply Hk.
Qed.

Lemma ensures_select {A} (Q : A -> Prop) (e : exn)
    (clauses : list (exn_class * (exn -> M H A))) :
  Forall (fun c => forall e, ensures Q (snd c e)) clauses ->
  ensures Q (select e clauses).
Proof.
  induction 1 as [| [cls h] rest Hh _ IH]; cbn [select].
  - intros s a s'. discriminate.
  - destruct (isinstance e cls); [apply (Hh e) | apply IH].
Qed.

Lemma ensures_try_except {A} (Q : A -> Prop) (m : M H A) (h : exn -> M H A) :
  ensures Q m -> (forall e, ensures Q (h e)) -> ensures Q (try_except m h).
Proof.
  intros Hm Hh s a s'. unfold try_except, try_clauses.
  destruct (m s) as [[a' | e |] s1] eqn:E; try discriminate.
  - intros [= <- <-]. eapply Hm, E.
  - apply ensures_select. repeat constructor. exact Hh.
Qed.

Lemma ensures_try_finally {A} (Q : A -> Prop) (m : M H A) (fin : M H unit) :
  ensures Q m -> ensures Q (try_finally m fin).
Proof.
  intros Hm s a s'. unfold try_finally.
  destruct (m s) as [[a' | e |] s1] eqn:E; try discriminate;
    destruct (fin s1) as [[[] | e' |] s2]; try discriminate.
  intros [= <- _]. eapply Hm, E.
Qed.

End Ensures.

Ltac walk_ensures :=
  repeat first
    [ progress intros
    | match goal with
      | |- ensures _ (ret _) => apply ensures_ret; cbn; auto
      | |- ensures _ (try_finally _ _) => apply ensures_try_finally
      | |- ensures _ (try_except _ _) => apply ensures_try_except
      | |- ensures _ (bind _ _) => apply ensures_bind
      | |- ensures _ (match ?x with _ => _ end) => destruct x
      end ].

Section Paths.
Context {H : Type} `{RemoteOS H}.
Variable w : World.

Lemma launch_task_handle task_id host user port command :
  ensures (handle_of task_id) (launch_task w task_id host user port command).
Proof. unfold launch_task. walk_ensures. Qed.

Lemma launch_task_sends task_id host user port command :
  steps
    (sends_only [Line (bg_command (pid_path task_id) (log_path task_id)
                         command)])
    (launch_task w task_id host user port command).
Proof. unfold launch_task. walk_steps fail. Qed.

Lemma check_sends host user port task_id pid n :
  steps
    (sends_only [Script (check_process_cmd pid);
                 Script (log_cmd (log_path task_id) n);
                 Script (size_cmd (log_path task_id))])
    (check w host user port task_id pid n).
Proof. unfold check. walk_steps fail. Qed.

Lemma kill_sends host user port task_id pid :
  steps
    (sends_only [Script (check_cmd pid); Script (kill_cmd pid);
                 Script (cleanup_cmd (log_path task_id) (pid_path task_id))])
    (kill w host user port task_id pid).
Proof. unfold kill. walk_steps fail. Qed.

End Paths.

Lemma commands_of_sends_only (allowed : list command) (evs : list event) :
  Forall (sends_only allowed) evs ->
  forall cmd, In cmd (commands evs) -> In cmd allowed.
Proof.
  induction 1 as [| e evs He _ IH]; cbn; [tauto|].
  intros cmd Hc. apply in_app_or in Hc. destruct Hc as [Hc | Hc]; [|auto].
  destruct e; cbn in *; try tauto. destruct Hc as [<- | []]. exact He.
Qed.

(** C7: the artifact paths are the functions
    [/tmp/ssh_task_{task_id}.log] and [/tmp/ssh_task_{task_id}.pid] of the
    task id.  Whatever the world and the state, the monitor and the
    terminator send only commands that name these two paths, computed
    from the task id they are given, and the launcher sends the snippet
    that names the paths of the id it has generated and returns a handle
    made of that id and those paths. *)
Theorem C7_paths_are_functions_of_the_task_id :
  forall (H : Type) (os : RemoteOS H) (w : World) (host user : string)
         (port : Z) (task_id : string) (pid tail_lines : Z)
         (command : string) (task_name : option string) (s : State H),
    (log_path task_id = "/tmp/ssh_task_" ++ task_id ++ ".log"
     /\ pid_path task_id = "/tmp/ssh_task_" ++ task_id ++ ".pid")
    /\ (exists evs,
          st_trace (snd (check w host user port task_id pid tail_lines s))
          = (st_trace s ++ evs)%list
          /\ forall cmd, In cmd (commands evs) ->
               In cmd [Script (check_process_cmd pid);
                       Script (log_cmd (log_path task_id) tail_lines);
                       Script (size_cmd (log_path task_id))])
    /\ (exists evs,
          st_trace (snd (kill w host user port task_id pid s))
          = (st_trace s ++ evs)%list
          /\ forall cmd, In cmd (commands evs) ->
               In cmd [Script (check_cmd pid); Script (kill_cmd pid);
                       Script (cleanup_cmd (log_path task_id)
                                 (pid_path task_id))])
    /\ (let new_id := new_task_id (uuid4 w (st_tick s)) task_name in
        (exists evs,
           st_trace (snd (launch w host user port command task_name s))
           = (st_trace s ++ evs)%list
           /\ forall cmd, In cmd (commands evs) ->
                In cmd [Line (bg_command (pid_path new_id) (log_path new_id)
                                command)])
        /\ forall tid process_id log_file pid_file,
             fst (launch w host user port command task_name s)
             = Ok (LaunchStarted tid process_id log_file pid_file) ->
             tid = new_id /\ log_file = log_path tid
             /\ pid_file = pid_path tid).
Proof.
  intros H os w host user port task_id pid n command task_name s.
  split; [split; reflexivity|].
  split.
  { destruct (check_sends w host user port task_id pid n s)
      as [_ (evs & T & F & _)].
    exists evs. split; [exact T|]. now apply commands_of_sends_only. }
  split.
  { destruct (kill_sends w host user port task_id pid s)
      as [_ (evs & T & F & _)].
    exists evs. split; [exact T|]. now apply commands_of_sends_only. }
  intro new_id.
  assert (E : launch w host user port command task_name s
              = launch_task w new_id host user port command
                  (snd (consult w s))) by reflexivity.
  rewrite E. split.
  - destruct (launch_task_sends w new_id host user port command
                (snd (consult w s))) as [_ (evs & T & F & _)].
    exists evs. split; [exact T|]. now apply commands_of_sends_only.
  - intros tid p lf pf R.
    destruct (launch_task w new_id host user port command
                (snd (consult w s))) as [o s'] eqn:L.
    cbn in R. subst o.
    exact (@launch_task_handle H os w new_id host user port command _ _ _ L).
Qed.

(* ================================================================== *)
(** * Passphrase-protected keys *)
(* ================================================================== *)

Section Passphrase.
Context {H : Type} `{RemoteOS H}.
Variable w : World.

Hypothesis key_file_exists : path_exists w (SSH_KEY_FILE w) = true.
Hypothesis rsa_asks : asks_passphrase w RSAKey = true.

(** Where the RSA attempt has its clause for the passphrase error, and
    it is the RSA parser that raises it, the launcher stops there. *)
Lemma launch_task_stops_at_passphrase task_id host user port command (h : H) :
  yields (launch_task w task_id host user port command) h LaunchKeyEncrypted
    (load_events w [RSAKey] ++ [EvClose]) h.
Proof.
  unfold launch_task. cbv zeta.
  eapply yields_try_finally; [| apply yields_close].
  unfold try_except. apply yields_try_clauses.
  change (load_events w [RSAKey]) with ([] ++ load_events w [RSAKey])%list.
  eapply yields_bind; [apply yields_os_path_exists|].
  rewrite key_file_exists. cbn [negb].
  rewrite <- (app_nil_r (load_events w [RSAKey])).
  eapply yields_bind;
    [apply yields_load_private_key_encrypted; exact rsa_asks|].
  apply yields_ret.
Qed.

(** So does the one-shot helper. *)
Lemma _execute_ssh_command_stops_at_passphrase host user port command (h : H) :
  yields (_execute_ssh_command w host user port command) h
    (failed ("Private key at " ++ SSH_KEY_FILE w
             ++ " is encrypted with a passphrase"))
    (load_events w [RSAKey] ++ [EvClose]) h.
Proof.
  unfold _execute_ssh_command.
  eapply yields_try_finally; [| apply yields_close].
  apply yields_try_clauses.
  change (load_events w [RSAKey]) with ([] ++ load_events w [RSAKey])%list.
  eapply yields_bind; [apply yields_os_path_exists|].
  rewrite key_file_exists. cbn [negb].
  rewrite <- (app_nil_r (load_events w [RSAKey])).
  eapply yields_bind;
    [apply yields_load_private_key_encrypted; exact rsa_asks|].
  apply yields_ret.
Qed.

End Passphrase.

(** C1 does not hold of the code.  With an RSA key that is encrypted
    with a passphrase, the monitor and the terminator, which have no
    clause for the passphrase error, go on to try Ed25519, ECDSA and DSS
    and report the generic "Error loading private key".  With an
    encrypted ECDSA key in PEM format, for which the RSA and Ed25519
    parsers raise a plain [SSHException] and the ECDSA parser asks for
    the passphrase, the launcher and the one-shot helper swallow the
    passphrase error in a bare [except:] and report the generic "Could
    not load private key". *)
Theorem C1_passphrase_error_is_swallowed :
  let rsa := Sim.world Sim.encrypted_rsa_key (JDict []) in
  let ec := Sim.world Sim.encrypted_ecdsa_key (JDict []) in
  let s := Sim.boot Sim.stubborn in
  let asked := mk_exn PasswordRequiredException "Private key file is encrypted"
  in
  let mismatch := mk_exn SSHException "encountered EC key, expected RSA key"
  in
  (* an encrypted RSA key: the monitor and the terminator *)
  (passphrase_protected rsa = true
   /\ fst (check rsa "203.0.113.7" "root" 22 "t1" 4242 50 s)
      = Ok (CheckKeyUnusable asked)
   /\ key_attempts
        (st_trace (snd (check rsa "203.0.113.7" "root" 22 "t1" 4242 50 s)))
      = probe_order
   /\ fst (ssh_check_background_task rsa "203.0.113.7" "root" 22 "t1" 4242
             50 s)
      = Ok "Error loading private key: Private key file is encrypted"
   /\ fst (kill rsa "203.0.113.7" "root" 22 "t1" 4242 s)
      = Ok (KillKeyUnusable asked)
   /\ key_attempts
        (st_trace (snd (kill rsa "203.0.113.7" "root" 22 "t1" 4242 s)))
      = probe_order
   /\ fst (ssh_kill_background_task rsa "203.0.113.7" "root" 22 "t1" 4242 s)
      = Ok "Error loading private key: Private key file is encrypted")
  (* the same key: the launcher, which has the clause, stops at once *)
  /\ (fst (launch rsa "203.0.113.7" "root" 22 "sleep 5" None s)
      = Ok LaunchKeyEncrypted
      /\ key_attempts
           (st_trace (snd (launch rsa "203.0.113.7" "root" 22 "sleep 5"
                             None s)))
         = [RSAKey])
  (* an encrypted ECDSA key: the launcher and the one-shot helper *)
  /\ (passphrase_protected ec = true
      /\ fst (launch ec "203.0.113.7" "root" 22 "sleep 5" None s)
         = Ok (LaunchKeyUnusable mismatch)
      /\ key_attempts
           (st_trace (snd (launch ec "203.0.113.7" "root" 22 "sleep 5"
                             None s)))
         = probe_order
      /\ fst (ssh_execute_background_command ec "203.0.113.7" "root" 22
                "sleep 5" None s)
         = Ok "Error: Could not load private key from /root/.ssh/id_rsa: encountered EC key, expected RSA key"
      /\ fst (_execute_ssh_command ec (JStr "203.0.113.7") "root" (JInt 22)
                "uptime" s)
         = Ok (failed
                 "Could not load private key from /root/.ssh/id_rsa: encountered EC key, expected RSA key")
      /\ key_attempts
           (st_trace (snd (_execute_ssh_command ec (JStr "203.0.113.7")
                             "root" (JInt 22) "uptime" s)))
         = probe_order).
Proof. repeat split; reflexivity. Qed.

(* ================================================================== *)
(** * Symbolic execution of server code *)
(* ================================================================== *)

Section WpFacts.
Context {H : Type} `{RemoteOS H}.
Variable w : World.

Lemma wp_ret {A} (a : A) (Q : outcome A -> State H -> Prop) s :
  Q (Ok a) s -> wp (ret a) Q s.
Proof. exact (fun q => q). Qed.

Lemma wp_raise {A} (e : exn) (Q : outcome A -> State H -> Prop) s :
  Q (Raise e) s -> wp (raise e) Q s.
Proof. exact (fun q => q). Qed.

Lemma wp_lift {A} (r : result A) (Q : outcome A -> State H -> Prop) s :
  (forall a, r = inr a -> Q (Ok a) s) ->
  (forall e, r = inl e -> Q (Raise e) s) ->
  wp (lift r) Q s.
Proof. destruct r; unfold wp; cbn; auto. Qed.

Lemma wp_bind {A B} (m : M H A) (k : A -> M H B)
    (Q : outcome B -> State H -> Prop) s :
  wp m (fun o s1 =>
          match o with
          | Ok a => wp (k a) Q s1
          | Raise e => Q (Raise e) s1
          | OutOfFuel => Q OutOfFuel s1
          end) s ->
  wp (bind m k) Q s.
Proof. unfold wp, bind. destruct (m s) as [[a | e |] s1]; auto. Qed.

Lemma wp_select_nil {A} (e : exn) (Q : outcome A -> State H -> Prop) s :
  Q (Raise e) s -> wp (select e []) Q s.
Proof. exact (fun q => q). Qed.

Lemma wp_select_cons {A} (e : exn) cls (h : exn -> M H A) rest
    (Q : outcome A -> State H -> Prop) s :
  (isinstance e cls = true -> wp (h e) Q s) ->
  (isinstance e cls = false -> wp (select e rest) Q s) ->
  wp (select e ((cls, h) :: rest)) Q s.
Proof. unfold wp. cbn [select]. destruct (isinstance e cls); auto. Qed.

Lemma wp_select_Exception {A} (e : exn) (h : exn -> M H A) rest
    (Q : outcome A -> State H -> Prop) s :
  wp (h e) Q s -> wp (select e ((Exception, h) :: rest)) Q s.
Proof. unfold wp. cbn [select]. now rewrite isinstance_Exception. Qed.

Lemma wp_try_clauses {A} (m : M H A) clauses
    (Q : outcome A -> State H -> Prop) s :
  wp m (fun o s1 =>
          match o with
          | Raise e => wp (select e clauses) Q s1
          | _ => Q o s1
          end) s ->
  wp (try_clauses m clauses) Q s.
Proof. unfold wp, try_clauses. destruct (m s) as [[a | e |] s1]; auto. Qed.

Lemma wp_try_except {A} (m : M H A) (h : exn -> M H A)
    (Q : outcome A -> State H -> Prop) s :
  wp m (fun o s1 =>
          match o with
          | Raise e => wp (h e) Q s1
          | _ => Q o s1
          end) s ->
  wp (try_except m h) Q s.
Proof.
  intro Hm. apply wp_try_clauses. revert Hm. unfold wp.
  destruct (m s) as [[a | e |] s1]; cbn [fst snd select]; auto.
  now rewrite isinstance_Exception.
Qed.

Lemma wp_try_finally {A} (m : M H A) (fin : M H unit)
    (Q : outcome A -> State H -> Prop) s :
  wp m (fun o s1 =>
          match o with
          | OutOfFuel => Q OutOfFuel s1
          | _ =>
              wp fin (fun o2 s2 =>
                        match o2 with
                        | Ok _ => Q o s2
                        | Raise e => Q (Raise e) s2
                        | OutOfFuel => Q OutOfFuel s2
                        end) s1
          end) s ->
  wp (try_finally m fin) Q s.
Proof.
  unfold wp, try_finally.
  destruct (m s) as [[a | e |] s1]; cbn [fst snd]; auto;
    destruct (fin s1) as [[[] | e' |] s2]; auto.
Qed.

Lemma wp_conseq {A} (m : M H A) (Q Q' : outcome A -> State H -> Prop) s :
  wp m Q s -> (forall o s1, Q o s1 -> Q' o s1) -> wp m Q' s.
Proof. unfold wp. auto. Qed.

End WpFacts.

Section WpPrimitives.
Context {H : Type} `{RemoteOS H}.
Variable w : World.
Variables (A : Type) (Q : outcome A -> State H -> Prop).

Lemma wp_emit (evs : list event) (K : outcome unit -> State H -> Prop) s :
  K (Ok tt) (logged s evs) -> wp (emit evs) K s.
Proof. exact (fun q => q). Qed.

Lemma wp_close (K : outcome unit -> State H -> Prop) s :
  K (Ok tt) (logged s [EvClose]) -> wp close K s.
Proof. exact (fun q => q). Qed.

Lemma wp_consult (K : outcome nat -> State H -> Prop) s :
  K (Ok (st_tick s)) (asked w s) -> wp (consult w) K s.
Proof. exact (fun q => q). Qed.

Lemma wp_time_time (K : outcome Z -> State H -> Prop) s :
  K (Ok (st_now s)) s -> wp time_time K s.
Proof. exact (fun q => q). Qed.

Lemma wp_time_sleep ms (K : outcome unit -> State H -> Prop) s :
  K (Ok tt) (slept ms s) -> wp (time_sleep ms) K s.
Proof. exact (fun q => q). Qed.

Lemma wp_time_strftime (K : outcome string -> State H -> Prop) s :
  K (Ok (strftime w (st_tick s))) (asked w s) -> wp (time_strftime w) K s.
Proof. exact (fun q => q). Qed.

Lemma wp_uuid_uuid4 (K : outcome string -> State H -> Prop) s :
  K (Ok (uuid4 w (st_tick s))) (asked w s) -> wp (uuid_uuid4 w) K s.
Proof. exact (fun q => q). Qed.

Lemma wp_os_path_exists path (K : outcome bool -> State H -> Prop) s :
  K (Ok (path_exists w path)) s -> wp (os_path_exists w path) K s.
Proof. exact (fun q => q). Qed.

Lemma wp_open_read path (K : outcome string -> State H -> Prop) s :
  (forall text, read_text w path = inr text -> K (Ok text) s) ->
  (forall e, read_text w path = inl e -> K (Raise e) s) ->
  wp (open_read w path) K s.
Proof. apply wp_lift. Qed.

Lemma wp_from_private_key_file alg path
    (K : outcome pkey -> State H -> Prop) s :
  (forall k, parse_private_key w alg path = inr k ->
     K (Ok k) (logged s [EvLoadKey alg path])) ->
  (forall e, parse_private_key w alg path = inl e ->
     K (Raise e) (logged s [EvLoadKey alg path])) ->
  wp (from_private_key_file w alg path) K s.
Proof.
  intros Hk He. unfold wp, from_private_key_file, bind, emit, lift.
  cbn. destruct (parse_private_key w alg path); cbn; auto.
Qed.

Lemma wp_connect ep key timeout (K : outcome unit -> State H -> Prop) s :
  (connect_fault w (st_tick s) ep key = None ->
   K (Ok tt) (logged (asked w s) [EvConnect ep timeout])) ->
  (forall e, connect_fault w (st_tick s) ep key = Some e ->
   K (Raise e) (logged (asked w s) [EvConnect ep timeout])) ->
  wp (connect w ep key timeout) K s.
Proof.
  intros Hk He. unfold wp, connect, bind, consult, emit. cbn.
  destruct (connect_fault w (st_tick s) ep key); cbn; auto.
Qed.

Lemma wp_exec_command ep cmd timeout
    (K : outcome exec_result -> State H -> Prop) s :
  (channel_fault w (st_tick s) = None ->
   K (Ok (fst (fst (remote_exec ep cmd (st_remote s)))))
     (ran ep cmd (logged (asked w s) [EvExec ep cmd timeout]))) ->
  (forall e, channel_fault w (st_tick s) = Some e ->
   K (Raise e) (logged (asked w s) [EvExec ep cmd timeout])) ->
  wp (exec_command w ep cmd timeout) K s.
Proof.
  intros Hk He. unfold wp, exec_command, bind, consult, emit. cbn.
  destruct (channel_fault w (st_tick s)); cbn; auto.
  specialize (Hk eq_refl). revert Hk. unfold ran, remote_run. cbn.
  destruct (remote_exec ep cmd (st_remote s)) as [[r h'] evs]. auto.
Qed.

Lemma wp_remote_run ep cmd (K : outcome exec_result -> State H -> Prop) s :
  K (Ok (fst (fst (remote_exec ep cmd (st_remote s))))) (ran ep cmd s) ->
  wp (remote_run ep cmd) K s.
Proof.
  unfold wp, ran, remote_run.
  now destruct (remote_exec ep cmd (st_remote s)) as [[r h'] evs].
Qed.

Lemma wp_read_decode_strip bytes (K : outcome string -> State H -> Prop) s :
  (forall text, channel_fault w (st_tick s) = None ->
     decode bytes = inr text -> K (Ok (strip text)) (asked w s)) ->
  (forall e, channel_fault w (st_tick s) = Some e
             \/ (channel_fault w (st_tick s) = None /\ decode bytes = inl e) ->
     K (Raise e) (asked w s)) ->
  wp (read_decode_strip w bytes) K s.
Proof.
  intros Hk He. unfold wp, read_decode_strip, bind, consult. cbn.
  destruct (channel_fault w (st_tick s)); cbn; auto.
  destruct (decode bytes); cbn; auto.
Qed.

Lemma wp_session_request rq (K : outcome http_response -> State H -> Prop) s :
  (forall response, http w (st_tick s) rq = inr response ->
     K (Ok response) (logged (asked w s) [EvSessionRequest rq])) ->
  (forall e, http w (st_tick s) rq = inl e ->
     K (Raise e) (logged (asked w s) [EvSessionRequest rq])) ->
  wp (session_request w rq) K s.
Proof.
  intros Hk He. unfold wp, session_request, bind, consult, emit. cbn.
  destruct (http w (st_tick s) rq); cbn; auto.
Qed.

Lemma wp_session_get url (K : outcome http_response -> State H -> Prop) s :
  (forall response,
     http w (st_tick s) (mk_request GET url [] None None) = inr response ->
     K (Ok response) (logged (asked w s) [EvSessionGet url None])) ->
  (forall e, http w (st_tick s) (mk_request GET url [] None None) = inl e ->
     K (Raise e) (logged (asked w s) [EvSessionGet url None])) ->
  wp (session_get w url) K s.
Proof.
  intros Hk He. unfold wp, session_get, bind, consult, emit. cbn.
  destruct (http w (st_tick s) (mk_request GET url [] None None)); cbn; auto.
Qed.

Lemma wp_session_get_any result_url
    (K : outcome http_response -> State H -> Prop) s :
  (forall url response, result_url = JStr url ->
     K (Ok response) (logged (asked w s) [EvSessionGet url None])) ->
  (forall url e, result_url = JStr url ->
     K (Raise e) (logged (asked w s) [EvSessionGet url None])) ->
  (forall e, K (Raise e) s) ->
  wp (session_get_any w result_url) K s.
Proof.
  intros Hk He Hn. unfold session_get_any.
  destruct result_url; try (apply wp_raise; apply Hn).
  apply wp_session_get; intros; eauto.
Qed.

Lemma wp_get_rules (K : outcome MCPRules.t -> State H -> Prop) s :
  K (Ok (st_mcp_rules s)) s -> wp get_rules K s.
Proof. exact (fun q => q). Qed.

Lemma wp_get_vast_client (K : outcome VastAIClient -> State H -> Prop) s :
  (forall c, st_vast_client s = Some c -> K (Ok c) s) ->
  (st_vast_client s = None ->
   K (Ok (new_client w (st_tick s))) (installed w s)) ->
  wp (get_vast_client w) K s.
Proof.
  intros Hc Hn. unfold wp, get_vast_client.
  destruct (st_vast_client s) as [c |]; cbn; auto.
Qed.

End WpPrimitives.

(** Projections of the states reached. *)
Section StateFacts.
Context {H : Type} `{RemoteOS H}.
Variable w : World.
Variable s : State H.

Lemma trace_logged evs : st_trace (logged s evs) = (st_trace s ++ evs)%list.
Proof. reflexivity. Qed.

Lemma trace_asked : st_trace (asked w s) = st_trace s.
Proof. reflexivity. Qed.

Lemma trace_slept ms : st_trace (slept ms s) = (st_trace s ++ [EvSleep ms])%list.
Proof. reflexivity. Qed.

Lemma trace_installed :
  st_trace (installed w s) = (st_trace s ++ [EvNewClient (st_tick s)])%list.
Proof. reflexivity. Qed.

Lemma trace_ran ep cmd :
  st_trace (ran ep cmd s)
  = (st_trace s
     ++ map EvRemote (snd (remote_exec ep cmd (st_remote s))))%list.
Proof.
  unfold ran. now destruct (remote_exec ep cmd (st_remote s)) as [[r h'] evs].
Qed.

Lemma remote_ran ep cmd :
  st_remote (ran ep cmd s) = snd (fst (remote_exec ep cmd (st_remote s))).
Proof.
  unfold ran. now destruct (remote_exec ep cmd (st_remote s)) as [[r h'] evs].
Qed.

Lemma tick_ran ep cmd : st_tick (ran ep cmd s) = st_tick s.
Proof.
  unfold ran. now destruct (remote_exec ep cmd (st_remote s)) as [[r h'] evs].
Qed.

Lemma now_ran ep cmd : st_now (ran ep cmd s) = st_now s.
Proof.
  unfold ran. now destruct (remote_exec ep cmd (st_remote s)) as [[r h'] evs].
Qed.

Lemma rules_ran ep cmd : st_mcp_rules (ran ep cmd s) = st_mcp_rules s.
Proof.
  unfold ran. now destruct (remote_exec ep cmd (st_remote s)) as [[r h'] evs].
Qed.

Lemma client_ran ep cmd : st_vast_client (ran ep cmd s) = st_vast_client s.
Proof.
  unfold ran. now destruct (remote_exec ep cmd (st_remote s)) as [[r h'] evs].
Qed.

Lemma now_logged evs : st_now (logged s evs) = st_now s.
Proof. reflexivity. Qed.

Lemma now_asked :
  st_now (asked w s) = st_now s + Z.of_N (latency w (st_tick s)).
Proof. reflexivity. Qed.

Lemma now_slept ms : st_now (slept ms s) = st_now s + Z.max 0 ms.
Proof. reflexivity. Qed.

Lemma now_installed :
  st_now (installed w s) = st_now s + Z.of_N (latency w (st_tick s)).
Proof. reflexivity. Qed.

Lemma tick_logged evs : st_tick (logged s evs) = st_tick s.
Proof. reflexivity. Qed.

Lemma tick_asked : st_tick (asked w s) = S (st_tick s).
Proof. reflexivity. Qed.

Lemma tick_slept ms : st_tick (slept ms s) = st_tick s.
Proof. reflexivity. Qed.

Lemma tick_installed : st_tick (installed w s) = S (st_tick s).
Proof. reflexivity. Qed.

Lemma remote_logged evs : st_remote (logged s evs) = st_remote s.
Proof. reflexivity. Qed.

Lemma remote_asked : st_remote (asked w s) = st_remote s.
Proof. reflexivity. Qed.

Lemma remote_slept ms : st_remote (slept ms s) = st_remote s.
Proof. reflexivity. Qed.

Lemma remote_installed : st_remote (installed w s) = st_remote s.
Proof. reflexivity. Qed.

Lemma rules_logged evs : st_mcp_rules (logged s evs) = st_mcp_rules s.
Proof. reflexivity. Qed.

Lemma rules_asked : st_mcp_rules (asked w s) = st_mcp_rules s.
Proof. reflexivity. Qed.

Lemma rules_slept ms : st_mcp_rules (slept ms s) = st_mcp_rules s.
Proof. reflexivity. Qed.

Lemma rules_installed : st_mcp_rules (installed w s) = st_mcp_rules s.
Proof. reflexivity. Qed.

Lemma client_logged evs : st_vast_client (logged s evs) = st_vast_client s.
Proof. reflexivity. Qed.

Lemma client_asked : st_vast_client (asked w s) = st_vast_client s.
Proof. reflexivity. Qed.

Lemma client_slept ms : st_vast_client (slept ms s) = st_vast_client s.
Proof. reflexivity. Qed.

Lemma client_installed :
  st_vast_client (installed w s) = Some (new_client w (st_tick s)).
Proof. reflexivity. Qed.

End StateFacts.

Create Rewrite HintDb st.

#[local] Hint Rewrite @trace_logged @trace_asked @trace_slept
  @trace_installed @trace_ran @remote_ran @tick_ran @now_ran @rules_ran
  @client_ran @now_logged @now_asked @now_slept @now_installed
  @tick_logged @tick_asked @tick_slept @tick_installed
  @remote_logged @remote_asked @remote_slept @remote_installed
  @rules_logged @rules_asked @rules_slept @rules_installed
  @client_logged @client_asked @client_slept @client_installed : st.

(** One step of symbolic execution, then the branches that cannot be
    taken are closed. *)
Ltac wp_prim :=
  lazymatch goal with
  | |- wp (ret _) _ _ => apply wp_ret
  | |- wp (raise _) _ _ => apply wp_raise
  | |- wp (lift _) _ _ => apply wp_lift; [intros ? ? | intros ? ?]
  | |- wp (bind _ _) _ _ => apply wp_bind
  | |- wp (try_clauses _ _) _ _ => apply wp_try_clauses
  | |- wp (try_except _ _) _ _ => apply wp_try_except
  | |- wp (try_finally _ _) _ _ => apply wp_try_finally
  | |- wp (select _ nil) _ _ => apply wp_select_nil
  | |- wp (select _ ((Exception, _) :: _)) _ _ => apply wp_select_Exception
  | |- wp (select _ (_ :: _)) _ _ => apply wp_select_cons; intros ?
  | |- wp (emit _) _ _ => apply wp_emit
  | |- wp close _ _ => apply wp_close
  | |- wp (consult _) _ _ => apply wp_consult
  | |- wp time_time _ _ => apply wp_time_time
  | |- wp (time_sleep _) _ _ => apply wp_time_sleep
  | |- wp (time_strftime _) _ _ => apply wp_time_strftime
  | |- wp (uuid_uuid4 _) _ _ => apply wp_uuid_uuid4
  | |- wp (os_path_exists _ _) _ _ => apply wp_os_path_exists
  | |- wp (open_read _ _) _ _ => apply wp_open_read; [intros ? ? | intros ? ?]
  | |- wp (from_private_key_file _ _ _) _ _ =>
      apply wp_from_private_key_file; [intros ? ? | intros ? ?]
  | |- wp (connect _ _ _ _) _ _ => apply wp_connect; [intros ? | intros ? ?]
  | |- wp (exec_command _ _ _ _) _ _ =>
      apply wp_exec_command; [intros ? | intros ? ?]
  | |- wp (remote_run _ _) _ _ => apply wp_remote_run
  | |- wp (read_decode_strip _ _) _ _ =>
      apply wp_read_decode_strip; [intros ? ? ? | intros ? ?]
  | |- wp (session_request _ _) _ _ =>
      apply wp_session_request; [intros ? ? | intros ? ?]
  | |- wp (session_get _ _) _ _ =>
      apply wp_session_get; [intros ? ? | intros ? ?]
  | |- wp (session_get_any _ _) _ _ =>
      apply wp_session_get_any; [intros ? ? ? | intros ? ? ? | intros ?]
  | |- wp get_rules _ _ => apply wp_get_rules
  | |- wp (get_vast_client _) _ _ =>
      apply wp_get_vast_client; [intros ? ? | intros ?]
  | |- wp (match ?x with _ => _ end) _ _ => destruct x eqn:?
  end.

Ltac wp_absurd :=
  match goal with
  | E : isinstance (mk_exn _ _) _ = _ |- _ =>
      unfold isinstance in E; cbn [exn_cls] in E; vm_compute in E;
      discriminate E
  | E : inl _ = inr _ |- _ => discriminate E
  | E : inr _ = inl _ |- _ => discriminate E
  end.

Ltac wp_run :=
  repeat (wp_prim; cbv beta iota; try wp_absurd;
          repeat match goal with
            | E : inr _ = inr ?a |- _ => is_var a; injection E as <-
            | E : inl _ = inl ?a |- _ => is_var a; injection E as <-
            end).

(** A call of a function whose behaviour a lemma [L] describes. *)
Ltac wp_call known :=
  eapply wp_conseq; [known | cbv beta; intros [? | ? |] ? ?; cbv beta iota].

(** The trace of the state reached is the trace at the start and the
    events performed. *)
Ltac trace_tail :=
  autorewrite with st; rewrite <- ?app_assoc;
  first [reflexivity | symmetry; apply app_nil_r].
(* ================================================================== *)
(** * The API client *)
(* ================================================================== *)

Section Client.
Context {H : Type} `{RemoteOS H}.
Variable w : World.

(** What [_make_request] does with a key: one request, and a document
    only from an answer 200. *)
Lemma _make_request_sends self method endpoint query_params json_data
    (s : State H) key :
  api_key self = Some key -> nonempty key = true ->
  let rq := mk_request method (_build_url self endpoint) query_params
              json_data (Some 30) in
  wp (_make_request w self method endpoint query_params json_data)
    (fun o s' =>
       s' = logged (asked w s) [EvSessionRequest rq]
       /\ o <> OutOfFuel
       /\ forall j, o = Ok j <->
            exists response,
              http w (st_tick s) rq = inr response
              /\ rs_status_code response = 200
              /\ rs_json response = inr j) s.
Proof.
  intros Hk Hn rq. unfold _make_request. rewrite Hk, Hn. cbn [negb].
  cbv zeta. fold rq. wp_run.
  all: try (split; [reflexivity|]; split; [discriminate|]).
  all: intro j; split;
    [ intro E; try discriminate E; injection E as <-; eexists;
      repeat split; eauto; now apply Z.eqb_eq
    | intros (r0 & E1 & E2 & E3); try congruence;
      match goal with
      | Hh : http _ _ _ = inr ?r |- _ => rewrite Hh in E1; injection E1 as <-
      end;
      try congruence;
      match goal with
      | Hc : context [rs_status_code _] |- _ =>
          rewrite E2 in Hc; vm_compute in Hc; discriminate Hc
      end ].
Qed.

(** Whatever the client, [_make_request] ends, and it sends at most the
    one request. *)
Lemma _make_request_at_most_once self method endpoint query_params json_data
    (s : State H) :
  let rq := mk_request method (_build_url self endpoint) query_params
              json_data (Some 30) in
  wp (_make_request w self method endpoint query_params json_data)
    (fun o s' =>
       o <> OutOfFuel
       /\ ((s' = s /\ exists e, o = Raise e)
           \/ s' = logged (asked w s) [EvSessionRequest rq])) s.
Proof.
  intro rq. unfold _make_request. cbv zeta. fold rq. wp_run.
  all: split; [discriminate|]; eauto.
Qed.

End Client.

(** X1: [_make_request] (lines 170-191).  With an API key the client sends
    exactly one request: the method, the URL [server_url/api/v0/endpoint],
    the query parameters and the body it was given, and a timeout of
    thirty seconds.  It returns a document exactly when the answer has
    status 200 and a body that decodes to this document; any other
    answer, a 201 or a 204 as well, ends in an exception.  Without a key
    it raises at once and sends nothing. *)
Theorem make_request_returns_only_the_body_of_a_200 :
  forall (H : Type) (w : World) (self : VastAIClient) (method : http_method)
         (endpoint : string) (query_params : list (string * string))
         (json_data : option json) (s : State H),
    let rq := mk_request method (_build_url self endpoint) query_params
                json_data (Some 30) in
    let r := _make_request w self method endpoint query_params json_data s in
    if match api_key self with Some k => nonempty k | None => false end
    then
      st_trace (snd r) = (st_trace s ++ [EvSessionRequest rq])%list
      /\ forall j, fst r = Ok j <->
           exists response,
             http w (st_tick s) rq = inr response
             /\ rs_status_code response = 200
             /\ rs_json response = inr j
    else
      r = (Raise (mk_exn Exception "No API key configured. Set VAST_API_KEY environment variable or use 'vastai set api-key'"), s).
Proof.
  intros H w self method endpoint query_params json_data s rq r.
  destruct (api_key self) as [key |] eqn:Hk;
    [destruct (nonempty key) eqn:Hn |].
  - pose proof (@_make_request_sends H w self method endpoint query_params
                  json_data s key Hk Hn) as (E & _ & J).
    fold r in E, J. split; [now rewrite E | exact J].
  - subst r. unfold _make_request. now rewrite Hk, Hn.
  - subst r. unfold _make_request. now rewrite Hk.
Qed.

(* ================================================================== *)
(** * More on the readiness poller *)
(* ================================================================== *)

Section PollerTurns.
Context {H : Type} `{RemoteOS H}.
Variable w : World.

Lemma requests_app (a b : list event) :
  requests (a ++ b) = (requests a ++ requests b)%list.
Proof. unfold requests. now rewrite flat_map_app. Qed.

Lemma sleeps_app (a b : list event) :
  sleeps (a ++ b) = (sleeps a ++ sleeps b)%list.
Proof. unfold sleeps. now rewrite flat_map_app. Qed.

Lemma polls_app (a b : list event) :
  polls (a ++ b) = (polls a ++ polls b)%list.
Proof. unfold polls. now rewrite flat_map_app. Qed.

Lemma eq_str_true (v : json) (t : string) :
  eq_str v t = true -> v = JStr t.
Proof.
  destruct v; cbn; try discriminate. intro E.
  apply String.eqb_eq in E. now subst.
Qed.

(** One turn of the loop: at most one status query; a turn that returns
    a report has not slept, a turn that does not has slept once, for
    five seconds. *)
Lemma poll_instance_turn instance_id start_time (s : State H) :
  wp (poll_instance w instance_id start_time)
    (fun o s' =>
       exists evs,
         st_trace s' = (st_trace s ++ evs)%list
         /\ (length (requests evs) <= 1)%nat
         /\ st_now s <= st_now s'
         /\ match o with
            | Ok (Some report) =>
                sleeps evs = []
                /\ ((exists elapsed,
                       st_now s - start_time <= elapsed
                       /\ report
                          = "✅ Instance " ++ py_str w instance_id
                            ++ " is ready! (took " ++ format_1f w elapsed
                            ++ " seconds)")
                    \/ (exists status,
                          (status = "failed" \/ status = "exited")
                          /\ report
                             = "❌ Instance " ++ py_str w instance_id
                               ++ " failed to start (status: " ++ status
                               ++ ")"))
            | Ok None => sleeps evs = [5000] /\ st_now s + 5000 <= st_now s'
            | _ => False
            end) s.
Proof.
  unfold poll_instance. wp_run.
  all: wp_call ltac:(apply _make_request_at_most_once).
  all: wp_run.
  all: match goal with
       | Hc : _ <> OutOfFuel /\ _ |- _ =>
           destruct Hc as [Hf [[-> [e0 He0]] | ->]];
           try discriminate He0; try (now elim Hf)
       end.
  all: eexists; (split; [trace_tail|]); (split; [cbn; lia|]);
    (split; [autorewrite with st; lia|]).
  all: try (split; [reflexivity | autorewrite with st; lia]).
  all: split; [reflexivity|].
  all: try (left; eexists; split; [| reflexivity]; autorewrite with st; lia).
  all: right;
    match goal with
    | Hs : eq_str ?v "failed" || eq_str ?v "exited" = true |- _ =>
        apply orb_true_iff in Hs; destruct Hs as [Hs | Hs];
        apply eq_str_true in Hs; subst v; eexists; (split; [| reflexivity]);
        auto
    end.
Qed.

Lemma turns_left (T d d1 : Z) :
  d < T -> d + 5000 <= d1 ->
  Z.max 0 ((T - d1 + 4999) / 5000) + 1 <= Z.max 0 ((T - d + 4999) / 5000).
Proof.
  intros Hd H1.
  pose proof (Z.div_mod (T - d1 + 4999) 5000 ltac:(lia)).
  pose proof (Z.mod_pos_bound (T - d1 + 4999) 5000 ltac:(lia)).
  pose proof (Z.div_mod (T - d + 4999) 5000 ltac:(lia)).
  pose proof (Z.mod_pos_bound (T - d + 4999) 5000 ltac:(lia)).
  lia.
Qed.

Lemma turns_of_timeout (t : Z) :
  Z.max 0 ((1000 * t - 0 + 4999) / 5000) = Z.max 0 ((t + 4) / 5).
Proof.
  pose proof (Z.div_mod (1000 * t - 0 + 4999) 5000 ltac:(lia)).
  pose proof (Z.mod_pos_bound (1000 * t - 0 + 4999) 5000 ltac:(lia)).
  pose proof (Z.div_mod (t + 4) 5 ltac:(lia)).
  pose proof (Z.mod_pos_bound (t + 4) 5 ltac:(lia)).
  lia.
Qed.

(** The loop, from any turn on. *)
Lemma wait_loop_turns fuel instance_id timeout start_time :
  forall s : State H,
    start_time <= st_now s ->
    wp (wait_loop w fuel instance_id timeout start_time)
      (fun o s' =>
         exists evs,
           st_trace s' = (st_trace s ++ evs)%list
           /\ Z.of_nat (length (requests evs))
              <= Z.max 0 ((1000 * timeout - (st_now s - start_time) + 4999)
                          / 5000)
           /\ Z.of_nat (length (sleeps evs))
              <= Z.max 0 ((1000 * timeout - (st_now s - start_time) + 4999)
                          / 5000)
           /\ Forall (fun ms => ms = 5000) (sleeps evs)
           /\ match o with
              | Ok report =>
                  report = timed_out w instance_id
                  \/ (exists elapsed,
                        0 <= elapsed
                        /\ report
                           = "✅ Instance " ++ py_str w instance_id
                             ++ " is ready! (took " ++ format_1f w elapsed
                             ++ " seconds)")
                  \/ (exists status,
                        (status = "failed" \/ status = "exited")
                        /\ report
                           = "❌ Instance " ++ py_str w instance_id
                             ++ " failed to start (status: " ++ status
                             ++ ")")
              | Raise _ => False
              | OutOfFuel => True
              end) s.
Proof.
  induction fuel as [| fuel IH]; intros s Hs; cbn [wait_loop];
    apply wp_bind, wp_time_time; cbv beta iota;
    destruct (st_now s - start_time <? 1000 * timeout) eqn:E.
  - unfold wp, out_of_fuel, ret; cbn [fst snd].
    exists []. rewrite app_nil_r.
    repeat split; auto; try apply Z.le_max_l; constructor.
  - unfold wp, out_of_fuel, ret; cbn [fst snd].
    exists []. rewrite app_nil_r.
    repeat split; auto; try apply Z.le_max_l; constructor.
  - apply Z.ltb_lt in E. apply wp_bind.
    wp_call ltac:(apply poll_instance_turn);
      match goal with Hp : exists _, _ |- _ =>
        destruct Hp as (evs1 & T1 & R1 & N1 & Hq) end;
      try contradiction.
    destruct a as [report |].
    + apply wp_ret. destruct Hq as [S1 F1]. exists evs1. rewrite S1.
      cbn [length].
      pose proof (@turns_left (1000 * timeout) (st_now s - start_time)
                    (st_now s - start_time + 5000) E ltac:(lia)).
      repeat split; auto; try lia.
      destruct F1 as [(elapsed & He & ->) | F1]; [|auto].
      right. left. exists elapsed. split; [lia | reflexivity].
    + destruct Hq as [S1 C1].
      eapply wp_conseq; [apply IH; lia|]. cbv beta.
      intros o s2 (evs2 & T2 & R2 & S2 & A2 & F2).
      exists (evs1 ++ evs2)%list.
      pose proof (@turns_left (1000 * timeout) (st_now s - start_time)
                    (st_now s1 - start_time) E ltac:(lia)).
      rewrite T2, T1, app_assoc, requests_app, sleeps_app, !length_app, S1.
      cbn [length app].
      repeat split; auto; try lia.
  - unfold wp, out_of_fuel, ret; cbn [fst snd].
    exists []. rewrite app_nil_r.
    repeat split; auto; try apply Z.le_max_l; constructor.
Qed.

End PollerTurns.

(** X2: [wait_for_instance_ready] (lines 100-130).  With the clock of the
    model, a wait with a timeout of [t] seconds sends at most [t / 5],
    rounded up, status queries to the API, and sleeps at most as many
    times, five seconds each time. *)
Theorem readiness_wait_queries_at_most_once_in_five_seconds :
  forall (H : Type) (w : World) (fuel : nat) (instance_id : json)
         (timeout_seconds : Z) (s : State H),
    exists evs,
      st_trace
        (snd (wait_for_instance_ready w fuel instance_id timeout_seconds s))
      = (st_trace s ++ evs)%list
      /\ Z.of_nat (length (requests evs))
         <= Z.max 0 ((timeout_seconds + 4) / 5)
      /\ Z.of_nat (length (sleeps evs))
         <= Z.max 0 ((timeout_seconds + 4) / 5)
      /\ Forall (fun ms => ms = 5000) (sleeps evs).
Proof.
  intros H w fuel instance_id timeout s.
  pose proof (@wait_loop_turns H w fuel instance_id timeout (st_now s) s
                (Z.le_refl _)) as Hw.
  unfold wp in Hw. destruct Hw as (evs & T & R & S & A & _).
  replace (st_now s - st_now s) with 0 in R, S by lia.
  rewrite turns_of_timeout in R, S.
  exists evs. repeat split; assumption.
Qed.

(** X3: [wait_for_instance_ready] (lines 100-130).  The wait always comes
    back with one of three reports: the instance is ready (after a time
    that is not negative), the instance failed to start (with the status
    [failed] or [exited]), or the timeout.  An error of the API while
    polling is never reported: it costs a turn of the loop. *)
Theorem readiness_wait_reports_ready_failed_or_timeout :
  forall (H : Type) (w : World) (instance_id : json) (timeout_seconds : Z)
         (s : State H),
    exists enough, forall fuel, (enough <= fuel)%nat ->
      exists report,
        fst (wait_for_instance_ready w fuel instance_id timeout_seconds s)
        = Ok report
        /\ (report
            = "⏰ Timeout error. Now destroy instance "
              ++ py_str w instance_id
              ++ " and recreate similar instance again."
            \/ (exists elapsed,
                  0 <= elapsed
                  /\ report
                     = "✅ Instance " ++ py_str w instance_id
                       ++ " is ready! (took " ++ format_1f w elapsed
                       ++ " seconds)")
            \/ (exists status,
                  (status = "failed" \/ status = "exited")
                  /\ report
                     = "❌ Instance " ++ py_str w instance_id
                       ++ " failed to start (status: " ++ status ++ ")")).
Proof.
  intros H w instance_id timeout s.
  destruct (wait_for_instance_ready_returns w instance_id timeout s)
    as [enough He].
  exists enough. intros fuel Hf. destruct (He fuel Hf) as (report & s' & E).
  exists report. split; [now rewrite E|].
  pose proof (@wait_loop_turns H w fuel instance_id timeout (st_now s) s
                (Z.le_refl _)) as Hw.
  unfold wp in Hw. unfold wait_for_instance_ready, bind, time_time in E.
  rewrite E in Hw. destruct Hw as (_ & _ & _ & _ & _ & F). exact F.
Qed.

(* ================================================================== *)
(** * The SSH public key *)
(* ================================================================== *)

Ltac wp_auto known := repeat first [progress wp_run | wp_call known].

(** Opens up what the calls have left in the context. *)
Ltac wp_facts :=
  repeat match goal with
    | Hc : _ /\ _ |- _ => destruct Hc
    | Hc : exists _, _ |- _ => destruct Hc
    | Hc : _ \/ _ |- _ => destruct Hc
    | Hc : Ok _ = Raise _ |- _ => discriminate Hc
    | Hc : Raise _ = Ok _ |- _ => discriminate Hc
    | Hc : Ok ?a = Ok ?b |- _ =>
        first [is_var a | is_var b]; injection Hc as Hc
    | Hc : OutOfFuel = Ok _ |- _ => discriminate Hc
    | Hc : forall e, Raise ?x <> Raise e |- _ => now elim (Hc x)
    | Hc : OutOfFuel = Raise _ |- _ => discriminate Hc
    | Hc : OutOfFuel <> OutOfFuel |- _ => now elim Hc
    | Hc : False |- _ => contradiction
    | Hc : ?x = _ |- _ => is_var x; subst x
    end.

Section PublicKey.
Context {H : Type} `{RemoteOS H}.
Variable w : World.

Lemma get_ssh_key_checks ssh_key_str (s : State H) :
  wp (get_ssh_key w ssh_key_str)
    (fun o s' =>
       s' = s
       /\ match o with
          | Ok k =>
              contains "PRIVATE KEY" k = false
              /\ prefix "ssh" (lower k) = true
              /\ exists text,
                   k = strip text
                   /\ ((path_exists w ssh_key_str = false
                        /\ text = ssh_key_str)
                       \/ (path_exists w ssh_key_str = true
                           /\ read_text w ssh_key_str = inr text))
          | Raise e => exn_cls e = ValueError
          | OutOfFuel => False
          end) s.
Proof.
  unfold get_ssh_key. wp_run.
  all: split; [reflexivity|]; try reflexivity.
  all: repeat split; try assumption;
    try (match goal with
         | Hn : negb _ = false |- _ =>
             apply negb_false_iff in Hn; exact Hn
         end).
  all: eexists; split; [reflexivity|]; auto.
Qed.

(** What [attach_ssh] sends: nothing, or the one request that carries
    a key which [get_ssh_key] has let through. *)
Lemma attach_ssh_sends instance_id (s : State H) :
  wp (attach_ssh w instance_id)
    (fun o s' =>
       (exists text, o = Ok text)
       /\ exists evs,
            st_trace s' = (st_trace s ++ evs)%list
            /\ (requests evs = []
                \/ exists c k,
                     requests evs
                     = [mk_request POST
                          (_build_url c
                             ("/instances/" ++ py_str w instance_id
                              ++ "/ssh/"))
                          [] (Some (JDict [("ssh_key", JStr k)])) (Some 30)]
                     /\ contains "PRIVATE KEY" k = false
                     /\ prefix "ssh" (lower k) = true)) s.
Proof.
  unfold attach_ssh.
  wp_auto ltac:(first [ apply get_ssh_key_checks
                      | apply _make_request_at_most_once ]).
  all: wp_facts.
  all: (split; [eexists; reflexivity|]); eexists; (split; [trace_tail|]).
  all: first [ left; reflexivity
             | right; do 2 eexists; split; [reflexivity|]; split; assumption ].
Qed.

End PublicKey.

(** X4: [get_ssh_key] (lines 232-262) changes nothing.  What it returns is
    the stripped text of its argument, or of the file the argument names
    when such a file exists; this text does not contain [PRIVATE KEY] and
    begins, whatever the case of the letters, with [ssh].  Every
    exception it raises is a [ValueError], a failure to read the file
    included. *)
Theorem get_ssh_key_lets_only_public_keys_through :
  forall (H : Type) (w : World) (ssh_key_str : string) (s : State H),
    let r := get_ssh_key w ssh_key_str s in
    snd r = s
    /\ match fst r with
       | Ok k =>
           contains "PRIVATE KEY" k = false
           /\ prefix "ssh" (lower k) = true
           /\ exists text,
                k = strip text
                /\ ((path_exists w ssh_key_str = false
                     /\ text = ssh_key_str)
                    \/ (path_exists w ssh_key_str = true
                        /\ read_text w ssh_key_str = inr text))
       | Raise e => exn_cls e = ValueError
       | OutOfFuel => False
       end.
Proof.
  intros H w ssh_key_str s. exact (get_ssh_key_checks w ssh_key_str s).
Qed.

(** X5: [attach_ssh] (lines 1016-1046) returns a text, and it sends the API
    nothing or exactly one request: a POST to [/instances/{id}/ssh/]
    with the thirty-second timeout whose body is [{"ssh_key": k}], where
    [k] has passed the checks of [get_ssh_key].  So no text that
    contains [PRIVATE KEY] is ever uploaded. *)
Theorem attach_ssh_uploads_only_a_checked_public_key :
  forall (H : Type) (w : World) (instance_id : json) (s : State H),
    let r := attach_ssh w instance_id s in
    (exists text, fst r = Ok text)
    /\ exists evs,
         st_trace (snd r) = (st_trace s ++ evs)%list
         /\ (requests evs = []
             \/ exists c k,
                  requests evs
                  = [mk_request POST
                       (_build_url c
                          ("/instances/" ++ py_str w instance_id ++ "/ssh/"))
                       [] (Some (JDict [("ssh_key", JStr k)])) (Some 30)]
                  /\ contains "PRIVATE KEY" k = false
                  /\ prefix "ssh" (lower k) = true).
Proof.
  intros H w instance_id s. exact (attach_ssh_sends w instance_id s).
Qed.

(* ================================================================== *)
(** * The one-shot SSH helper and the preparation of an instance *)
(* ================================================================== *)

Section SshHelper.
Context {H : Type} `{RemoteOS H}.
Variable w : World.

Lemma commands_app (a b : list event) :
  commands (a ++ b) = (commands a ++ commands b)%list.
Proof. unfold commands. now rewrite flat_map_app. Qed.

Lemma commands_remote (evs : list os_event) :
  commands (map EvRemote evs) = [].
Proof. induction evs; cbn; auto. Qed.

Lemma connections_app (a b : list event) :
  connections (a ++ b) = (connections a ++ connections b)%list.
Proof. unfold connections. now rewrite flat_map_app. Qed.

Lemma connections_remote (evs : list os_event) :
  connections (map EvRemote evs) = [].
Proof. induction evs; cbn; auto. Qed.

Lemma remote_exec_line ep (line : string) (h : H) :
  snd (remote_exec ep (Line line) h) = [Ran line].
Proof. cbn. now destruct (os_shell ep line h). Qed.

Lemma endpoint_of_user host port user ep :
  endpoint_of host port user = inr ep -> ep_user ep = user.
Proof.
  destruct host, port; cbn; try discriminate. now intros [= <-].
Qed.

Ltac count_events :=
  rewrite ?commands_app, ?commands_remote, ?connections_app,
    ?connections_remote, ?remote_part_app, ?remote_part_remote,
    ?remote_exec_line;
  cbn [commands connections remote_part flat_map app].

Lemma _execute_ssh_command_runs host user port command (s : State H) :
  wp (_execute_ssh_command w host user port command)
    (fun o s' =>
       exists r evs,
         o = Ok r
         /\ st_trace s' = (st_trace s ++ evs)%list
         /\ (success r = true <-> error r = None /\ exit_status r = 0)
         /\ (forall message, error r = Some message -> r = failed message)
         /\ (error r = None ->
             commands evs = [Line command]
             /\ remote_part evs = [Ran command])
         /\ (commands evs = [] \/ commands evs = [Line command])
         /\ (remote_part evs = [] \/ remote_part evs = [Ran command])
         /\ Forall (fun ep => ep_user ep = user) (connections evs)
         /\ (length (connections evs) <= 1)%nat) s.
Proof.
  unfold _execute_ssh_command.
  unfold load_private_key, other_key_types. wp_run.
  all: do 2 eexists; (split; [reflexivity|]); (split; [trace_tail|]).
  all: cbn [success error exit_status failed].
  all: count_events.
  all: repeat split; try discriminate; try tauto; auto.
  all: try (intros [E _]; discriminate E).
  all: try (intros message [= <-]; reflexivity).
  all: try (now apply Z.eqb_eq).
  all: try (intros [_ E]; now apply Z.eqb_eq).
  all: try (repeat constructor; eapply endpoint_of_user; eassumption).
Qed.


End SshHelper.

(** X6: [_execute_ssh_command] (lines 288-407) always returns its
    dictionary.  [success] is true exactly when no error is recorded and
    the exit status is 0.  A dictionary with an error is the failure
    dictionary: [success] false, empty [stdout] and [stderr], exit status
    -1.  Without an error the command was handed to the remote shell and
    ran there, exactly once; in every case it ran at most once, over a
    session opened for the given user. *)
Theorem execute_ssh_command_reports_what_happened :
  forall (H : Type) (os : RemoteOS H) (w : World) (remote_host : json)
         (remote_user : string) (remote_port : json) (command : string)
         (s : State H),
    let res :=
      _execute_ssh_command w remote_host remote_user remote_port command s in
    exists r evs,
      fst res = Ok r
      /\ st_trace (snd res) = (st_trace s ++ evs)%list
      /\ (success r = true <-> error r = None /\ exit_status r = 0)
      /\ (forall message, error r = Some message -> r = failed message)
      /\ (error r = None ->
          commands evs = [Line command] /\ remote_part evs = [Ran command])
      /\ (commands evs = [] \/ commands evs = [Line command])
      /\ (remote_part evs = [] \/ remote_part evs = [Ran command])
      /\ Forall (fun ep => ep_user ep = remote_user) (connections evs)
      /\ (length (connections evs) <= 1)%nat.
Proof.
  intros H os w host user port command s.
  exact (_execute_ssh_command_runs w host user port command s).
Qed.


(* ================================================================== *)
(** * The SSH session of every operation *)
(* ================================================================== *)

Section Sessions.
Context {H : Type} `{RemoteOS H}.
Variable w : World.

(** No [close] among the events. *)
Local Abbreviation open_still :=
  (fun e : event => match e with EvClose => False | _ => True end).

Lemma closes_none (evs : list event) : Forall open_still evs -> closes evs = 0%nat.
Proof.
  unfold closes. induction 1 as [| e evs He _ IH]; [reflexivity|].
  cbn [filter]. destruct e; try exact IH. contradiction.
Qed.

(** [try: m finally: client.close()], where [m] does not close. *)
Lemma finally_close_last {A} (m : M H A) (s : State H) :
  steps open_still m -> halts m ->
  exists evs,
    st_trace (snd (try_finally m close s)) = (st_trace s ++ evs ++ [EvClose])%list
    /\ closes evs = 0%nat.
Proof.
  intros Hs Hh. specialize (Hs s). specialize (Hh s).
  destruct Hs as [_ (evs & T & F & _)].
  exists evs. split; [| now apply closes_none].
  unfold try_finally, close, emit.
  destruct (m s) as [[a | e |] s1]; cbn [fst snd st_trace] in *;
    try (now elim Hh); now rewrite T, app_assoc.
Qed.

Lemma snd_bind_ret {A B} (m : M H A) (f : A -> B) (s : State H) :
  snd ((a <- m;; ret (f a)) s) = snd (m s).
Proof. unfold bind. now destruct (m s) as [[a | e |] s1]. Qed.

Lemma _execute_ssh_command_closes host user port command (s : State H) :
  exists evs,
    st_trace (snd (_execute_ssh_command w host user port command s))
    = (st_trace s ++ evs ++ [EvClose])%list
    /\ closes evs = 0%nat.
Proof.
  unfold _execute_ssh_command. apply finally_close_last.
  - walk_steps fail.
  - walk_halts fail.
Qed.

Lemma launch_task_closes task_id host user port command (s : State H) :
  exists evs,
    st_trace (snd (launch_task w task_id host user port command s))
    = (st_trace s ++ evs ++ [EvClose])%list
    /\ closes evs = 0%nat.
Proof.
  unfold launch_task. cbv zeta. apply finally_close_last.
  - walk_steps fail.
  - walk_halts fail.
Qed.

Lemma check_closes host user port task_id pid n (s : State H) :
  exists evs,
    st_trace (snd (check w host user port task_id pid n s))
    = (st_trace s ++ evs ++ [EvClose])%list
    /\ closes evs = 0%nat.
Proof.
  unfold check. cbv zeta. apply finally_close_last.
  - walk_steps fail.
  - walk_halts fail.
Qed.

Lemma kill_closes host user port task_id pid (s : State H) :
  exists evs,
    st_trace (snd (kill w host user port task_id pid s))
    = (st_trace s ++ evs ++ [EvClose])%list
    /\ closes evs = 0%nat.
Proof.
  unfold kill. cbv zeta. apply finally_close_last.
  - walk_steps fail.
  - walk_halts fail.
Qed.

End Sessions.

(** X8: The four SSH operations ([_execute_ssh_command], lines 288-407, and
    the tools of lines 1238-1567) close their session exactly once, and
    this is the last thing each of them does, whatever fails before:
    the events of a call are some events without a [close], then the
    [close] of the [finally] block. *)
Theorem every_ssh_operation_closes_its_session_last :
  forall (H : Type) (os : RemoteOS H) (w : World)
         (remote_host remote_user : string) (remote_port : Z)
         (command : string) (task_name : option string) (task_id : string)
         (process_id tail_lines : Z) (s : State H),
    let closed_last (s' : State H) :=
      exists evs,
        st_trace s' = (st_trace s ++ evs ++ [EvClose])%list
        /\ closes evs = 0%nat in
    closed_last
      (snd (ssh_execute_command w remote_host remote_user remote_port
              command s))
    /\ closed_last
         (snd (ssh_execute_background_command w remote_host remote_user
                 remote_port command task_name s))
    /\ closed_last
         (snd (ssh_check_background_task w remote_host remote_user
                 remote_port task_id process_id tail_lines s))
    /\ closed_last
         (snd (ssh_kill_background_task w remote_host remote_user
                 remote_port task_id process_id s)).
Proof.
  intros H os w host user port command task_name task_id pid n s closed_last.
  subst closed_last. cbv beta.
  unfold ssh_execute_command, ssh_execute_background_command,
    ssh_check_background_task, ssh_kill_background_task.
  cbv zeta. rewrite !snd_bind_ret.
  repeat split.
  - apply _execute_ssh_command_closes.
  - unfold launch. unfold bind at 1, uuid_uuid4 at 1.
    cbn [consult bind ret fst snd].
    match goal with |- context [launch_task w ?id _ _ _ _ ?s1] =>
      destruct (launch_task_closes w id host user port command s1)
        as (evs & T & C) end.
    exists evs. split; [exact T | exact C].
  - apply check_closes.
  - apply kill_closes.
Qed.

(** X9: When the private key file does not exist, the four SSH operations
    ([_execute_ssh_command], lines 302-310; the tools, lines 1272, 1388
    and 1487) report it and do nothing else: no key is parsed, no session
    is opened, no command is sent; the only event is the [close] of the
    [finally] block, and the remote hosts are as before. *)
Theorem missing_key_file_ends_every_ssh_operation :
  forall (H : Type) (os : RemoteOS H) (w : World)
         (remote_host remote_user : string) (remote_port : Z)
         (command : string) (task_name : option string) (task_id : string)
         (process_id tail_lines : Z) (s : State H),
    path_exists w (SSH_KEY_FILE w) = false ->
    let only_closed (s' : State H) :=
      st_trace s' = (st_trace s ++ [EvClose])%list
      /\ st_remote s' = st_remote s in
    let missing := "Private key file not found at: " ++ SSH_KEY_FILE w in
    let r1 := _execute_ssh_command w (JStr remote_host) remote_user
                (JInt remote_port) command s in
    let r2 := ssh_execute_background_command w remote_host remote_user
                remote_port command task_name s in
    let r3 := ssh_check_background_task w remote_host remote_user
                remote_port task_id process_id tail_lines s in
    let r4 := ssh_kill_background_task w remote_host remote_user
                remote_port task_id process_id s in
    (fst r1 = Ok (failed missing) /\ only_closed (snd r1))
    /\ (fst r2 = Ok ("Error: " ++ missing) /\ only_closed (snd r2))
    /\ (fst r3 = Ok ("Error: " ++ missing) /\ only_closed (snd r3))
    /\ (fst r4 = Ok ("Error: " ++ missing) /\ only_closed (snd r4)).
Proof.
  intros H os w host user port command task_name task_id pid n s Hx.
  cbv zeta.
  unfold _execute_ssh_command, ssh_execute_background_command, launch,
    launch_task, ssh_check_background_task, check, ssh_kill_background_task,
    kill, try_finally, try_except, try_clauses, bind, os_path_exists, ret,
    uuid_uuid4, consult, close, emit.
  cbn [fst snd]. rewrite Hx. cbn.
  repeat split.
Qed.

Lemma missing_key_file_witness :
  path_exists keyless (SSH_KEY_FILE keyless) = false
  /\ fst (@ssh_kill_background_task Sim.host Sim.os keyless "203.0.113.7"
            "root" 22 "t1" 4242 (Sim.boot Sim.stubborn))
     = Ok "Error: Private key file not found at: /root/.ssh/id_rsa".
Proof.
  split; [reflexivity|].
  apply (@missing_key_file_ends_every_ssh_operation Sim.host Sim.os keyless
           "203.0.113.7" "root" 22 "uptime" None "t1" 4242 50
           (Sim.boot Sim.stubborn)).
  reflexivity.
Defined.

(* ================================================================== *)
(** * The monitor only looks *)
(* ================================================================== *)

Section ReadOnly.
Context {H : Type} `{RemoteOS H}.
Variable w : World.





End ReadOnly.


(* ================================================================== *)
(** * The automation rules *)
(* ================================================================== *)

Section RulesFacts.
Context {H : Type} `{RemoteOS H}.
Variable w : World.

Lemma keeps_ret {A} (a : A) : keeps_rules (@ret H A a).
Proof. intro s. reflexivity. Qed.

Lemma keeps_raise {A} (e : exn) : keeps_rules (@raise H A e).
Proof. intro s. reflexivity. Qed.

Lemma keeps_out_of_fuel {A} : keeps_rules (@out_of_fuel H A).
Proof. intro s. reflexivity. Qed.

Lemma keeps_lift {A} (r : result A) : keeps_rules (@lift H A r).
Proof. intro s. now destruct r. Qed.

Lemma keeps_bind {A B} (m : M H A) (k : A -> M H B) :
  keeps_rules m -> (forall a, keeps_rules (k a)) -> keeps_rules (bind m k).
Proof.
  intros Hm Hk s. unfold bind. specialize (Hm s).
  destruct (m s) as [[a | e |] s1]; cbn in *; auto.
  now rewrite Hk.
Qed.

Lemma keeps_select {A} (e : exn) (clauses : list (exn_class * (exn -> M H A))) :
  Forall (fun c => forall e, keeps_rules (snd c e)) clauses ->
  keeps_rules (select e clauses).
Proof.
  induction 1 as [| [cls h] rest Hh _ IH]; cbn [select].
  - apply keeps_raise.
  - destruct (isinstance e cls); [apply (Hh e) | apply IH].
Qed.

Lemma keeps_try_clauses {A} (m : M H A) clauses :
  keeps_rules m ->
  Forall (fun c => forall e, keeps_rules (snd c e)) clauses ->
  keeps_rules (try_clauses m clauses).
Proof.
  intros Hm Hc s. unfold try_clauses. specialize (Hm s).
  destruct (m s) as [[a | e |] s1]; cbn in *; auto.
  now rewrite keeps_select.
Qed.

Lemma keeps_try_except {A} (m : M H A) (h : exn -> M H A) :
  keeps_rules m -> (forall e, keeps_rules (h e)) ->
  keeps_rules (try_except m h).
Proof. intros Hm Hh. apply keeps_try_clauses; auto. Qed.

Lemma keeps_try_finally {A} (m : M H A) (fin : M H unit) :
  keeps_rules m -> keeps_rules fin -> keeps_rules (try_finally m fin).
Proof.
  intros Hm Hf s. unfold try_finally. specialize (Hm s).
  destruct (m s) as [[a | e |] s1]; cbn in *; auto;
    specialize (Hf s1); destruct (fin s1) as [[[] | e' |] s2]; cbn in *;
    congruence.
Qed.

Lemma keeps_emit (evs : list event) : keeps_rules (@emit H evs).
Proof. intro s. reflexivity. Qed.

Lemma keeps_consult : keeps_rules (@consult H w).
Proof. intro s. reflexivity. Qed.

Lemma keeps_time_time : keeps_rules (@time_time H).
Proof. intro s. reflexivity. Qed.

Lemma keeps_time_sleep (ms : Z) : keeps_rules (@time_sleep H ms).
Proof. intro s. reflexivity. Qed.

Lemma keeps_remote_run (ep : endpoint) (cmd : command) :
  keeps_rules (remote_run ep cmd).
Proof.
  intro s. unfold remote_run.
  now destruct (remote_exec ep cmd (st_remote s)) as [[r h'] evs].
Qed.

Lemma keeps_get_rules : keeps_rules (@get_rules H).
Proof. intro s. reflexivity. Qed.

Lemma keeps_get_vast_client : keeps_rules (@get_vast_client H w).
Proof.
  intro s. unfold get_vast_client. now destruct (st_vast_client s).
Qed.

End RulesFacts.

Ltac walk_keeps known :=
  repeat first
    [ progress intros
    | match goal with
      | |- keeps_rules (ret _) => apply keeps_ret
      | |- keeps_rules (raise _) => apply keeps_raise
      | |- keeps_rules (lift _) => apply keeps_lift
      | |- keeps_rules (consult _) => apply keeps_consult
      | |- keeps_rules time_time => apply keeps_time_time
      | |- keeps_rules get_rules => apply keeps_get_rules
      | |- keeps_rules (time_sleep _) => apply keeps_time_sleep
      | |- keeps_rules (emit _) => apply keeps_emit
      | |- keeps_rules (remote_run _ _) => apply keeps_remote_run
      | |- keeps_rules (get_vast_client _) => apply keeps_get_vast_client
      | |- keeps_rules (try_finally _ _) => apply keeps_try_finally
      | |- keeps_rules (try_except _ _) => apply keeps_try_except
      | |- keeps_rules (try_clauses _ _) =>
          apply keeps_try_clauses;
          [ | repeat (apply Forall_cons || apply Forall_nil) ]
      | |- keeps_rules (bind _ _) => apply keeps_bind
      | |- keeps_rules (match ?x with _ => _ end) => destruct x
      end
    | solve [known]
    | progress cbn [snd fst]
    | progress autounfold with prog ].

Section RulesKept.
Context {H : Type} `{RemoteOS H}.
Variable w : World.

Local Abbreviation kept := (@keeps_rules H _).

Lemma keeps__execute_ssh_command host user port command :
  kept (_execute_ssh_command w host user port command).
Proof. unfold _execute_ssh_command. walk_keeps fail. Qed.

Lemma keeps_prepare_steps host port commands results :
  kept (prepare_steps w host port commands results).
Proof.
  revert results. induction commands as [| cmd rest IH]; intro results;
    cbn [prepare_steps].
  - apply keeps_ret.
  - walk_keeps ltac:(apply keeps__execute_ssh_command || apply IH).
Qed.

Lemma keeps_instance_update method endpoint json_data done failure trouble :
  kept (instance_update w method endpoint json_data done failure trouble).
Proof. unfold instance_update. walk_keeps fail. Qed.

Lemma keeps_attach_ssh instance_id : kept (attach_ssh w instance_id).
Proof. unfold attach_ssh, get_ssh_key. walk_keeps fail. Qed.

Lemma keeps_poll_logs n id result_url : kept (poll_logs w n id result_url).
Proof.
  induction n as [| n IH]; cbn [poll_logs]; walk_keeps ltac:(apply IH).
Qed.

Lemma keeps_poll_command n id response result_url :
  kept (poll_command w n id response result_url).
Proof.
  induction n as [| n IH]; cbn [poll_command]; walk_keeps ltac:(apply IH).
Qed.

Lemma keeps_wait_loop fuel instance_id timeout start_time :
  kept (wait_loop w fuel instance_id timeout start_time).
Proof.
  induction fuel as [| fuel IH]; cbn [wait_loop]; unfold poll_instance;
    walk_keeps ltac:(apply IH || apply keeps_out_of_fuel).
Qed.

Lemma keeps_apply_post_creation_rules fuel instance_id ssh jupyter label :
  kept (apply_post_creation_rules w fuel instance_id ssh jupyter label).
Proof.
  unfold apply_post_creation_rules, wait_for_instance_ready, label_instance.
  walk_keeps ltac:(apply keeps_attach_ssh || apply keeps_instance_update
                   || apply keeps_wait_loop).
Qed.

(** Every tool but [configure_mcp_rules] leaves the rules alone. *)
Lemma keeps_run_tool fuel call :
  (forall a l r p, call <> Call_configure_mcp_rules a l r p) ->
  kept (run_tool w fuel call).
Proof.
  intro Hc. destruct call; cbn [run_tool];
    try (now elim (Hc auto_attach_ssh auto_label wait_for_ready label_prefix));
    clear Hc;
    unfold show_user_info, show_instances, search_offers, create_instance,
      destroy_instance, start_instance, stop_instance, search_volumes,
      label_instance, reboot_instance, recycle_instance, show_instance,
      logs, search_templates, execute_command, prepare_instance,
      _prepare_instance,
      ssh_execute_command, ssh_execute_background_command, launch,
      launch_task, ssh_check_background_task, check,
      ssh_kill_background_task, kill;
    walk_keeps ltac:(first
      [ apply keeps_instance_update | apply keeps_attach_ssh
      | apply keeps_poll_logs | apply keeps_poll_command
      | apply keeps_apply_post_creation_rules
      | apply keeps__execute_ssh_command
      | apply keeps_prepare_steps ]).
Qed.

End RulesKept.

Section RulesSet.
Context {H : Type} `{RemoteOS H}.
Variable w : World.

Lemma configure_mcp_rules_sets a l r p (s : State H) :
  let old := st_mcp_rules s in
  let new := st_mcp_rules (snd (configure_mcp_rules a l r p s)) in
  MCPRules.auto_attach_ssh_on_create new
  = match a with Some b => b | None => MCPRules.auto_attach_ssh_on_create old
    end
  /\ MCPRules.auto_label_instances new
     = match l with Some b => b | None => MCPRules.auto_label_instances old
       end
  /\ MCPRules.wait_for_instance_ready new
     = match r with
       | Some b => b
       | None => MCPRules.wait_for_instance_ready old
       end
  /\ MCPRules.default_label_prefix new
     = match p with
       | Some prefix => prefix
       | None => MCPRules.default_label_prefix old
       end
  /\ MCPRules.ready_timeout_seconds new = MCPRules.ready_timeout_seconds old.
Proof. destruct a, l, r, p; repeat split. Qed.

Lemma run_tool_keeps_timeout fuel call (s : State H) :
  MCPRules.ready_timeout_seconds (st_mcp_rules (snd (run_tool w fuel call s)))
  = MCPRules.ready_timeout_seconds (st_mcp_rules s).
Proof.
  assert (D : (exists a l r p, call = Call_configure_mcp_rules a l r p)
              \/ (forall a l r p, call <> Call_configure_mcp_rules a l r p)).
  { destruct call; try (right; discriminate). left. eauto. }
  destruct D as [(a & l & r & p & ->) | D].
  - cbn [run_tool]. apply configure_mcp_rules_sets.
  - now rewrite keeps_run_tool.
Qed.

Lemma run_session_keeps_timeout fuel calls :
  forall s : State H,
    MCPRules.ready_timeout_seconds (st_mcp_rules (run_session w fuel calls s))
    = MCPRules.ready_timeout_seconds (st_mcp_rules s).
Proof.
  induction calls as [| call rest IH]; intro s; cbn [run_session];
    [reflexivity|].
  now rewrite IH, run_tool_keeps_timeout.
Qed.

End RulesSet.

(** X11: The automation rules (class [MCPRules], lines 33-46) change only
    through [configure_mcp_rules] (lines 1102-1139): every other tool
    leaves [mcp_rules] as it found them.  [configure_mcp_rules] overwrites
    exactly the fields whose argument is not [None].  No tool sets
    [ready_timeout_seconds]: through any sequence of tool calls it keeps
    the value it had when the server started. *)
Theorem rules_change_only_through_configure_mcp_rules :
  forall (H : Type) (os : RemoteOS H) (w : World) (fuel : nat) (s : State H),
    (forall call,
       (forall a l r p, call <> Call_configure_mcp_rules a l r p) ->
       st_mcp_rules (snd (run_tool w fuel call s)) = st_mcp_rules s)
    /\ (forall a l r p,
          let old := st_mcp_rules s in
          let new :=
            st_mcp_rules
              (snd (run_tool w fuel (Call_configure_mcp_rules a l r p) s)) in
          MCPRules.auto_attach_ssh_on_create new
          = match a with
            | Some b => b
            | None => MCPRules.auto_attach_ssh_on_create old
            end
          /\ MCPRules.auto_label_instances new
             = match l with
               | Some b => b
               | None => MCPRules.auto_label_instances old
               end
          /\ MCPRules.wait_for_instance_ready new
             = match r with
               | Some b => b
               | None => MCPRules.wait_for_instance_ready old
               end
          /\ MCPRules.default_label_prefix new
             = match p with
               | Some prefix => prefix
               | None => MCPRules.default_label_prefix old
               end
          /\ MCPRules.ready_timeout_seconds new
             = MCPRules.ready_timeout_seconds old)
    /\ (forall calls,
          MCPRules.ready_timeout_seconds
            (st_mcp_rules (run_session w fuel calls s))
          = MCPRules.ready_timeout_seconds (st_mcp_rules s)).
Proof.
  intros H os w fuel s. split; [| split].
  - intros call Hc. now apply keeps_run_tool.
  - intros a l r p. apply configure_mcp_rules_sets.
  - intro calls. apply run_session_keeps_timeout.
Qed.

(* ================================================================== *)
(** * What follows the creation of an instance *)
(* ================================================================== *)

Section AfterCreation.
Context {H : Type} `{RemoteOS H}.
Variable w : World.

(** A callee that always returns and leaves the rules alone. *)
Lemma wp_returns_keeping {A} (m : M H A) (s : State H) :
  total m -> keeps_rules m ->
  wp m (fun o s' =>
          (exists a, o = Ok a) /\ st_mcp_rules s' = st_mcp_rules s) s.
Proof. intros Ht Hk. split; [apply Ht | apply Hk]. Qed.

Lemma attach_ssh_returns instance_id (s : State H) :
  wp (attach_ssh w instance_id)
    (fun o s' =>
       (exists a, o = Ok a) /\ st_mcp_rules s' = st_mcp_rules s) s.
Proof.
  apply wp_returns_keeping; [apply total_attach_ssh | apply keeps_attach_ssh].
Qed.

Lemma label_instance_returns instance_id label (s : State H) :
  wp (label_instance w instance_id label)
    (fun o s' =>
       (exists a, o = Ok a) /\ st_mcp_rules s' = st_mcp_rules s) s.
Proof.
  apply wp_returns_keeping; unfold label_instance;
    [apply total_instance_update | apply keeps_instance_update].
Qed.

Lemma wait_never_raises fuel instance_id timeout (s : State H) :
  wp (wait_for_instance_ready w fuel instance_id timeout)
    (fun o s' =>
       (forall e, o <> Raise e) /\ st_mcp_rules s' = st_mcp_rules s) s.
Proof.
  split.
  - intro e. unfold wait_for_instance_ready, bind, time_time.
    apply wait_loop_never_raises.
  - unfold wait_for_instance_ready.
    apply keeps_bind; [apply keeps_time_time | intro t; apply keeps_wait_loop].
Qed.

Lemma apply_post_creation_rules_lists fuel instance_id ssh jupyter label
    (s : State H) :
  let rules := st_mcp_rules s in
  wp (apply_post_creation_rules w fuel instance_id ssh jupyter label)
    (fun o s' =>
       match o with
       | Ok text =>
           exists attached labelled waited,
             (if MCPRules.auto_attach_ssh_on_create rules && (ssh || jupyter)
              then exists ssh_result,
                     attached
                     = ["🔑 Auto SSH Key Attachment:" ++ nl ++ ssh_result]
              else attached = [])
             /\ (if MCPRules.auto_label_instances rules
                    && negb (nonempty label)
                 then exists label_result,
                        labelled = ["🏷️  Auto-labeling: " ++ label_result]
                 else labelled = [])
             /\ (if MCPRules.wait_for_instance_ready rules
                 then exists ready_result,
                        waited
                        = ["⏰ Instance Readiness Check:" ++ nl
                           ++ ready_result]
                 else waited = [])
             /\ text
                = match (attached ++ labelled ++ waited)%list with
                  | [] =>
                      nl ++ "📋 No MCP rules applied (all disabled or not applicable)"
                      ++ nl
                  | rule_results =>
                      nl ++ "📋 MCP Rules Applied:" ++ nl
                      ++ String.concat nl
                           (map (fun result => "  " ++ result) rule_results)
                      ++ nl
                  end
       | Raise _ => False
       | OutOfFuel => True
       end) s.
Proof.
  intro rules. subst rules. unfold apply_post_creation_rules. cbv zeta.
  wp_auto ltac:(first [ apply attach_ssh_returns
                      | apply label_instance_returns
                      | apply wait_never_raises ]).
  all: wp_facts; try exact I.
  all: autorewrite with st in *.
  all: repeat match goal with
         | Hr : st_mcp_rules ?x = st_mcp_rules _ |- _ =>
             rewrite Hr in *; clear Hr
         end.
  all: repeat match goal with
         | Hq : ?c = true |- context [if ?c then _ else _] => rewrite Hq
         | Hq : ?c = false |- context [if ?c then _ else _] => rewrite Hq
         end.
  all: unfold append in *; cbn [app] in *.
  all: try discriminate.
  all: repeat match goal with
         | Hl : _ :: _ = _ :: _ |- _ => injection Hl as <- <-
         end.
  all: do 3 eexists; repeat split; try (eexists; reflexivity);
    reflexivity.
Qed.

End AfterCreation.

(** X12: [apply_post_creation_rules] (lines 52-86) returns, and what it
    returns is never one of its three failure texts: the tools it calls
    catch their own exceptions, so its [except] clauses are never
    entered.  Its report lists one entry for each rule that applies, in
    the order key attachment, labelling, readiness, and the rules are
    those in force when the call began; with no rule applying it says
    so. *)
Theorem post_creation_rules_report_one_entry_per_rule :
  forall (H : Type) (os : RemoteOS H) (w : World) (instance_id : json)
         (ssh jupyter : bool) (original_label : string) (s : State H),
    let rules := st_mcp_rules s in
    exists enough, forall fuel, (enough <= fuel)%nat ->
      exists text attached labelled waited,
        fst (apply_post_creation_rules w fuel instance_id ssh jupyter
               original_label s)
        = Ok text
        /\ (if MCPRules.auto_attach_ssh_on_create rules && (ssh || jupyter)
            then exists ssh_result,
                   attached
                   = ["🔑 Auto SSH Key Attachment:" ++ nl ++ ssh_result]
            else attached = [])
        /\ (if MCPRules.auto_label_instances rules
               && negb (nonempty original_label)
            then exists label_result,
                   labelled = ["🏷️  Auto-labeling: " ++ label_result]
            else labelled = [])
        /\ (if MCPRules.wait_for_instance_ready rules
            then exists ready_result,
                   waited
                   = ["⏰ Instance Readiness Check:" ++ nl ++ ready_result]
            else waited = [])
        /\ text
           = match (attached ++ labelled ++ waited)%list with
             | [] =>
                 nl ++ "📋 No MCP rules applied (all disabled or not applicable)"
                 ++ nl
             | rule_results =>
                 nl ++ "📋 MCP Rules Applied:" ++ nl
                 ++ String.concat nl
                      (map (fun result => "  " ++ result) rule_results)
                 ++ nl
             end.
Proof.
  intros H os w instance_id ssh jupyter label s rules.
  destruct (ev_apply_post_creation_rules w instance_id ssh jupyter label s)
    as [enough He].
  exists enough. intros fuel Hf. specialize (He fuel Hf).
  pose proof (apply_post_creation_rules_lists w fuel instance_id ssh jupyter
                label s) as Hw.
  unfold wp in Hw. cbv zeta in Hw.
  destruct (fst (apply_post_creation_rules w fuel instance_id ssh jupyter
                   label s)) as [text | e |];
    [| contradiction | now elim He].
  destruct Hw as (attached & labelled & waited & Hw).
  exists text, attached, labelled, waited. split; [reflexivity | exact Hw].
Qed.

(* ================================================================== *)
(** * Polling a result URL *)
(* ================================================================== *)

Section ResultUrl.
Context {H : Type} `{RemoteOS H}.
Variable w : World.

(** What a polling loop of at most [n] turns may add to the trace. *)
Local Abbreviation polled_within n result_url :=
  (fun (s : State H) (o : outcome string) (s' : State H) =>
     (exists text, o = Ok text)
     /\ exists evs,
          st_trace s' = (st_trace s ++ evs)%list
          /\ requests evs = []
          /\ (length (polls evs) <= length (sleeps evs) <= n)%nat
          /\ Forall (fun ms => ms = 300) (sleeps evs)
          /\ Forall (fun url => result_url = JStr url) (polls evs)).

Lemma poll_logs_turns n id result_url :
  forall s : State H,
    wp (poll_logs w n id result_url) (polled_within n result_url s) s.
Proof.
  induction n as [| n IH]; intro s; cbn [poll_logs].
  - apply wp_ret. split; [eauto|]. exists []. rewrite app_nil_r.
    repeat split; auto.
  - wp_auto ltac:(apply IH).
    all: wp_facts.
    all: try (match goal with
              | HT : st_trace ?x = _ |- _ => is_var x; rewrite HT
              end).
    all: (split; [eexists; reflexivity|]); eexists; (split; [trace_tail|]).
    all: rewrite ?requests_app, ?polls_app, ?sleeps_app, ?length_app.
    all: cbn [requests polls sleeps flat_map app length].
    all: repeat split; auto; try lia.
Qed.

Lemma poll_command_turns n id response result_url :
  forall s : State H,
    wp (poll_command w n id response result_url)
      (polled_within n result_url s) s.
Proof.
  induction n as [| n IH]; intro s; cbn [poll_command].
  - apply wp_ret. split; [eauto|]. exists []. rewrite app_nil_r.
    repeat split; auto.
  - wp_auto ltac:(apply IH).
    all: wp_facts.
    all: try (match goal with
              | HT : st_trace ?x = _ |- _ => is_var x; rewrite HT
              end).
    all: (split; [eexists; reflexivity|]); eexists; (split; [trace_tail|]).
    all: rewrite ?requests_app, ?polls_app, ?sleeps_app, ?length_app.
    all: cbn [requests polls sleeps flat_map app length].
    all: repeat split; auto; try lia.
Qed.

(** The two tools: at most one request to the API, then the polling. *)
Lemma logs_polls instance_id tail filter_text daemon_logs (s : State H) :
  wp (logs w instance_id tail filter_text daemon_logs)
    (fun o s' =>
       (exists text, o = Ok text)
       /\ exists evs,
            st_trace s' = (st_trace s ++ evs)%list
            /\ (length (requests evs) <= 1)%nat
            /\ (length (polls evs) <= length (sleeps evs) <= 10)%nat
            /\ Forall (fun ms => ms = 300) (sleeps evs)) s.
Proof.
  unfold logs. cbv zeta.
  wp_auto ltac:(first [ apply _make_request_at_most_once
                      | apply poll_logs_turns ]).
  all: wp_facts.
  all: try (match goal with
            | HT : st_trace ?x = _ |- _ => is_var x; rewrite HT
            end).
  all: (split; [eexists; reflexivity|]); eexists; (split; [trace_tail|]).
  all: rewrite ?requests_app, ?polls_app, ?sleeps_app, ?length_app.
  all: cbn [requests polls sleeps flat_map app length].
  all: repeat match goal with
         | Hq : requests _ = [] |- _ => rewrite Hq
         end.
  all: cbn [length].
  all: repeat split; auto; try lia.
Qed.



Lemma execute_command_polls instance_id command (s : State H) :
  wp (execute_command w instance_id command)
    (fun o s' =>
       (exists text, o = Ok text)
       /\ exists evs,
            st_trace s' = (st_trace s ++ evs)%list
            /\ (length (requests evs) <= 1)%nat
            /\ (length (polls evs) <= length (sleeps evs) <= 30)%nat
            /\ Forall (fun ms => ms = 300) (sleeps evs)) s.
Proof.
  unfold execute_command. cbv zeta.
  wp_auto ltac:(first [ apply _make_request_at_most_once
                      | apply poll_command_turns ]).
  all: wp_facts.
  all: try (match goal with
            | HT : st_trace ?x = _ |- _ => is_var x; rewrite HT
            end).
  all: (split; [eexists; reflexivity|]); eexists; (split; [trace_tail|]).
  all: rewrite ?requests_app, ?polls_app, ?sleeps_app, ?length_app.
  all: cbn [requests polls sleeps flat_map app length].
  all: repeat match goal with
         | Hq : requests _ = [] |- _ => rewrite Hq
         end.
  all: cbn [length].
  all: repeat split; auto; try lia.
Qed.

End ResultUrl.

(** X13: [logs] (lines 965-1013) and [execute_command] (lines 1142-1195)
    always return a text.  Each sends the API at most one request and
    then fetches the result URL at most 10 times ([logs]) or 30 times
    ([execute_command]), after a sleep of 0.3 seconds before every
    fetch. *)
Theorem result_url_is_polled_a_bounded_number_of_times :
  forall (H : Type) (w : World) (instance_id : json)
         (tail filter_text : string) (daemon_logs : bool) (command : string)
         (s : State H),
    let polled (turns : nat) (r : outcome string * State H) :=
      (exists text, fst r = Ok text)
      /\ exists evs,
           st_trace (snd r) = (st_trace s ++ evs)%list
           /\ (length (requests evs) <= 1)%nat
           /\ (length (polls evs) <= length (sleeps evs) <= turns)%nat
           /\ Forall (fun ms => ms = 300) (sleeps evs) in
    polled 10%nat (logs w instance_id tail filter_text daemon_logs s)
    /\ polled 30%nat (execute_command w instance_id command s).
Proof.
  intros H w instance_id tail filter_text daemon_logs command s polled.
  split.
  - exact (logs_polls w instance_id tail filter_text daemon_logs s).
  - exact (execute_command_polls w instance_id command s).
Qed.

(* ================================================================== *)
(** * The tools that change an instance *)
(* ================================================================== *)

Section Updates.
Context {H : Type} `{RemoteOS H}.
Variable w : World.

Lemma get_is_True (d : json) (k : string) (v : json) :
  get d k JNone = inr v -> is_True v = true ->
  exists items, d = JDict items /\ assoc k items = Some (JBool true).
Proof.
  destruct d; cbn; try discriminate. intros [= <-] Hv. exists items.
  split; [reflexivity|].
  destruct (assoc k items) as [[| [|] | | | | |] |]; try discriminate.
  reflexivity.
Qed.

(** The API said yes: the answer 200 to [rq] is a document whose
    [success] is [True]. *)
Local Abbreviation said_yes n rq :=
  (exists response items,
     http w n rq = inr response
     /\ rs_status_code response = 200
     /\ rs_json response = inr (JDict items)
     /\ assoc "success" items = Some (JBool true)).

Lemma instance_update_reports c key method endpoint json_data
    done failure trouble (s : State H) :
  st_vast_client s = Some c -> api_key c = Some key -> nonempty key = true ->
  (forall x, done <> failure ++ x) -> (forall x, done <> trouble ++ x) ->
  wp (instance_update w method endpoint json_data done failure trouble)
    (fun o s' =>
       o = Ok done
       <-> said_yes (st_tick s)
             (mk_request method (_build_url c endpoint) [] json_data
                (Some 30))) s.
Proof.
  intros Hc Hk Hn Hf Ht. unfold instance_update.
  apply wp_try_except, wp_bind.
  unfold wp at 1. rewrite (get_vast_client_reuses w s Hc). cbn [fst snd].
  wp_auto ltac:(eapply _make_request_sends; eassumption).
  all: wp_facts.
  all: split; [intro E | intros (response & items & E1 & E2 & E3 & E4)].
  all: try reflexivity.
  all: try (injection E as E; symmetry in E;
            first [now elim (Hf _ E) | now elim (Ht _ E)]).
  all: try (match goal with
            | Hq : forall j, _ <-> _ |- _ =>
                pose proof (proj2 (Hq (JDict items))
                              (ex_intro _ response (conj E1 (conj E2 E3))))
                  as Ha
            end;
            try discriminate Ha; injection Ha as ->;
            match goal with
            | Hg : get _ "success" JNone = _ |- _ =>
                cbn in Hg; rewrite E4 in Hg; try discriminate Hg;
                injection Hg as <-
            end;
            discriminate).
  match goal with
  | Hq : forall j, _ <-> _, Hg : get ?a "success" JNone = inr ?v,
    Hv : is_True ?v = true |- _ =>
      destruct (proj1 (Hq a) eq_refl) as (response & E1 & E2 & E3);
      destruct (get_is_True _ _ Hg Hv) as (items & -> & E4)
  end.
  exists response, items. auto.
Qed.

End Updates.

(** X14: [destroy_instance], [start_instance], [stop_instance],
    [label_instance], [reboot_instance] and [recycle_instance] (lines
    663-849), called once the client exists and has its key: each
    reports success exactly when the API answers its one request with
    status 200 and a document whose [success] is the boolean [True]; a
    [success] of 1 or of ["true"] is reported as a failure.  The request
    is the one given here for each tool. *)
Theorem instance_tools_report_success_exactly_when_the_api_does :
  forall (H : Type) (w : World) (instance_id : Z) (label : string)
         (c : VastAIClient) (key : string) (s : State H),
    st_vast_client s = Some c -> api_key c = Some key ->
    nonempty key = true ->
    let id := str_int instance_id in
    let said_yes method endpoint body :=
      exists response items,
        http w (st_tick s)
          (mk_request method (server_url c ++ "/api/v0" ++ endpoint) [] body
             (Some 30))
        = inr response
        /\ rs_status_code response = 200
        /\ rs_json response = inr (JDict items)
        /\ assoc "success" items = Some (JBool true) in
    (fst (destroy_instance w (JInt instance_id) s)
     = Ok ("Instance " ++ id ++ " destroyed successfully.")
     <-> said_yes DELETE ("/instances/" ++ id ++ "/") None)
    /\ (fst (start_instance w (JInt instance_id) s)
        = Ok ("Instance " ++ id ++ " started successfully.")
        <-> said_yes PUT ("/instances/" ++ id ++ "/")
              (Some (JDict [("state", JStr "running")])))
    /\ (fst (stop_instance w (JInt instance_id) s)
        = Ok ("Instance " ++ id ++ " stopped successfully.")
        <-> said_yes PUT ("/instances/" ++ id ++ "/")
              (Some (JDict [("state", JStr "stopped")])))
    /\ (fst (label_instance w (JInt instance_id) label s)
        = Ok ("Label for instance " ++ id ++ " set to '" ++ label ++ "'")
        <-> said_yes PUT ("/instances/" ++ id ++ "/")
              (Some (JDict [("label", JStr label)])))
    /\ (fst (reboot_instance w (JInt instance_id) s)
        = Ok ("Instance " ++ id ++ " is being rebooted.")
        <-> said_yes PUT ("/instances/reboot/" ++ id ++ "/")
              (Some (JDict [])))
    /\ (fst (recycle_instance w (JInt instance_id) s)
        = Ok ("Instance " ++ id ++ " is being recycled.")
        <-> said_yes PUT ("/instances/recycle/" ++ id ++ "/")
              (Some (JDict []))).
Proof.
  intros H w instance_id label c key s Hc Hk Hn id said_yes.
  subst id said_yes. cbv beta.
  unfold destroy_instance, start_instance, stop_instance, label_instance,
    reboot_instance, recycle_instance.
  cbv zeta. cbn [py_str].
  repeat apply conj;
    (eapply instance_update_reports;
     [ exact Hc | exact Hk | exact Hn
     | intros x E; cbn [append] in E; discriminate E
     | intros x E; cbn [append] in E; discriminate E ]).
Qed.

Lemma instance_tools_witness :
  let w := Sim.world Sim.rsa_key (JDict [("success", JBool true)]) in
  let s := snd (get_vast_client w (Sim.boot Sim.idle)) in
  fst (destroy_instance w (JInt 7) s)
  = Ok "Instance 7 destroyed successfully."
  <-> exists response items,
        http w (st_tick s)
          (mk_request DELETE "https://console.vast.ai/api/v0/instances/7/"
             [] None (Some 30))
        = inr response
        /\ rs_status_code response = 200
        /\ rs_json response = inr (JDict items)
        /\ assoc "success" items = Some (JBool true).
Proof.
  apply (@instance_tools_report_success_exactly_when_the_api_does Sim.host
           (Sim.world Sim.rsa_key (JDict [("success", JBool true)])) 7
           "job"
           (mk_client 0 (Some "secret") DEFAULT_SERVER_URL
              [("Authorization", "Bearer secret");
               ("Accept", "application/json");
               ("Content-Type", "application/json")])
           "secret"
           (snd (get_vast_client
                   (Sim.world Sim.rsa_key (JDict [("success", JBool true)]))
                   (Sim.boot Sim.idle)))).
  - reflexivity.
  - reflexivity.
  - reflexivity.
Defined.

(* ================================================================== *)
(** * Two tasks never share a file *)
(* ================================================================== *)

Lemma list_of_append (a b : string) :
  list_ascii_of_string (a ++ b)
  = (list_ascii_of_string a ++ list_ascii_of_string b)%list.
Proof. induction a as [| c a IH]; cbn; [reflexivity | now rewrite IH]. Qed.

Lemma append_inv_tail (a b c : string) : a ++ c = b ++ c -> a = b.
Proof.
  intro E. apply (f_equal list_ascii_of_string) in E.
  rewrite !list_of_append in E. apply app_inv_tail in E.
  apply (f_equal string_of_list_ascii) in E.
  now rewrite !string_of_list_ascii_of_string in E.
Qed.

(** X15: The artifact paths (lines 1260-1261, 1378-1379 and 1477-1478)
    determine the task: two task ids with the same log file, or the same
    pid file, are the same id, and the log file of one task is never the
    pid file of another.  So tasks with different ids never write to, read
    or remove each other's files. *)
Theorem artifact_paths_tell_tasks_apart :
  forall a b : string,
    (log_path a = log_path b <-> a = b)
    /\ (pid_path a = pid_path b <-> a = b)
    /\ log_path a <> pid_path b.
Proof.
  intros a b. unfold log_path, pid_path.
  repeat split; try (now intros ->).
  - intro E. cbn [append] in E. injection E as E. now apply append_inv_tail in E.
  - intro E. cbn [append] in E. injection E as E. now apply append_inv_tail in E.
  - intro E. cbn [append] in E. injection E as E.
    apply (f_equal list_ascii_of_string) in E.
    rewrite !list_of_append in E.
    change (list_ascii_of_string ".log")
      with ([ "."; "l"; "o" ] ++ [ "g" ])%char%list in E.
    change (list_ascii_of_string ".pid")
      with ([ "."; "p"; "i" ] ++ [ "d" ])%char%list in E.
    rewrite !app_assoc in E. apply app_inj_tail in E.
    destruct E as [_ E]. discriminate E.
Qed.

(* ================================================================== *)
(** * The search queries *)
(* ================================================================== *)

Section Dicts.

Local Abbreviation keys := (map (@fst string json)).

Lemma assoc_dict_set key k v d :
  assoc key (dict_set k v d) = if String.eqb key k then Some v else assoc key d.
Proof.
  induction d as [| [k' v'] rest IH]; cbn [dict_set assoc].
  - reflexivity.
  - destruct (String.eqb_spec k k') as [<- | Hk]; cbn [assoc].
    + now destruct (String.eqb key k).
    + rewrite IH. destruct (String.eqb_spec key k') as [-> | Hk'];
        [| reflexivity].
      destruct (String.eqb_spec k' k) as [E | _]; [| reflexivity].
      now elim Hk.
Qed.

Lemma keys_dict_set k v d :
  forall x, In x (keys (dict_set k v d)) <-> x = k \/ In x (keys d).
Proof.
  induction d as [| [k' v'] rest IH]; intro x; cbn [dict_set map fst In].
  - intuition.
  - destruct (String.eqb_spec k k') as [<- | Hk]; cbn [map fst In].
    + intuition.
    + rewrite IH. intuition.
Qed.

Lemma NoDup_dict_set k v d : NoDup (keys d) -> NoDup (keys (dict_set k v d)).
Proof.
  induction d as [| [k' v'] rest IH]; cbn [dict_set map fst]; intro Hd.
  - repeat constructor. intros [].
  - inversion Hd as [| x l Hn Hr]; subst.
    destruct (String.eqb_spec k k') as [<- | Hk]; cbn [map fst].
    + now constructor.
    + constructor; [| now apply IH].
      rewrite keys_dict_set. intros [E | E]; [now elim Hk | now elim Hn].
Qed.

Lemma NoDup_dict_update d other :
  NoDup (keys d) -> NoDup (keys (dict_update d other)).
Proof.
  unfold dict_update. revert d.
  induction other as [| [k v] rest IH]; intros d Hd; cbn [fold_left];
    [exact Hd|].
  apply IH. now apply NoDup_dict_set.
Qed.

Lemma assoc_absent key d : ~ In key (keys d) -> assoc key d = None.
Proof.
  induction d as [| [k v] rest IH]; cbn [assoc map fst In]; [reflexivity|].
  intro Hn. destruct (String.eqb_spec key k) as [-> | _]; [| apply IH].
  - elim Hn. now left.
  - intro Hi. apply Hn. now right.
Qed.

(** After [d.update(other)], a key holds what [other] gives it, and
    otherwise what it held in [d]. *)
Lemma assoc_dict_update key d other :
  NoDup (keys other) ->
  assoc key (dict_update d other)
  = match assoc key other with Some v => Some v | None => assoc key d end.
Proof.
  unfold dict_update. revert d.
  induction other as [| [k v] rest IH]; intros d Hd; cbn [fold_left assoc];
    [reflexivity|].
  inversion Hd as [| x l Hn Hr]; subst. rewrite (IH _ Hr).
  cbn [fst snd]. rewrite assoc_dict_set.
  destruct (String.eqb_spec key k) as [-> | _]; [| reflexivity].
  now rewrite (@assoc_absent _ _ Hn).
Qed.

Lemma assoc_app key (a b : list (string * json)) :
  assoc key (a ++ b)
  = match assoc key a with Some v => Some v | None => assoc key b end.
Proof.
  induction a as [| [k v] rest IH]; cbn [app assoc]; [reflexivity|].
  now destruct (String.eqb key k).
Qed.

End Dicts.

Section Parsing.
Variable isdigit : string -> bool.
Variable float : string -> option string.

Local Abbreviation step :=
  (fun query item =>
     match split_at_eq item with
     | Some (key, value) =>
         dict_set key (parse_value isdigit float value) query
     | None => query
     end).

Lemma assoc_parsed key items :
  forall d,
    assoc key (fold_left step items d)
    = match asked_for key items with
      | Some value => Some (parse_value isdigit float value)
      | None => assoc key d
      end.
Proof.
  induction items as [| item rest IH]; intro d; cbn [fold_left asked_for];
    [reflexivity|].
  rewrite IH. destruct (asked_for key rest) as [value |]; [reflexivity|].
  destruct (split_at_eq item) as [[k value] |]; [| reflexivity].
  rewrite assoc_dict_set. now destruct (String.eqb key k).
Qed.

Lemma NoDup_parsed items :
  forall d, NoDup (map fst d) -> NoDup (map fst (fold_left step items d)).
Proof.
  induction items as [| item rest IH]; intros d Hd; cbn [fold_left];
    [exact Hd|].
  apply IH. destruct (split_at_eq item) as [[k value] |]; [| exact Hd].
  now apply NoDup_dict_set.
Qed.

End Parsing.

Lemma contains_eq_cons a k :
  contains "=" (String a k)
  = (byte a =? 61)%N || contains "=" k.
Proof.
  unfold contains. cbn [index prefix].
  destruct (ascii_dec "=" a) as [<- | Hn].
  - now destruct k.
  - replace (byte a =? 61)%N with false.
    + cbn [orb]. now destruct (index 0 "=" k).
    + symmetry. apply N.eqb_neq. intro E. apply Hn.
      change 61%N with (byte "=") in E. unfold byte in E.
      apply (f_equal ascii_of_N) in E. now rewrite !ascii_N_embedding in E.
Qed.

Lemma split_at_eq_first item key value :
  split_at_eq item = Some (key, value)
  <-> item = key ++ "=" ++ value /\ contains "=" key = false.
Proof.
  revert key. induction item as [| a r IH]; intro key; cbn [split_at_eq].
  - split; [discriminate|]. intros [E _]. destruct key; discriminate E.
  - destruct (byte a =? 61)%N eqn:Ea.
    + apply N.eqb_eq in Ea. change 61%N with (byte "=") in Ea.
      unfold byte in Ea. apply (f_equal ascii_of_N) in Ea.
      rewrite !ascii_N_embedding in Ea. subst a. split.
      * intros [= <- <-]. split; reflexivity.
      * intros [E C]. destruct key as [| b key].
        -- cbn in E. now injection E as ->.
        -- cbn in E. injection E as <- _.
           rewrite contains_eq_cons in C. discriminate C.
    + split.
      * destruct (split_at_eq r) as [[k v] |] eqn:Er; [| discriminate].
        intros [= <- <-]. destruct (proj1 (IH k) eq_refl) as [-> C].
        split; [reflexivity|]. rewrite contains_eq_cons, Ea. exact C.
      * intros [E C]. destruct key as [| b key].
        -- cbn in E. injection E as -> _. discriminate Ea.
        -- cbn in E. injection E as <- E.
           rewrite contains_eq_cons in C. apply orb_false_iff in C.
           destruct C as [_ C].
           now rewrite (proj2 (IH key) (conj E C)).
Qed.

(** X16: [parse_query_string] (lines 206-229).  Whatever [str.isdigit] and
    [float] answer: an item without ["="] is ignored; an item
    [key=value] is split at its first ["="]; when several items give a
    value to the same key the last one wins; the result holds each key
    once, with the condition [{"eq": ...}] that the body of the loop
    makes of this last value. *)
Theorem parse_query_string_keeps_the_last_value_of_a_key :
  forall (isdigit : string -> bool) (float : string -> option string)
         (query_list : list string) (key : string),
    let query := parse_query_string isdigit float query_list in
    assoc key query
    = option_map (parse_value isdigit float) (asked_for key query_list)
    /\ NoDup (map fst query)
    /\ (forall value, exists v, parse_value isdigit float value = eq_cond v)
    /\ (forall item k value,
          split_at_eq item = Some (k, value)
          <-> item = k ++ "=" ++ value /\ contains "=" k = false).
Proof.
  intros isdigit float items key query. subst query.
  unfold parse_query_string. split; [| split; [| split]].
  - rewrite assoc_parsed. now destruct (asked_for key items).
  - apply NoDup_parsed. constructor.
  - intro value. unfold parse_value.
    destruct (String.eqb (lower value) "true"); [eauto|].
    destruct (String.eqb (lower value) "false"); [eauto|].
    destruct (isdigit (remove_all "." 0 value)); [| eauto].
    destruct (float value); eauto.
  - apply split_at_eq_first.
Qed.


Section Requests.
Variable isdigit : string -> bool.
Variable float : string -> option string.

Local Abbreviation parsed query :=
  (parse_query_string isdigit float (words 0 EmptyString query)).

Lemma update_if_given (d : list (string * json)) (query : string) :
  (if nonempty query then dict_update d (parsed query) else d)
  = dict_update d (parsed query).
Proof. now destruct query. Qed.

Lemma NoDup_parsed_query query : NoDup (map fst (parsed query)).
Proof. apply NoDup_parsed. constructor. Qed.

Lemma assoc_parsed_query key query :
  assoc key (parsed query)
  = option_map (parse_value isdigit float)
      (asked_for key (words 0 EmptyString query)).
Proof.
  unfold parse_query_string. rewrite assoc_parsed.
  now destruct (asked_for key (words 0 EmptyString query)).
Qed.

Ltac distinct_keys :=
  cbn [map fst]; repeat constructor; cbn [In]; intuition discriminate.

Lemma offers_request_holds query limit order key :
  exists q,
    offers_request isdigit float query limit order
    = JDict [("select_cols", JList [JStr "*"]); ("q", JDict q)]
    /\ NoDup (map fst q)
    /\ assoc key q
       = if String.eqb key "limit" && negb (limit =? 0)%Z
         then Some (JInt limit)
         else
           match asked_for key (words 0 EmptyString query) with
           | Some value => Some (parse_value isdigit float value)
           | None =>
               assoc key
                 [("verified", eq_cond (JBool true));
                  ("external", eq_cond (JBool false));
                  ("rentable", eq_cond (JBool true));
                  ("rented", eq_cond (JBool false));
                  ("order", JList (order_list order));
                  ("type", JStr "on-demand");
                  ("allocated_storage", JFloat "5.0")]
           end.
Proof.
  unfold offers_request. cbv zeta. rewrite update_if_given.
  eexists. split; [reflexivity|].
  assert (Hq : NoDup
                 (map fst
                    (dict_update
                       [("verified", eq_cond (JBool true));
                        ("external", eq_cond (JBool false));
                        ("rentable", eq_cond (JBool true));
                        ("rented", eq_cond (JBool false))]
                       (parsed query)))).
  { apply NoDup_dict_update. distinct_keys. }
  split.
  - destruct (limit =? 0)%Z; [| apply NoDup_dict_set];
      apply NoDup_dict_update; distinct_keys.
  - assert (E : forall base,
              assoc key
                (dict_update
                   ([("verified", eq_cond (JBool true));
                     ("external", eq_cond (JBool false));
                     ("rentable", eq_cond (JBool true));
                     ("rented", eq_cond (JBool false))] ++ base)
                   (dict_update
                      [("verified", eq_cond (JBool true));
                       ("external", eq_cond (JBool false));
                       ("rentable", eq_cond (JBool true));
                       ("rented", eq_cond (JBool false))]
                      (parsed query)))
              = match asked_for key (words 0 EmptyString query) with
                | Some value => Some (parse_value isdigit float value)
                | None =>
                    assoc key
                      ([("verified", eq_cond (JBool true));
                        ("external", eq_cond (JBool false));
                        ("rentable", eq_cond (JBool true));
                        ("rented", eq_cond (JBool false))] ++ base)
                end).
    { intro base. rewrite (@assoc_dict_update _ _ _ Hq).
      rewrite (@assoc_dict_update _ _ _ (NoDup_parsed_query query)).
      rewrite assoc_parsed_query, assoc_app.
      destruct (asked_for key (words 0 EmptyString query)); cbn [option_map];
        [reflexivity|].
      now destruct (assoc key
                      [("verified", eq_cond (JBool true));
                       ("external", eq_cond (JBool false));
                       ("rentable", eq_cond (JBool true));
                       ("rented", eq_cond (JBool false))]). }
    destruct (limit =? 0)%Z; cbn [negb].
    + rewrite andb_false_r. apply (E [_; _; _]).
    + rewrite andb_true_r, assoc_dict_set.
      destruct (String.eqb key "limit"); [reflexivity|]. apply (E [_; _; _]).
Qed.

Lemma volumes_request_holds query limit key :
  exists body,
    volumes_request isdigit float query limit = JDict body
    /\ NoDup (map fst body)
    /\ assoc key body
       = match asked_for key (words 0 EmptyString query) with
         | Some value => Some (parse_value isdigit float value)
         | None =>
             assoc key
               [("verified", eq_cond (JBool true));
                ("external", eq_cond (JBool false));
                ("disk_space", JDict [("gte", JInt 1)]);
                ("limit", JInt limit);
                ("allocated_storage", JFloat "1.0");
                ("order", JList [JList [JStr "score"; JStr "desc"]])]
         end.
Proof.
  unfold volumes_request. cbv zeta. rewrite update_if_given.
  eexists. split; [reflexivity|].
  assert (Hq : NoDup
                 (map fst
                    (dict_update
                       [("verified", eq_cond (JBool true));
                        ("external", eq_cond (JBool false));
                        ("disk_space", JDict [("gte", JInt 1)])]
                       (parsed query)))).
  { apply NoDup_dict_update. distinct_keys. }
  split.
  - apply NoDup_dict_update. distinct_keys.
  - rewrite (@assoc_dict_update _ _ _ Hq).
    rewrite (@assoc_dict_update _ _ _ (NoDup_parsed_query query)).
    rewrite assoc_parsed_query.
    destruct (asked_for key (words 0 EmptyString query)); cbn [option_map];
      [reflexivity|].
    change [("verified", eq_cond (JBool true));
            ("external", eq_cond (JBool false));
            ("disk_space", JDict [("gte", JInt 1)]);
            ("limit", JInt limit);
            ("allocated_storage", JFloat "1.0");
            ("order", JList [JList [JStr "score"; JStr "desc"]])]
      with ([("verified", eq_cond (JBool true));
             ("external", eq_cond (JBool false));
             ("disk_space", JDict [("gte", JInt 1)])]
            ++ [("limit", JInt limit);
                ("allocated_storage", JFloat "1.0");
                ("order", JList [JList [JStr "score"; JStr "desc"]])])%list.
    now rewrite assoc_app.
Qed.

End Requests.

(** X17: The request of [search_offers] (lines 529-573), whatever
    [str.isdigit] and [float] answer.  It is [{"select_cols": ["*"],
    "q": q}], and [q] holds each key once.  A limit argument that is not
    0 is stored under [limit] and overrides a limit given in the query.
    Every other key holds the condition made of the last item
    [key=value] of the query, when there is one, and this replaces a
    built-in filter, the order or the type; a key the query does not give
    holds its built-in value. *)
Theorem search_offers_query_overrides_the_built_in_filters :
  forall (isdigit : string -> bool) (float : string -> option string)
         (query : string) (limit : Z) (order key : string),
    exists q,
      offers_request isdigit float query limit order
      = JDict [("select_cols", JList [JStr "*"]); ("q", JDict q)]
      /\ NoDup (map fst q)
      /\ assoc key q
         = if String.eqb key "limit" && negb (limit =? 0)%Z
           then Some (JInt limit)
           else
             match asked_for key (words 0 EmptyString query) with
             | Some value => Some (parse_value isdigit float value)
             | None =>
                 assoc key
                   [("verified", eq_cond (JBool true));
                    ("external", eq_cond (JBool false));
                    ("rentable", eq_cond (JBool true));
                    ("rented", eq_cond (JBool false));
                    ("order", JList (order_list order));
                    ("type", JStr "on-demand");
                    ("allocated_storage", JFloat "5.0")]
             end.
Proof. intros. apply offers_request_holds. Qed.

(** X18: The request of [search_volumes] (lines 737-751), whatever
    [str.isdigit] and [float] answer.  It holds each key once.  A key
    that the query gives holds the condition made of its last item
    [key=value]; here this overrides the limit argument as well as the
    built-in filters.  A key the query does not give holds its built-in
    value, [limit] the argument. *)
Theorem search_volumes_query_overrides_even_the_limit :
  forall (isdigit : string -> bool) (float : string -> option string)
         (query : string) (limit : Z) (key : string),
    exists body,
      volumes_request isdigit float query limit = JDict body
      /\ NoDup (map fst body)
      /\ assoc key body
         = match asked_for key (words 0 EmptyString query) with
           | Some value => Some (parse_value isdigit float value)
           | None =>
               assoc key
                 [("verified", eq_cond (JBool true));
                  ("external", eq_cond (JBool false));
                  ("disk_space", JDict [("gte", JInt 1)]);
                  ("limit", JInt limit);
                  ("allocated_storage", JFloat "1.0");
                  ("order", JList [JList [JStr "score"; JStr "desc"]])]
           end.
Proof. intros. apply volumes_request_holds. Qed.

(** A query that names [limit] and [verified]: in the request of
    [search_offers] the argument 20 stands under [limit], in the request
    of [search_volumes] the condition of the query does. *)
Example limit_in_the_query :
  let isdigit (text : string) := String.eqb text "5" in
  let float (text : string) :=
    if String.eqb text "5" then Some "5.0" else None in
  offers_request isdigit float "limit=5 verified=False" 20 "score-"
  = JDict
      [("select_cols", JList [JStr "*"]);
       ("q",
        JDict
          [("verified", eq_cond (JBool false));
           ("external", eq_cond (JBool false));
           ("rentable", eq_cond (JBool true));
           ("rented", eq_cond (JBool false));
           ("order", JList [JList [JStr "score"; JStr "desc"]]);
           ("type", JStr "on-demand");
           ("allocated_storage", JFloat "5.0");
           ("limit", JInt 20)])]
  /\ volumes_request isdigit float "limit=5 verified=False" 20
     = JDict
         [("limit", eq_cond (JFloat "5.0"));
          ("allocated_storage", JFloat "1.0");
          ("order", JList [JList [JStr "score"; JStr "desc"]]);
          ("verified", eq_cond (JBool false));
          ("external", eq_cond (JBool false));
          ("disk_space", JDict [("gte", JInt 1)])].
Proof. split; reflexivity. Qed.

(* ------------------------------------------------------------------ *)
(** ** The order of a search *)
(* ------------------------------------------------------------------ *)

Lemma reverse_snoc (field : string) (a : ascii) :
  reverse (field ++ String a EmptyString) = String a (reverse field).
Proof.
  unfold reverse. rewrite list_of_append. cbn [list_ascii_of_string].
  now rewrite rev_app_distr.
Qed.

Lemma reverse_reverse (text : string) : reverse (reverse text) = text.
Proof.
  unfold reverse.
  now rewrite list_ascii_of_string_of_list_ascii, rev_involutive,
    string_of_list_ascii_of_string.
Qed.

Lemma reverse_cons (last : ascii) (before text : string) :
  reverse text = String last before ->
  text = reverse before ++ String last EmptyString.
Proof.
  intro E. apply (f_equal reverse) in E. rewrite reverse_reverse in E.
  rewrite E. unfold reverse at 1. cbn [list_ascii_of_string rev].
  unfold reverse. generalize (rev (list_ascii_of_string before)).
  induction l as [| c l IH]; cbn; [reflexivity | now rewrite IH].
Qed.

Lemma byte_is (a : ascii) (code : N) :
  (code < 256)%N -> (byte a =? code)%N = true -> a = ascii_of_N code.
Proof.
  intros _ E. apply N.eqb_eq in E. unfold byte in E.
  apply (f_equal ascii_of_N) in E. now rewrite ascii_N_embedding in E.
Qed.

Lemma contains_comma_cons a text :
  contains "," (String a text)
  = (byte a =? 44)%N || contains "," text.
Proof.
  unfold contains. cbn [index prefix].
  destruct (ascii_dec "," a) as [<- | Hn].
  - now destruct text.
  - replace (byte a =? 44)%N with false.
    + cbn [orb]. now destruct (index 0 "," text).
    + symmetry. apply N.eqb_neq. intro E. apply Hn.
      change 44%N with (byte ",") in E. unfold byte in E.
      apply (f_equal ascii_of_N) in E. now rewrite !ascii_N_embedding in E.
Qed.

Lemma append_assoc (a b c : string) : (a ++ b) ++ c = a ++ b ++ c.
Proof. induction a as [| x a IH]; cbn; [reflexivity | now rewrite IH]. Qed.

Lemma append_empty (a : string) : a ++ EmptyString = a.
Proof. induction a as [| x a IH]; cbn; [reflexivity | now rewrite IH]. Qed.

Lemma split_comma_whole cur name :
  contains "," name = false -> split_comma cur name = [cur ++ name].
Proof.
  revert cur. induction name as [| a r IH]; intros cur C; cbn [split_comma].
  - now rewrite append_empty.
  - rewrite contains_comma_cons in C. apply orb_false_iff in C.
    destruct C as [-> C]. rewrite (IH _ C). now rewrite append_assoc.
Qed.

Lemma split_comma_app cur a b :
  split_comma cur (a ++ "," ++ b)
  = (split_comma cur a ++ split_comma EmptyString b)%list.
Proof.
  revert cur. induction a as [| x a IH]; intro cur.
  - reflexivity.
  - change (String x a ++ "," ++ b) with (String x (a ++ "," ++ b)).
    cbn [split_comma]. destruct (byte x =? 44)%N.
    + cbn [app]. f_equal. apply IH.
    + apply IH.
Qed.

(** X19: The order of [search_offers] (lines 538-552).  The entries of two
    lists joined by a comma follow each other; a part without comma
    gives at most one entry, read after [strip]: nothing when it is
    blank, [[field, "desc"]] when it is [field-], [[field, "asc"]] when
    it is [field+], and the part itself, ascending, when it ends with
    neither sign. *)
Theorem order_parts_give_a_field_and_a_direction :
  forall (a b name field : string),
    order_list (a ++ "," ++ b) = (order_list a ++ order_list b)%list
    /\ (contains "," name = false -> order_list name = order_entry name)
    /\ (strip name = EmptyString -> order_entry name = [])
    /\ (strip name = field ++ "-" ->
        order_entry name = [JList [JStr field; JStr "desc"]])
    /\ (strip name = field ++ "+" ->
        order_entry name = [JList [JStr field; JStr "asc"]])
    /\ (strip name <> EmptyString ->
        (forall before, strip name <> before ++ "-") ->
        (forall before, strip name <> before ++ "+") ->
        order_entry name = [JList [JStr (strip name); JStr "asc"]]).
Proof.
  intros a b name field. repeat split.
  - unfold order_list. now rewrite split_comma_app, flat_map_app.
  - intro C. unfold order_list. rewrite (@split_comma_whole EmptyString name C).
    cbn [append flat_map]. apply app_nil_r.
  - intro E. unfold order_entry. now rewrite E.
  - intro E. unfold order_entry. rewrite E, reverse_snoc, reverse_reverse.
    now destruct field.
  - intro E. unfold order_entry. rewrite E, reverse_snoc, reverse_reverse.
    now destruct field.
  - intros Hn Hm Hp. unfold order_entry.
    destruct (strip name) as [| x text] eqn:E; [now elim Hn|].
    cbn [nonempty negb].
    destruct (reverse (String x text)) as [| last before] eqn:Er;
      [reflexivity|].
    apply reverse_cons in Er.
    destruct (byte last =? 45)%N eqn:E1.
    { apply byte_is in E1; [| reflexivity]. subst last.
      now elim (Hm (reverse before)). }
    destruct (byte last =? 43)%N eqn:E2.
    { apply byte_is in E2; [| reflexivity]. subst last.
      now elim (Hp (reverse before)). }
    reflexivity.
Qed.

(* ================================================================== *)
(** * The creation of an instance *)
(* ================================================================== *)

Section Creation.
Context {H : Type} `{RemoteOS H}.
Variable w : World.

Local Abbreviation follow := (@steps H _ follows_creation).

Lemma follow_attach_ssh instance_id : follow (attach_ssh w instance_id).
Proof. unfold attach_ssh, get_ssh_key. walk_steps fail. Qed.

Lemma follow_label_instance instance_id label :
  follow (label_instance w instance_id label).
Proof. unfold label_instance, instance_update. walk_steps fail. Qed.

Lemma follow_poll_instance instance_id start_time :
  follow (poll_instance w instance_id start_time).
Proof. unfold poll_instance. walk_steps fail. Qed.

Lemma follow_wait_loop fuel instance_id timeout start_time :
  follow (wait_loop w fuel instance_id timeout start_time).
Proof.
  induction fuel as [| fuel IH]; cbn [wait_loop];
    walk_steps ltac:(apply follow_poll_instance || apply IH
                     || apply steps_out_of_fuel).
Qed.

Lemma follow_apply_post_creation_rules fuel instance_id ssh jupyter label :
  follow (apply_post_creation_rules w fuel instance_id ssh jupyter label).
Proof.
  unfold apply_post_creation_rules, wait_for_instance_ready.
  walk_steps ltac:(apply follow_attach_ssh || apply follow_label_instance
                   || apply follow_wait_loop).
Qed.

Lemma requests_follow (evs : list event) :
  Forall follows_creation evs -> forallb rule_request (requests evs) = true.
Proof.
  induction 1 as [| e evs He _ IH]; [reflexivity|].
  destruct e; cbn in *; auto. now rewrite He.
Qed.

(** The rules after a creation never raise, and they send rule requests
    only. *)
Lemma apply_post_creation_rules_sends fuel instance_id ssh jupyter label
    (s : State H) :
  wp (apply_post_creation_rules w fuel instance_id ssh jupyter label)
    (fun o s' =>
       (forall e, o <> Raise e)
       /\ exists evs,
            st_trace s' = (st_trace s ++ evs)%list
            /\ forallb rule_request (requests evs) = true) s.
Proof.
  split.
  - pose proof (apply_post_creation_rules_lists w fuel instance_id ssh
                  jupyter label s) as Hw.
    unfold wp in Hw. cbv zeta in Hw. intros e E. rewrite E in Hw. exact Hw.
  - destruct (follow_apply_post_creation_rules fuel instance_id ssh jupyter
                label s) as [_ (evs & E & F & _)].
    exists evs. split; [exact E | now apply requests_follow].
Qed.

End Creation.

Section Ordering.
Context {H : Type} `{RemoteOS H}.
Variable w : World.

Lemma create_instance_sends fuel offer_id image disk ssh jupyter direct env
    label bid_price (s : State H) :
  wp (create_instance w fuel offer_id image disk ssh jupyter direct env label
        bid_price)
    (fun o s' =>
       exists evs,
         st_trace s' = (st_trace s ++ evs)%list
         /\ match requests evs with
            | [] => exists e, o = Ok ("Error creating instance: " ++ e)
            | order :: rules =>
                rq_method order = PUT
                /\ (exists c,
                      rq_url order
                      = _build_url c ("/asks/" ++ str_int offer_id ++ "/"))
                /\ (exists body,
                      rq_json order = Some (JDict body)
                      /\ assoc "image" body = Some (JStr image)
                      /\ assoc "price" body = bid_price)
                /\ forallb rule_request rules = true
                /\ (forall text,
                      o = Ok text ->
                      prefix "Instance created successfully!" text = false ->
                      rules = [])
            end) s.
Proof.
  unfold create_instance. cbv zeta.
  wp_auto ltac:(first [ apply _make_request_at_most_once
                      | apply apply_post_creation_rules_sends ]).
  all: wp_facts.
  all: try (match goal with
            | HT : st_trace ?x = _ |- _ => is_var x; rewrite HT
            end).
  all: eexists; (split; [trace_tail|]).
  all: rewrite ?requests_app.
  all: cbn [requests flat_map app].
  all: first
    [ solve [eexists; reflexivity]
    | split; [reflexivity|];
      split; [eexists; reflexivity|];
      split;
      [ eexists; split; [reflexivity|]; split;
        [reflexivity | now destruct bid_price]
      | split;
        [ first [assumption | reflexivity]
        | intros text E Hp; first
            [ reflexivity
            | discriminate E
            | injection E as <-; cbn in Hp; discriminate Hp ] ] ] ].
Qed.

End Ordering.

(** X20: [create_instance] (lines 608-660), whatever the state and the fuel.
    When it sends no request it reports an error.  Otherwise its first
    request is the order: a [PUT] to [/asks/<offer_id>/] whose body
    names the image and holds a price exactly when a bid price was
    given.  Every later request is one of the rules: the upload of a key,
    a label, or a look at the instance; so the order is sent once, and
    never again.  And a call that returns anything but the report
    [Instance created successfully!...] has sent the order and nothing
    else: the rules run only after the API has reported success. *)
Theorem create_instance_orders_once_and_then_only_applies_the_rules :
  forall (H : Type) (os : RemoteOS H) (w : World) (fuel : nat)
         (offer_id : Z) (image : string) (disk : json)
         (ssh jupyter direct : bool) (env : option json) (label : string)
         (bid_price : option json) (s : State H),
    let r := create_instance w fuel offer_id image disk ssh jupyter direct
               env label bid_price s in
    exists evs,
      st_trace (snd r) = (st_trace s ++ evs)%list
      /\ match requests evs with
         | [] => exists e, fst r = Ok ("Error creating instance: " ++ e)
         | order :: rules =>
             rq_method order = PUT
             /\ (exists c,
                   rq_url order
                   = _build_url c ("/asks/" ++ str_int offer_id ++ "/"))
             /\ (exists body,
                   rq_json order = Some (JDict body)
                   /\ assoc "image" body = Some (JStr image)
                   /\ assoc "price" body = bid_price)
             /\ forallb rule_request rules = true
             /\ rule_request order = false
             /\ (forall text,
                   fst r = Ok text ->
                   prefix "Instance created successfully!" text = false ->
                   rules = [])
         end.
Proof.
  intros H os w fuel offer_id image disk ssh jupyter direct env label
    bid_price s r.
  destruct (create_instance_sends w fuel offer_id image disk ssh jupyter
              direct env label bid_price s) as (evs & E & Hr).
  exists evs. split; [exact E|]. fold r in Hr.
  destruct (requests evs) as [| order rules]; [exact Hr|].
  destruct Hr as (Hm & Hu & (body & Hb & Hi & Hp) & Hf & Ht).
  repeat split; eauto.
  unfold rule_request. rewrite Hm, Hb.
  destruct body as [| [key [| | | | | |]] [|]]; try reflexivity.
  cbn in Hi. destruct (String.eqb key "label") eqn:Ek; [| reflexivity].
  apply String.eqb_eq in Ek. subst key. discriminate Hi.
Qed.

(* ================================================================== *)
(** * The two sides of the server *)
(* ================================================================== *)

Section Sides.
Context {H : Type} `{RemoteOS H}.
Variable w : World.

Local Abbreviation api := (@steps H _ api_only).
Local Abbreviation over_ssh := (@steps H _ ssh_only).

Lemma api_instance_update method endpoint json_data done failure trouble :
  api (instance_update w method endpoint json_data done failure trouble).
Proof. unfold instance_update. walk_steps fail. Qed.

Lemma api_attach_ssh instance_id : api (attach_ssh w instance_id).
Proof. unfold attach_ssh, get_ssh_key. walk_steps fail. Qed.

Lemma api_poll_logs n id result_url : api (poll_logs w n id result_url).
Proof.
  induction n as [| n IH]; cbn [poll_logs]; walk_steps ltac:(apply IH).
Qed.

Lemma api_poll_command n id response result_url :
  api (poll_command w n id response result_url).
Proof.
  induction n as [| n IH]; cbn [poll_command]; walk_steps ltac:(apply IH).
Qed.

Lemma api_poll_instance instance_id start_time :
  api (poll_instance w instance_id start_time).
Proof. unfold poll_instance. walk_steps fail. Qed.

Lemma api_wait_loop fuel instance_id timeout start_time :
  api (wait_loop w fuel instance_id timeout start_time).
Proof.
  induction fuel as [| fuel IH]; cbn [wait_loop];
    walk_steps ltac:(apply api_poll_instance || apply IH
                     || apply steps_out_of_fuel).
Qed.

Lemma api_apply_post_creation_rules fuel instance_id ssh jupyter label :
  api (apply_post_creation_rules w fuel instance_id ssh jupyter label).
Proof.
  unfold apply_post_creation_rules, wait_for_instance_ready, label_instance.
  walk_steps ltac:(apply api_attach_ssh || apply api_instance_update
                   || apply api_wait_loop).
Qed.

Lemma ssh__execute_ssh_command host user port command :
  over_ssh (_execute_ssh_command w host user port command).
Proof. unfold _execute_ssh_command. walk_steps fail. Qed.

Lemma ssh_launch host user port command task_name :
  over_ssh (launch w host user port command task_name).
Proof. unfold launch, launch_task. walk_steps fail. Qed.

Lemma ssh_check host user port task_id pid n :
  over_ssh (check w host user port task_id pid n).
Proof. unfold check. walk_steps fail. Qed.

Lemma ssh_kill host user port task_id pid :
  over_ssh (kill w host user port task_id pid).
Proof. unfold kill. walk_steps fail. Qed.

Lemma constructions_ssh_only (evs : list event) :
  Forall ssh_only evs -> constructions evs = [].
Proof.
  induction 1 as [| e evs He _ IH]; [reflexivity|].
  destruct e; cbn in *; auto; contradiction.
Qed.

(** A stretch of execution on the SSH side leaves the global client as
    it is. *)
Lemma step_ssh_only (s s' : State H) :
  step ssh_only s s' ->
  st_vast_client s' = st_vast_client s
  /\ exists evs,
       st_trace s' = (st_trace s ++ evs)%list /\ Forall ssh_only evs.
Proof.
  intros [_ (evs & E & F & C)]. split; [| eauto].
  pose proof (constructions_ssh_only F) as K. unfold client_step in C.
  destruct (st_vast_client s) as [c |].
  - now destruct C.
  - destruct C as [[C _] | (c & _ & L)]; [exact C|].
    rewrite K in L. discriminate L.
Qed.

Lemma run_tool_sides fuel call (s : State H) :
  match call with
  | Call_ssh_execute_command _ _ _ _
  | Call_ssh_execute_background_command _ _ _ _ _
  | Call_ssh_check_background_task _ _ _ _ _ _
  | Call_ssh_kill_background_task _ _ _ _ _ =>
      step ssh_only s (snd (run_tool w fuel call s))
  | Call_prepare_instance _ => True
  | _ => step api_only s (snd (run_tool w fuel call s))
  end.
Proof.
  destruct call; cbn [run_tool]; try exact I;
    match goal with
    | |- step ?P _ (snd (?m s)) => revert s; change (steps P m)
    end;
    unfold show_user_info, show_instances, search_offers, create_instance,
      destroy_instance, start_instance, stop_instance, search_volumes,
      label_instance, reboot_instance, recycle_instance, show_instance,
      logs, search_templates, configure_mcp_rules, execute_command,
      ssh_execute_command, ssh_execute_background_command,
      ssh_check_background_task, ssh_kill_background_task;
    walk_steps ltac:(first
      [ apply api_instance_update | apply api_attach_ssh
      | apply api_poll_logs | apply api_poll_command
      | apply api_apply_post_creation_rules
      | apply ssh__execute_ssh_command | apply ssh_launch
      | apply ssh_check | apply ssh_kill ]).
Qed.

Lemma api_get_instance_ssh_info instance_id :
  api (get_instance_ssh_info w instance_id).
Proof. unfold get_instance_ssh_info. walk_steps fail. Qed.

Lemma ssh_prepare_steps host port todo results :
  over_ssh (prepare_steps w host port todo results).
Proof.
  revert results. induction todo as [| cmd rest IH]; intro results;
    cbn [prepare_steps].
  - apply steps_ret.
  - walk_steps ltac:(apply ssh__execute_ssh_command || apply IH).
Qed.

Lemma ssh__prepare_instance host port user_name :
  over_ssh (_prepare_instance w host port user_name).
Proof.
  unfold _prepare_instance. walk_steps ltac:(apply ssh_prepare_steps).
Qed.

Lemma wp_of_steps {A} (P : event -> Prop) (m : M H A) (s : State H) :
  steps P m -> wp m (fun _ s' => step P s s') s.
Proof. intro Hs. apply Hs. Qed.

(** [prepare_instance] asks the API first and works over SSH after. *)
Lemma prepare_instance_sides instance_id (s : State H) :
  wp (prepare_instance w instance_id)
    (fun _ s' =>
       exists asked over,
         st_trace s' = (st_trace s ++ asked ++ over)%list
         /\ Forall api_only asked /\ Forall ssh_only over) s.
Proof.
  unfold prepare_instance. apply wp_try_except, wp_bind.
  eapply wp_conseq;
    [exact (@wp_of_steps _ api_only _ s
              (api_get_instance_ssh_info instance_id))|].
  intros [[host port] | e |] s1 [_ (asked & E1 & F1 & _)]; cbv beta iota.
  - eapply wp_conseq;
      [exact (@wp_of_steps _ ssh_only _ s1
                (ssh__prepare_instance host port (USER_NAME w)))|].
    intros o s2 [_ (over & E2 & F2 & _)].
    destruct o; [| apply wp_ret |]; exists asked, over;
      (split; [now rewrite E2, E1, app_assoc | now split]).
  - apply wp_ret. exists asked, []. rewrite app_nil_r. now repeat split.
  - exists asked, []. rewrite app_nil_r. now repeat split.
Qed.

End Sides.

(** X21: every tool but [prepare_instance] keeps to one side.  The four
    SSH tools (lines 1198-1567) never build the API client, send it no
    request and fetch no URL, and they leave the global client as it is.
    All the other tools (lines 450-1195) parse no private key, open no
    SSH session, run no remote command and close none.
    [prepare_instance] (lines 1570-1579) does both, in this order: what
    it asks the API comes first, and nothing but SSH follows. *)
Theorem tools_keep_to_the_api_or_to_ssh :
  forall (H : Type) (os : RemoteOS H) (w : World) (fuel : nat)
         (call : tool_call) (s : State H),
    let s' := snd (run_tool w fuel call s) in
    match call with
    | Call_ssh_execute_command _ _ _ _
    | Call_ssh_execute_background_command _ _ _ _ _
    | Call_ssh_check_background_task _ _ _ _ _ _
    | Call_ssh_kill_background_task _ _ _ _ _ =>
        st_vast_client s' = st_vast_client s
        /\ exists evs,
             st_trace s' = (st_trace s ++ evs)%list /\ Forall ssh_only evs
    | Call_prepare_instance _ =>
        exists asked over,
          st_trace s' = (st_trace s ++ asked ++ over)%list
          /\ Forall api_only asked /\ Forall ssh_only over
    | _ =>
        exists evs,
          st_trace s' = (st_trace s ++ evs)%list /\ Forall api_only evs
    end.
Proof.
  intros H os w fuel call s s'. subst s'.
  pose proof (run_tool_sides w fuel call s) as Hs.
  destruct call; cbn [run_tool] in *;
    lazymatch goal with
    | |- exists asked over, _ => exact (prepare_instance_sides w _ s)
    | |- _ /\ _ => now apply step_ssh_only
    | |- exists evs, _ =>
        destruct Hs as [_ (evs & E & F & _)]; exists evs; now split
    end.
Qed.
